(** * Fantasy points allowed by position: the aggregation pipeline

    A shallow embedding of the data pipeline of [main.py]
    ([get_pbp_data] ... [get_fpa_by_position]) and the properties of it
    that the specification states, followed by the functions that prepare
    the chart data from the table ([get_fpa_data] ... [get_names],
    [get_logo_dict], [refresh_pickles]) and further properties of the
    code.

    Conventions of the embedding.
    - A data frame is the [list] of its rows, in row order; a row is a
      record with one field per column that the pipeline reads.
    - A cell that pandas shows as NaN / None is [None].
    - A cell of a floating point column ([fantasy_points],
      [fantasy_points_ppr], [epa]) is the decimal number that the csv file
      holds, a rational [Q]. The sums and means that are reported as values
      are idealised as exact; they skip nulls, as pandas' do. The one
      comparison of the pipeline that decides whether a row exists, the
      [> 6] of the non-skill bucket, is made as the code makes it: on the
      binary64 sum of the doubles that [read_csv] gives the cells,
      accumulated as the group-by kernel of pandas accumulates it.
    - Integer columns are [Z]; the counts stay far below the 64-bit range.
    - [groupby(..., dropna=False)] yields one group per distinct key, null
      keys included, the groups sorted by key with nulls last.
    - Files and remote archives are fields of a [World]; a call that raises
      yields [Failed]: a fetch that fails, the column selection on a frame
      that lost its float columns, a write into a directory that does not
      exist. *)

From Stdlib Require Import Ascii.
From Stdlib Require Import ZArith QArith List String Bool Lia Permutation.
From Stdlib Require Import Sorting.Sorted.
From Stdlib Require Import Floats.
Import ListNotations.
Local Open Scope Z_scope.
Local Open Scope string_scope.
Local Open Scope list_scope.

(* ================================================================= *)
(** ** Nullable cells *)

Module Cell.

Definition notna {A} (c : option A) : bool :=
  match c with Some _ => true | None => false end.

Definition isna {A} (c : option A) : bool := negb (notna c).

(** [Series.isin(values)]: a null cell is in no list of labels. *)
Definition isin (c : option string) (values : list string) : bool :=
  match c with
  | Some s => existsb (String.eqb s) values
  | None => false
  end.

(** [Series.replace(a, b)] on one cell. *)
Definition replace (a b : string) (c : option string) : option string :=
  match c with
  | Some s => if String.eqb s a then Some b else Some s
  | None => None
  end.

(** Sum of a float column as a value, nulls skipped; the empty sum is 0.
    The value is idealised: the exact sum of the decimals. *)
Definition sumQ (col : list (option Q)) : Q :=
  fold_left (fun acc c => match c with Some x => (acc + x)%Q | None => acc end)
            col 0%Q.

(** The double that [read_csv] holds for a decimal cell: the binary64 number
    nearest to it, ties to even (the quotient of two integers that are
    doubles themselves, as for every number of up to 15 digits). *)
Definition float64_of_Z (z : Z) : float :=
  SF2Prim (binary_normalize prec emax z 0 false).

Definition float64 (x : Q) : float :=
  PrimFloat.div (float64_of_Z (Qnum x)) (float64_of_Z (Zpos (Qden x))).

(** The cells that a sum sees: the nulls are skipped ([val == val]). *)
Definition present (col : list (option Q)) : list float :=
  flat_map (fun c => match c with Some x => [float64 x] | None => [] end) col.

(** One step of the group-by sum kernel of pandas ([group_add], "Kahan
    summation"), on the running sum and its compensation:
    [y = val - compensation; t = sumx + y;
     compensation = t - sumx - y; sumx = t]. *)
Definition group_add_step (acc : float * float) (val : float) : float * float :=
  let sumx := fst acc in
  let compensation := snd acc in
  let y := PrimFloat.sub val compensation in
  let t := PrimFloat.add sumx y in
  (t, PrimFloat.sub (PrimFloat.sub t sumx) y).

(** [groupby(...).sum()] of a float column on one group, in binary64: the
    cells in row order, from [sumx = 0], [compensation = 0]. *)
Definition sum_float64 (col : list (option Q)) : float :=
  fst (fold_left group_add_step (present col) (PrimFloat.zero, PrimFloat.zero)).

(** Sum of an integer column. *)
Definition sumZ (col : list Z) : Z := fold_left Z.add col 0.

(** [count()] of a column: the number of non-null cells. *)
Definition count {A} (col : list (option A)) : Z :=
  Z.of_nat (List.length (filter notna col)).

(** [x > 6] on a float; False on NaN. *)
Definition gt6 (x : float) : bool := PrimFloat.ltb 6%float x.

(** [max] of an integer column, nulls skipped; null when nothing is left. *)
Definition maxZ_step (acc c : option Z) : option Z :=
  match c, acc with
  | Some s, Some m => Some (Z.max m s)
  | Some s, None => Some s
  | None, _ => acc
  end.

Definition maxZ (col : list (option Z)) : option Z :=
  fold_left maxZ_step col None.

(** [a == b] on two cells: a comparison with a null is False. *)
Definition eqZ (a b : option Z) : bool :=
  match a, b with
  | Some x, Some y => Z.eqb x y
  | _, _ => false
  end.

Definition eq_str (a : option string) (b : string) : bool :=
  match a with
  | Some x => String.eqb x b
  | None => false
  end.

Definition opt_dec {A} (dec : forall x y : A, {x = y} + {x <> y})
  (x y : option A) : {x = y} + {x <> y}.
Proof. decide equality. Defined.

Definition pair_dec {A B} (decA : forall x y : A, {x = y} + {x <> y})
  (decB : forall x y : B, {x = y} + {x <> y})
  (x y : A * B) : {x = y} + {x <> y}.
Proof. decide equality. Defined.

Definition ostring_dec := opt_dec string_dec.
Definition oZ_dec := opt_dec Z.eq_dec.

(** Order of the keys of a sorted group-by: nulls last. *)
Definition opt_leb {A} (leb : A -> A -> bool) (x y : option A) : bool :=
  match x, y with
  | Some a, Some b => leb a b
  | Some _, None => true
  | None, Some _ => false
  | None, None => true
  end.

Definition ostring_leb := opt_leb String.leb.
Definition oZ_leb := opt_leb Z.leb.

(** Lexicographic order on a pair of key columns. *)
Definition lex_leb {A B} (decA : forall x y : A, {x = y} + {x <> y})
  (lebA : A -> A -> bool) (lebB : B -> B -> bool) (x y : A * B) : bool :=
  if decA (fst x) (fst y) then lebB (snd x) (snd y) else lebA (fst x) (fst y).

(** [df[mask]]: the rows at which the boolean mask is True. *)
Definition select {A} (rows : list A) (mask : list bool) : list A :=
  map fst (filter snd (combine rows mask)).

End Cell.

(* ================================================================= *)
(** ** Group-by *)

Section GroupBy.

Variables R K : Type.
Variable K_dec : forall x y : K, {x = y} + {x <> y}.
Variable leb : K -> K -> bool.
Variable key : R -> K.

Fixpoint insert_sorted (k : K) (l : list K) : list K :=
  match l with
  | [] => [k]
  | k' :: t => if leb k k' then k :: l else k' :: insert_sorted k t
  end.

Definition sort_keys (l : list K) : list K := fold_right insert_sorted [] l.

(** The distinct keys of the frame, sorted. *)
Definition group_keys (rows : list R) : list K :=
  sort_keys (nodup K_dec (map key rows)).

(** The rows of one group, in frame order. *)
Definition group_rows (rows : list R) (k : K) : list R :=
  filter (fun r => if K_dec (key r) k then true else false) rows.

(** [df.groupby(keys, dropna=False)]: the groups with their keys. *)
Definition groupby (rows : list R) : list (K * list R) :=
  map (fun k => (k, group_rows rows k)) (group_keys rows).

End GroupBy.

Arguments insert_sorted {K} leb k l.
Arguments sort_keys {K} leb l.
Arguments group_keys {R K} K_dec leb key rows.
Arguments group_rows {R K} K_dec key rows k.
Arguments groupby {R K} K_dec leb key rows.

(* ================================================================= *)
(** ** The tables *)

(** Play-by-play rows. *)
Module Pbp.
Record row := mk {
  play_id : option Z;
  week : option Z;
  posteam : option string;
  defteam : option string;
  play_type : option string;
  special_teams_play : option Z;
  season_type : option string;
  epa : option Q;
  rusher_player_id : option string;
  rusher_player_name : option string;
  passer_player_id : option string;
  passer_player_name : option string;
  receiver_player_id : option string;
  receiver_player_name : option string
}.
End Pbp.

(** The five grouping columns of the participation tables:
    name, id, week, offense, defense. *)
Definition PKey : Type :=
  (option string * (option string * (option Z * (option string * option string))))%type.

Definition PKey_dec : forall x y : PKey, {x = y} + {x <> y} :=
  Cell.pair_dec Cell.ostring_dec
    (Cell.pair_dec Cell.ostring_dec
       (Cell.pair_dec Cell.oZ_dec
          (Cell.pair_dec Cell.ostring_dec Cell.ostring_dec))).

Definition PKey_leb : PKey -> PKey -> bool :=
  Cell.lex_leb Cell.ostring_dec Cell.ostring_leb
    (Cell.lex_leb Cell.ostring_dec Cell.ostring_leb
       (Cell.lex_leb Cell.oZ_dec Cell.oZ_leb
          (Cell.lex_leb Cell.ostring_dec Cell.ostring_leb Cell.ostring_leb))).

(** Participation rows: the frames of [get_rushers], [get_passers],
    [get_receivers] and [get_players]. *)
Module Players.
Record row := mk {
  player : option string;
  player_id : option string;
  week : option Z;
  posteam : option string;
  defteam : option string;
  plays : Z
}.
Definition key (r : row) : PKey :=
  (player r, (player_id r, (week r, (posteam r, defteam r)))).
(** [reset_index()]: the group key becomes the first five columns. *)
Definition of_group (k : PKey) (n : Z) : row :=
  mk (fst k) (fst (snd k)) (fst (snd (snd k)))
     (fst (snd (snd (snd k)))) (snd (snd (snd (snd k)))) n.
End Players.

(** Player-week statistics. *)
Module Stats.
Record row := mk {
  player_id : option string;
  week : option Z;
  fantasy_points : option Q;
  fantasy_points_ppr : option Q
}.
End Stats.

(** Roster entries. *)
Module Roster.
Record row := mk {
  gsis_id : option string;
  season : option Z;
  position : option string
}.
End Roster.

(** [joined_data]: participation merged with statistics. *)
Module Joined.
Record row := mk {
  player : option string;
  player_id : option string;
  week : option Z;
  posteam : option string;
  defteam : option string;
  plays : Z;
  fantasy_points : option Q;
  fantasy_points_ppr : option Q
}.
Definition merged (p : Players.row) (s : Stats.row) : row :=
  mk (Players.player p) (Players.player_id p) (Players.week p)
     (Players.posteam p) (Players.defteam p) (Players.plays p)
     (Stats.fantasy_points s) (Stats.fantasy_points_ppr s).
(** The participation columns of a joined row. *)
Definition participation (j : row) : Players.row :=
  Players.mk (player j) (player_id j) (week j) (posteam j) (defteam j) (plays j).
End Joined.

(** [tri_data]: [joined_data] left-merged with the roster lookup. *)
Module Tri.
Record row := mk {
  player : option string;
  player_id : option string;
  week : option Z;
  posteam : option string;
  defteam : option string;
  plays : Z;
  fantasy_points : option Q;
  fantasy_points_ppr : option Q;
  gsis_id : option string;
  season : option Z;
  position : option string
}.
Definition matched (j : Joined.row) (r : Roster.row) : row :=
  mk (Joined.player j) (Joined.player_id j) (Joined.week j)
     (Joined.posteam j) (Joined.defteam j) (Joined.plays j)
     (Joined.fantasy_points j) (Joined.fantasy_points_ppr j)
     (Roster.gsis_id r) (Roster.season r) (Roster.position r).
(** A left row without a match: the right columns are null. *)
Definition unmatched (j : Joined.row) : row :=
  mk (Joined.player j) (Joined.player_id j) (Joined.week j)
     (Joined.posteam j) (Joined.defteam j) (Joined.plays j)
     (Joined.fantasy_points j) (Joined.fantasy_points_ppr j)
     None None None.
(** The columns of [joined_data] in a row of [tri_data]. *)
Definition joined (t : row) : Joined.row :=
  Joined.mk (player t) (player_id t) (week t) (posteam t) (defteam t)
            (plays t) (fantasy_points t) (fantasy_points_ppr t).
End Tri.

(** Key of the non-skill group-by: week, offense, defense. *)
Definition WKey : Type := (option Z * (option string * option string))%type.

Definition WKey_dec : forall x y : WKey, {x = y} + {x <> y} :=
  Cell.pair_dec Cell.oZ_dec (Cell.pair_dec Cell.ostring_dec Cell.ostring_dec).

Definition WKey_leb : WKey -> WKey -> bool :=
  Cell.lex_leb Cell.oZ_dec Cell.oZ_leb
    (Cell.lex_leb Cell.ostring_dec Cell.ostring_leb Cell.ostring_leb).

(** [non_skill_pos_data]. *)
Module NonSkill.
Record row := mk {
  week : option Z;
  posteam : option string;
  defteam : option string;
  fantasy_points : Q;
  position : string
}.
End NonSkill.

(** [fixed_data]: the concatenation of [tri_data] and
    [non_skill_pos_data]; every column is nullable, since each of the two
    frames lacks columns of the other. *)
Module Fixed.
Record row := mk {
  player : option string;
  player_id : option string;
  week : option Z;
  posteam : option string;
  defteam : option string;
  plays : option Z;
  fantasy_points : option Q;
  fantasy_points_ppr : option Q;
  gsis_id : option string;
  season : option Z;
  position : option string
}.
Definition of_tri (t : Tri.row) : row :=
  mk (Tri.player t) (Tri.player_id t) (Tri.week t) (Tri.posteam t)
     (Tri.defteam t) (Some (Tri.plays t)) (Tri.fantasy_points t)
     (Tri.fantasy_points_ppr t) (Tri.gsis_id t) (Tri.season t)
     (Tri.position t).
Definition of_non_skill (n : NonSkill.row) : row :=
  mk None None (NonSkill.week n) (NonSkill.posteam n) (NonSkill.defteam n)
     None (Some (NonSkill.fantasy_points n)) None None None
     (Some (NonSkill.position n)).
Definition all_null : row :=
  mk None None None None None None None None None None None.
End Fixed.

(** Key of the final group-by: week, defense, offense, position. *)
Definition FKey : Type :=
  (option Z * (option string * (option string * option string)))%type.

Definition FKey_dec : forall x y : FKey, {x = y} + {x <> y} :=
  Cell.pair_dec Cell.oZ_dec
    (Cell.pair_dec Cell.ostring_dec
       (Cell.pair_dec Cell.ostring_dec Cell.ostring_dec)).

Definition FKey_leb : FKey -> FKey -> bool :=
  Cell.lex_leb Cell.oZ_dec Cell.oZ_leb
    (Cell.lex_leb Cell.ostring_dec Cell.ostring_leb
       (Cell.lex_leb Cell.ostring_dec Cell.ostring_leb Cell.ostring_leb)).

(** The aggregated allowance table, [fpa_by_position]. *)
Module Fpa.
Record row := mk {
  week : option Z;
  defteam : option string;
  posteam : option string;
  position : option string;
  fantasy_points : Q;
  fantasy_points_ppr : Q
}.
Definition of_group (k : FKey) (fp ppr : Q) : row :=
  mk (fst k) (fst (snd k)) (fst (snd (snd k))) (snd (snd (snd k))) fp ppr.
End Fpa.

(* ================================================================= *)
(** ** Participation extractor *)

(** The grouping key of a play for one role, given the role's name and id
    columns. *)
Definition role_key (name id : Pbp.row -> option string) (p : Pbp.row) : PKey :=
  (name p, (id p, (Pbp.week p, (Pbp.posteam p, Pbp.defteam p)))).

(** The body shared by [get_rushers], [get_passers] and [get_receivers]:
    [df.loc[id.isna() == False].groupby([name, id, week, posteam, defteam],
    dropna=False).count()[['play_id']].reset_index()], the count column
    renamed to [plays]; [role_build] is the part after the group-by, on
    one group. *)
Definition role_build (g : PKey * list Pbp.row) : Players.row :=
  Players.of_group (fst g) (Cell.count (map Pbp.play_id (snd g))).

Definition role_counts (name id : Pbp.row -> option string)
  (df : list Pbp.row) : list Players.row :=
  map role_build
      (groupby PKey_dec PKey_leb (role_key name id)
         (filter (fun p => Bool.eqb (Cell.isna (id p)) false) df)).

Definition get_rushers (df : list Pbp.row) : list Players.row :=
  role_counts Pbp.rusher_player_name Pbp.rusher_player_id df.

Definition get_passers (df : list Pbp.row) : list Players.row :=
  role_counts Pbp.passer_player_name Pbp.passer_player_id df.

Definition get_receivers (df : list Pbp.row) : list Players.row :=
  role_counts Pbp.receiver_player_name Pbp.receiver_player_id df.

(** [.sum()[['plays']].reset_index()] on one group. *)
Definition players_build (g : PKey * list Players.row) : Players.row :=
  Players.of_group (fst g) (Cell.sumZ (map Players.plays (snd g))).

Definition get_players (data : list Pbp.row) : list Players.row :=
  let rushers := get_rushers data in
  let passers := get_passers data in
  let receivers := get_receivers data in
  let players := rushers ++ passers ++ receivers in
  map players_build (groupby PKey_dec PKey_leb Players.key players).

(* ================================================================= *)
(** ** Most-recent-position roster lookup *)

(** [groupby(['gsis_id'])['season'].transform(max)]: the group-by drops
    null keys (the default), so a row without id gets a null; the maximum
    skips null seasons. [season_max_of] is the cell of one row. *)
Definition season_max_of (df : list Roster.row) (r : Roster.row) : option Z :=
  match Roster.gsis_id r with
  | None => None
  | Some _ =>
      Cell.maxZ (map Roster.season
                   (group_rows Cell.ostring_dec Roster.gsis_id df
                      (Roster.gsis_id r)))
  end.

Definition season_transform_max (df : list Roster.row) : list (option Z) :=
  map (season_max_of df) df.

(** The part of [get_two_year_roster_data] after the two fetches. *)
Definition two_year_roster (roster_data roster_data_prev_year : list Roster.row)
  : list Roster.row :=
  let two_year_roster_data := roster_data ++ roster_data_prev_year in
  let idx := map (fun c => Cell.eqZ (fst c) (snd c))
               (combine (season_transform_max two_year_roster_data)
                        (map Roster.season two_year_roster_data)) in
  Cell.select two_year_roster_data idx.

(* ================================================================= *)
(** ** Attribution joiner *)

(** [pd.merge(players, player_stats_data, how='inner',
    on=['player_id', 'week'])]. Equal keys match, two nulls included. The
    rows are listed left row by left row, each with its matches in the
    order of the right frame. *)
Definition stat_matches (p : Players.row) (s : Stats.row) : bool :=
  (if Cell.ostring_dec (Players.player_id p) (Stats.player_id s) then true else false)
  && (if Cell.oZ_dec (Players.week p) (Stats.week s) then true else false).

Definition merge_inner (players : list Players.row) (stats : list Stats.row)
  : list Joined.row :=
  flat_map (fun p => map (Joined.merged p) (filter (stat_matches p) stats))
           players.

(** [pd.merge(joined_data, two_year_roster_data, how='left',
    left_on=['player_id'], right_on=['gsis_id'])]. *)
Definition roster_matches (j : Joined.row) (r : Roster.row) : bool :=
  if Cell.ostring_dec (Joined.player_id j) (Roster.gsis_id r) then true else false.

Definition merge_left (joined : list Joined.row) (roster : list Roster.row)
  : list Tri.row :=
  flat_map (fun j =>
              match filter (roster_matches j) roster with
              | [] => [Tri.unmatched j]
              | ms => map (Tri.matched j) ms
              end) joined.

(* ================================================================= *)
(** ** Calls that can raise *)

(** The outcome of a call: a value, or an exception that propagates. *)
Inductive result (A : Type) : Type :=
| Ok (a : A)
| Failed.
Arguments Ok {A} a.
Arguments Failed {A}.

Definition bind {A B} (r : result A) (k : A -> result B) : result B :=
  match r with
  | Ok a => k a
  | Failed => Failed
  end.

Notation "x <- c ;; k" := (bind c (fun x => k))
  (at level 61, c at next level, right associativity).

(* ================================================================= *)
(** ** Position aggregator *)

Definition skill_positions : list string := ["QB"; "RB"; "FB"; "TE"; "WR"].
Definition output_positions : list string := ["QB"; "RB"; "WR"; "TE"; "non_skill"].

Definition tri_wkey (t : Tri.row) : WKey :=
  (Tri.week t, (Tri.posteam t, Tri.defteam t)).

Definition non_skill_wkey (n : NonSkill.row) : WKey :=
  (NonSkill.week n, (NonSkill.posteam n, NonSkill.defteam n)).

Definition unconventional_ball_carriers (tri_data : list Tri.row) : list Tri.row :=
  filter (fun t => Bool.eqb (Cell.isin (Tri.position t) skill_positions) false)
         tri_data.

(** Lines 169 to 174. The group-by sums [fantasy_points] per group; the
    groups whose sum, the double that the kernel computed, exceeds 6 are
    kept and labelled. The value that a kept row carries is idealised, as
    every reported sum is. *)
Definition non_skill_kept (g : WKey * list Tri.row) : bool :=
  Cell.gt6 (Cell.sum_float64 (map Tri.fantasy_points (snd g))).

Definition non_skill_build (g : WKey * list Tri.row) : NonSkill.row :=
  NonSkill.mk (fst (fst g)) (fst (snd (fst g))) (snd (snd (fst g)))
    (Cell.sumQ (map Tri.fantasy_points (snd g))) "non_skill".

Definition non_skill_pos_data (tri_data : list Tri.row) : list NonSkill.row :=
  let groups :=
    groupby WKey_dec WKey_leb tri_wkey
      (unconventional_ball_carriers tri_data) in
  map non_skill_build (filter non_skill_kept groups).

(** [value.reindex(index=columns)] of a series labelled by the row numbers
    0..n-1 on the column names of the frame: no column name is a label of
    the series, so every cell of the resulting row is null, whatever the
    series holds. *)
Definition reindex_on_columns (value : list (option string)) : Fixed.row :=
  Fixed.all_null.

(** [fixed_data.loc['position'] = fixed_data['position'].replace('FB', 'RB')].
    [.loc] with a single label addresses a ROW. The frame, indexed 0..n-1
    after [concat(..., ignore_index=True)], has no row labelled 'position',
    so the assignment enlarges it by one row, the assigned series reindexed
    on the columns. The [position] column of the rows already there keeps
    its values. *)
Definition loc_position_assign (fixed_data : list Fixed.row) : list Fixed.row :=
  let value := map (fun r => Cell.replace "FB" "RB" (Fixed.position r)) fixed_data in
  fixed_data ++ [reindex_on_columns value].

Definition fixed_fkey (r : Fixed.row) : FKey :=
  (Fixed.week r, (Fixed.defteam r, (Fixed.posteam r, Fixed.position r))).

(** [tri_data]: the two merges. *)
Definition attributed (players : list Players.row)
  (player_stats_data : list Stats.row) (two_year_roster_data : list Roster.row)
  : list Tri.row :=
  let joined_data := merge_inner players player_stats_data in
  merge_left joined_data two_year_roster_data.

(** [fixed_data], as the final group-by receives it. *)
Definition fixed_data_of (tri_data : list Tri.row) : list Fixed.row :=
  let fixed_data :=
    map Fixed.of_tri tri_data
    ++ map Fixed.of_non_skill (non_skill_pos_data tri_data) in
  let fixed_data := loc_position_assign fixed_data in
  filter (fun r => Cell.isin (Fixed.position r) output_positions) fixed_data.

(** [.sum()[['fantasy_points', 'fantasy_points_ppr']]] and [reset_index]
    on one group. *)
Definition fpa_build (g : FKey * list Fixed.row) : Fpa.row :=
  Fpa.of_group (fst g)
    (Cell.sumQ (map Fixed.fantasy_points (snd g)))
    (Cell.sumQ (map Fixed.fantasy_points_ppr (snd g))).

Definition fpa_key (r : Fpa.row) : FKey :=
  (Fpa.week r, (Fpa.defteam r, (Fpa.posteam r, Fpa.position r))).

(** The final group-by of lines 181 to 183, on a [tri_data] that has
    rows. *)
Definition position_sums (tri_data : list Tri.row) : list Fpa.row :=
  map fpa_build (groupby FKey_dec FKey_leb fixed_fkey (fixed_data_of tri_data)).

(** The position aggregator: from [tri_data] to [fpa_by_position], lines
    167 to 183. A [tri_data] without rows has no float column left when it
    reaches the sums: the merge of frames without rows, or the row that
    [.loc] adds to a frame without rows, leaves columns of dtype object,
    which [sum()] drops, and the selection of [fantasy_points] (line 169
    or line 181) raises KeyError. A [tri_data] with rows keeps its float
    columns, also when the filter of line 179 leaves no row. *)
Definition aggregate (tri_data : list Tri.row) : result (list Fpa.row) :=
  match tri_data with
  | [] => Failed
  | _ :: _ => Ok (position_sums tri_data)
  end.

(** The part of [get_fpa_by_position] between the fetches and the pickle. *)
Definition fpa_table (players : list Players.row) (player_stats_data : list Stats.row)
  (two_year_roster_data : list Roster.row) : result (list Fpa.row) :=
  aggregate (attributed players player_stats_data two_year_roster_data).

(* ================================================================= *)
(** ** Files, remote archives and the cache *)

(** What a call can see of the outside: whether the [cache/] directory
    exists, its pickles and csv files, by season, and what the remote
    archives answer ([None]: the file is absent, resp. the download
    raises). *)
Record World := mkWorld {
  cache_dir : bool;
  fpa_pickle : Z -> option (list Fpa.row);
  pbp_csv : Z -> option (list Pbp.row);
  pbp_remote : Z -> option (list Pbp.row);
  roster_csv : Z -> option (list Roster.row);
  roster_remote : Z -> option (list Roster.row);
  stats_csv : Z -> option (list Stats.row);
  stats_remote : Z -> option (list Stats.row)
}.

Definition fetch {A} (remote : option A) : result A :=
  match remote with
  | Some d => Ok d
  | None => Failed
  end.

Definition pbp_keep (p : Pbp.row) : bool :=
  Cell.eqZ (Pbp.special_teams_play p) (Some 0)
  && Bool.eqb (Cell.isna (Pbp.epa p)) false
  && Cell.eq_str (Pbp.season_type p) "REG"
  && Cell.isin (Pbp.play_type p) ["pass"; "run"].

Definition get_pbp_data (year : Z) (w : World) : result (list Pbp.row) :=
  match pbp_csv w year with
  | Some data => Ok data
  | None =>
      data <- fetch (pbp_remote w year) ;;
      Ok (filter pbp_keep data)
  end.

Definition get_roster_data (year : Z) (w : World) : result (list Roster.row) :=
  match roster_csv w year with
  | Some data => Ok data
  | None => fetch (roster_remote w year)
  end.

Definition get_player_stats_data (year : Z) (w : World) : result (list Stats.row) :=
  match stats_csv w year with
  | Some data => Ok data
  | None => fetch (stats_remote w year)
  end.

Definition get_two_year_roster_data (year : Z) (w : World)
  : result (list Roster.row) :=
  roster_data <- get_roster_data year w ;;
  roster_data_prev_year <- get_roster_data (year - 1) w ;;
  Ok (two_year_roster roster_data roster_data_prev_year).

(** [fpa_by_position.to_pickle(cache_path)] in a world that has the
    [cache/] directory: the world with the pickle written. Without the
    directory the write raises OSError, see [get_fpa_by_position]. *)
Definition to_pickle (year : Z) (t : list Fpa.row) (w : World) : World :=
  mkWorld (cache_dir w)
          (fun y => if Z.eqb y year then Some t else fpa_pickle w y)
          (pbp_csv w) (pbp_remote w) (roster_csv w) (roster_remote w)
          (stats_csv w) (stats_remote w).

(** The branch of [get_fpa_by_position] taken when the pickle is absent,
    up to the table. *)
Definition compute_fpa (year : Z) (w : World) : result (list Fpa.row) :=
  data <- get_pbp_data year w ;;
  let players := get_players data in
  player_stats_data <- get_player_stats_data year w ;;
  two_year_roster_data <- get_two_year_roster_data year w ;;
  fpa_table players player_stats_data two_year_roster_data.

(** The call returns its value or raises, and leaves a world behind. The
    pickle is written last: a call that raises, in a fetch, in the
    aggregation or in the write itself, leaves nothing behind. *)
Definition get_fpa_by_position (year : Z) (w : World)
  : result (list Fpa.row) * World :=
  match fpa_pickle w year with
  | Some fpa_by_position => (Ok fpa_by_position, w)
  | None =>
      match compute_fpa year w with
      | Ok fpa_by_position =>
          if cache_dir w
          then (Ok fpa_by_position, to_pickle year fpa_by_position w)
          else (Failed, w)
      | Failed => (Failed, w)
      end
  end.

(* ================================================================= *)
(** ** Chart data: helpers *)

(** Arithmetic of float columns with NaN as [None]. *)
Module Num.

Definition add (a b : option Q) : option Q :=
  match a, b with
  | Some x, Some y => Some (x + y)%Q
  | _, _ => None
  end.

Definition sub (a b : option Q) : option Q :=
  match a, b with
  | Some x, Some y => Some (x - y)%Q
  | _, _ => None
  end.

(** [a / 2]. *)
Definition half (a : option Q) : option Q :=
  match a with
  | Some x => Some (x / 2)%Q
  | None => None
  end.

(** The cells of a column that are not null. *)
Definition present (col : list (option Q)) : list Q :=
  fold_right (fun c acc => match c with Some x => x :: acc | None => acc end)
             [] col.

Definition total (vals : list Q) : Q := fold_left Qplus vals 0%Q.

(** [mean()] of a column, nulls skipped; NaN when nothing is left. *)
Definition mean (col : list (option Q)) : option Q :=
  match present col with
  | [] => None
  | vals => Some (total vals / inject_Z (Z.of_nat (List.length vals)))%Q
  end.

(** Ascending order of a float column, NaN last. *)
Definition leb : option Q -> option Q -> bool := Cell.opt_leb Qle_bool.

End Num.

(** A Python [dict] as the list of its items in insertion order: an
    assignment to a key that is there replaces its value in place, to a
    new key appends an item; a subscript with a key that is absent finds
    nothing (KeyError). *)
Module Dict.

Section Ops.

Variables K V : Type.
Variable K_dec : forall x y : K, {x = y} + {x <> y}.

Fixpoint set (k : K) (v : V) (d : list (K * V)) : list (K * V) :=
  match d with
  | [] => [(k, v)]
  | (k', v') :: t =>
      if K_dec k k' then (k, v) :: t else (k', v') :: set k v t
  end.

Fixpoint get (k : K) (d : list (K * V)) : option V :=
  match d with
  | [] => None
  | (k', v') :: t => if K_dec k k' then Some v' else get k t
  end.

End Ops.

Arguments set {K V} K_dec k v d.
Arguments get {K V} K_dec k d.

End Dict.

(** [Series.unique()]: the distinct cells in order of first appearance, a
    null among them. *)
Fixpoint unique {A} (dec : forall x y : A, {x = y} + {x <> y}) (col : list A)
  : list A :=
  match col with
  | [] => []
  | x :: t => x :: remove dec x (unique dec t)
  end.

(** [DataFrame.sort_values(col)]: ascending by one float column, NaN last.
    Rows of equal value are left in frame order here; pandas' default
    quicksort leaves their order open. *)
Definition sort_values {R} (col : R -> option Q) (rows : list R) : list R :=
  sort_keys (fun x y => Num.leb (col x) (col y)) rows.

(** A loop body that may raise, run over a list in order. *)
Fixpoint mapM {A B} (f : A -> result B) (l : list A) : result (list B) :=
  match l with
  | [] => Ok []
  | x :: t =>
      y <- f x ;;
      ys <- mapM f t ;;
      Ok (y :: ys)
  end.

(** Truth value of a Python list. *)
Definition truthy {A} (l : list A) : bool :=
  match l with [] => false | _ => true end.

(* ================================================================= *)
(** ** Chart data: the final week and the teams *)

(** [int(weeks.max())] on the array of the distinct weeks: numpy's [max]
    raises on an empty array and is NaN when a cell is NaN, and [int] of
    NaN raises. *)
Definition int_max (weeks : list (option Z)) : result Z :=
  match weeks with
  | [] => Failed
  | _ =>
      if forallb Cell.notna weeks
      then match Cell.maxZ weeks with Some m => Ok m | None => Failed end
      else Failed
  end.

(** [get_final_week] after the table is there. *)
Definition final_week_of (fpa_by_position : list Fpa.row) : result Z :=
  let weeks := unique Cell.oZ_dec (map Fpa.week fpa_by_position) in
  int_max weeks.

Definition get_final_week (year : Z) (w : World) : result Z * World :=
  let called := get_fpa_by_position year w in
  (fpa_by_position <- fst called ;; final_week_of fpa_by_position, snd called).

(** [get_teams] after the table is there. *)
Definition teams_of (fpa_by_position : list Fpa.row) : list (option string) :=
  unique Cell.ostring_dec (map Fpa.defteam fpa_by_position).

Definition get_teams (year : Z) (w : World)
  : result (list (option string)) * World :=
  let called := get_fpa_by_position year w in
  (fpa_by_position <- fst called ;; Ok (teams_of fpa_by_position), snd called).

(* ================================================================= *)
(** ** Chart data: [get_fpa_data] *)

(** The frame of [get_fpa_data]: the table's columns and the two opponent
    averages. *)
Module FpaData.
Record row := mk {
  week : option Z;
  defteam : option string;
  posteam : option string;
  position : option string;
  fantasy_points : Q;
  fantasy_points_ppr : Q;
  opp_avg : option Q;
  opp_avg_ppr : option Q
}.
Definition with_opp (r : Fpa.row) (a b : option Q) : row :=
  mk (Fpa.week r) (Fpa.defteam r) (Fpa.posteam r) (Fpa.position r)
     (Fpa.fantasy_points r) (Fpa.fantasy_points_ppr r) a b.
(** The columns of the table in a row. *)
Definition base (r : row) : Fpa.row :=
  Fpa.mk (week r) (defteam r) (posteam r) (position r)
         (fantasy_points r) (fantasy_points_ppr r).
End FpaData.

(** The row filter of [get_fpa_data]:
    [(position == pos) & (bool_inc_final_week | (week != max_week))]. *)
Definition selected (pos : string) (bool_inc_final_week : bool) (max_week : Z)
  (r : Fpa.row) : bool :=
  Cell.eq_str (Fpa.position r) pos
  && (bool_inc_final_week || negb (Cell.eqZ (Fpa.week r) (Some max_week))).

(** [fpa_data.groupby(['posteam']).mean()[[...]].T.to_dict()]: the
    group-by drops the null offense; per offense, the means of the two
    point columns ([opp_avg_build], on one group). *)
Definition opp_avg_build (g : option string * list Fpa.row)
  : option string * (option Q * option Q) :=
  (fst g,
   (Num.mean (map (fun r => Some (Fpa.fantasy_points r)) (snd g)),
    Num.mean (map (fun r => Some (Fpa.fantasy_points_ppr r)) (snd g)))).

Definition opp_avg_d (fpa_data : list Fpa.row)
  : list (option string * (option Q * option Q)) :=
  map opp_avg_build
      (filter (fun g => Cell.notna (fst g))
         (groupby Cell.ostring_dec Cell.ostring_leb Fpa.posteam fpa_data)).

(** The body of the [iterrows] loop: [opp_avg_d[row['posteam']]] raises
    for an offense that is no key. *)
Definition add_opp_avg (d : list (option string * (option Q * option Q)))
  (r : Fpa.row) : result FpaData.row :=
  match Dict.get Cell.ostring_dec (Fpa.posteam r) d with
  | Some avg => Ok (FpaData.with_opp r (fst avg) (snd avg))
  | None => Failed
  end.

(** [get_fpa_data] after the table is there. When no row is selected the
    loop does not run and the frame it returns has no [opp_avg] and
    [opp_avg_ppr] columns: the empty list stands for that frame. *)
Definition fpa_data_of (fpa_by_position : list Fpa.row) (pos : string)
  (include_final_week : list string) : result (list FpaData.row) :=
  let bool_inc_final_week := truthy include_final_week in
  max_week <- final_week_of fpa_by_position ;;
  let fpa_data :=
    filter (selected pos bool_inc_final_week max_week) fpa_by_position in
  let opp_avg_d := opp_avg_d fpa_data in
  mapM (add_opp_avg opp_avg_d) fpa_data.

Definition get_fpa_data (year : Z) (pos : string)
  (include_final_week : list string) (w : World)
  : result (list FpaData.row) * World :=
  let called := get_fpa_by_position year w in
  (fpa_by_position <- fst called ;;
   fpa_data_of fpa_by_position pos include_final_week, snd called).

(* ================================================================= *)
(** ** Chart data: the bar chart *)

Module Bar.
(** [fpa_data.groupby(['defteam']).mean()[[...]].reset_index()]. *)
Record means := mkMeans {
  m_defteam : option string;
  m_fantasy_points : option Q;
  m_fantasy_points_ppr : option Q;
  m_opp_avg : option Q;
  m_opp_avg_ppr : option Q
}.
(** [barchart_data] with its derived columns. *)
Record row := mk {
  defteam : option string;
  fantasy_points : option Q;
  fantasy_points_ppr : option Q;
  opp_avg : option Q;
  opp_avg_ppr : option Q;
  fantasy_points_half_ppr : option Q;
  opp_avg_half_ppr : option Q;
  diff_opp_avg : option Q;
  diff_opp_avg_half_ppr : option Q;
  diff_opp_avg_ppr : option Q;
  difference : option Q;
  league_average : option Q;
  league_average_half_ppr : option Q;
  league_average_ppr : option Q;
  difference_half_ppr : option Q;
  difference_ppr : option Q
}.
End Bar.

Definition bar_means (g : option string * list FpaData.row) : Bar.means :=
  Bar.mkMeans (fst g)
    (Num.mean (map (fun r => Some (FpaData.fantasy_points r)) (snd g)))
    (Num.mean (map (fun r => Some (FpaData.fantasy_points_ppr r)) (snd g)))
    (Num.mean (map FpaData.opp_avg (snd g)))
    (Num.mean (map FpaData.opp_avg_ppr (snd g))).

Definition half_ppr_of (m : Bar.means) : option Q :=
  Num.half (Num.add (Bar.m_fantasy_points m) (Bar.m_fantasy_points_ppr m)).

Definition opp_half_ppr_of (m : Bar.means) : option Q :=
  Num.half (Num.add (Bar.m_opp_avg m) (Bar.m_opp_avg_ppr m)).

(** The derived columns of one row, given the three league averages. *)
Definition bar_row (league_avg league_avg_half league_avg_ppr : option Q)
  (m : Bar.means) : Bar.row :=
  Bar.mk (Bar.m_defteam m)
    (Bar.m_fantasy_points m) (Bar.m_fantasy_points_ppr m)
    (Bar.m_opp_avg m) (Bar.m_opp_avg_ppr m)
    (half_ppr_of m) (opp_half_ppr_of m)
    (Num.sub (Bar.m_fantasy_points m) (Bar.m_opp_avg m))
    (Num.sub (half_ppr_of m) (opp_half_ppr_of m))
    (Num.sub (Bar.m_fantasy_points_ppr m) (Bar.m_opp_avg_ppr m))
    (Num.sub (Bar.m_fantasy_points m) league_avg)
    league_avg league_avg_half league_avg_ppr
    (Num.sub (half_ppr_of m) league_avg_half)
    (Num.sub (Bar.m_fantasy_points_ppr m) league_avg_ppr).

(** The frame before the sort. *)
Definition barchart_unsorted (fpa_data : list FpaData.row) : list Bar.row :=
  let barchart_data :=
    map bar_means
        (filter (fun g => Cell.notna (fst g))
           (groupby Cell.ostring_dec Cell.ostring_leb FpaData.defteam fpa_data)) in
  let league_avg := Num.mean (map Bar.m_fantasy_points barchart_data) in
  let league_avg_half := Num.mean (map half_ppr_of barchart_data) in
  let league_avg_ppr := Num.mean (map Bar.m_fantasy_points_ppr barchart_data) in
  map (bar_row league_avg league_avg_half league_avg_ppr) barchart_data.

(** The column the frame is sorted by; none for a scoring system that is
    not one of the three. *)
Definition sort_column (scoring_system graph_type : string)
  : option (Bar.row -> option Q) :=
  if String.eqb scoring_system "Standard" then
    Some (if String.eqb graph_type "Raw"
          then Bar.fantasy_points else Bar.diff_opp_avg)
  else if String.eqb scoring_system "Half-PPR" then
    Some (if String.eqb graph_type "Raw"
          then Bar.fantasy_points_half_ppr else Bar.diff_opp_avg_half_ppr)
  else if String.eqb scoring_system "PPR" then
    Some (if String.eqb graph_type "Raw"
          then Bar.fantasy_points_ppr else Bar.diff_opp_avg_ppr)
  else None.

(** [get_def_avg_barchart_data] after [get_fpa_data]. The frame without
    rows has no [opp_avg] columns, and selecting them raises. *)
Definition barchart_of (fpa_data : list FpaData.row)
  (scoring_system graph_type : string) : result (list Bar.row) :=
  match fpa_data with
  | [] => Failed
  | _ =>
      let barchart_data := barchart_unsorted fpa_data in
      match sort_column scoring_system graph_type with
      | Some col => Ok (sort_values col barchart_data)
      | None => Ok barchart_data
      end
  end.

Definition get_def_avg_barchart_data (year : Z)
  (pos scoring_system : string) (include_final_week : list string)
  (graph_type : string) (w : World) : result (list Bar.row) * World :=
  let called := get_fpa_data year pos include_final_week w in
  (fpa_data <- fst called ;; barchart_of fpa_data scoring_system graph_type,
   snd called).

(** The body of the loop of [get_rank_dict]:
    [team = df.iloc[i].defteam; d_rank[team] = i]. *)
Definition rank_step (df : list Bar.row)
  (acc : result (list (option string * Z))) (i : nat)
  : result (list (option string * Z)) :=
  d_rank <- acc ;;
  match nth_error df i with
  | Some row => Ok (Dict.set Cell.ostring_dec (Bar.defteam row) (Z.of_nat i) d_rank)
  | None => Failed
  end.

(** [get_rank_dict]. [df_grouped] is bound for the three scoring systems
    only, and only its length is used: the loop runs over the first rows
    of [df] itself. *)
Definition get_rank_dict (df : list Bar.row) (scoring_system : string)
  : result (list (option string * Z)) :=
  if String.eqb scoring_system "Standard"
     || String.eqb scoring_system "Half-PPR"
     || String.eqb scoring_system "PPR"
  then
    let df_grouped :=
      filter (fun g => Cell.notna (fst g))
        (groupby Cell.ostring_dec Cell.ostring_leb Bar.defteam df) in
    fold_left (rank_step df) (seq 0 (List.length df_grouped)) (Ok [])
  else Failed.

(* ================================================================= *)
(** ** Chart data: the line chart *)

Module Weekly.
Record row := mk {
  base : FpaData.row;
  fantasy_points_half_ppr : option Q;
  opp_avg_half_ppr : option Q
}.
End Weekly.

Definition weekly_row (r : FpaData.row) : Weekly.row :=
  Weekly.mk r
    (Num.half (Num.add (Some (FpaData.fantasy_points r))
                       (Some (FpaData.fantasy_points_ppr r))))
    (Num.half (Num.add (FpaData.opp_avg_ppr r) (FpaData.opp_avg r))).

(** [get_weekly_linechart_data] after [get_fpa_data]: on the frame
    without rows, reading [opp_avg_ppr] raises. *)
Definition weekly_of (fpa_data : list FpaData.row) (team : string)
  : result (list Weekly.row) :=
  match fpa_data with
  | [] => Failed
  | _ =>
      Ok (map weekly_row
            (filter (fun r => Cell.eq_str (FpaData.defteam r) team) fpa_data))
  end.

Definition get_weekly_linechart_data (year : Z) (pos scoring_system : string)
  (include_final_week : list string) (graph_type team : string) (w : World)
  : result (list Weekly.row) * World :=
  let called := get_fpa_data year pos include_final_week w in
  (fpa_data <- fst called ;; weekly_of fpa_data team, snd called).

(** The two series of [update_weekly_components]: [y0] and [y1]. *)
Definition weekly_series (scoring_system : string) : string * string :=
  if String.eqb scoring_system "Half-PPR"
  then ("fantasy_points_half_ppr", "opp_avg_half_ppr")
  else if String.eqb scoring_system "PPR"
  then ("fantasy_points_ppr", "opp_avg_ppr")
  else ("fantasy_points", "opp_avg").

(* ================================================================= *)
(** ** Labels *)

Definition get_hover_dict (scoring_system : string) : list (string * bool) :=
  [ ("fantasy_points", String.eqb scoring_system "Standard");
    ("fantasy_points_ppr", String.eqb scoring_system "PPR");
    ("fantasy_points_half_ppr", String.eqb scoring_system "Half-PPR");
    ("league_average", String.eqb scoring_system "Standard");
    ("league_average_ppr", String.eqb scoring_system "PPR");
    ("league_average_half_ppr", String.eqb scoring_system "Half-PPR");
    ("difference", false);
    ("difference_half_ppr", false);
    ("difference_ppr", false) ].

Definition get_names (pos : string) : list (string * string) :=
  [ ("opp_avg", "Opponent " ++ pos ++ " Average Points");
    ("fantasy_points", "Fantasy Points (Std.)");
    ("fantasy_points_half_ppr", "Fantasy Points (Half-PPR)");
    ("fantasy_points_ppr", "Fantasy Points (PPR)");
    ("opp_avg_ppr", "Opponent " ++ pos ++ " Average Points");
    ("opp_avg_half_ppr", "Opponent " ++ pos ++ " Average Points");
    ("difference", "Difference from League Average");
    ("difference_ppr", "Difference from League Average");
    ("difference_half_ppr", "Difference from League Average");
    ("diff_opp_avg", "Difference from Opponent Average");
    ("diff_opp_avg_ppr", "Difference from Opponent Average");
    ("diff_opp_avg_half_ppr", "Difference from Opponent Average");
    (EmptyString, EmptyString) ]%string.

(* ================================================================= *)
(** ** Team logos *)

(** [i.split('.')[0]]: the file name up to its first dot. *)
Fixpoint stem (i : string) : string :=
  match i with
  | EmptyString => EmptyString
  | String c t => if Ascii.eqb c "."%char then EmptyString else String c (stem t)
  end.

(** The body of the loop of [get_logo_dict]:
    [team_name = i.split('.')[0]; logo_dict[team_name] = path]. *)
Definition logo_step (cwd : string) (logo_dict : list (string * string))
  (i : string) : list (string * string) :=
  let team_name := stem i in
  let path := (cwd ++ "/images/team_logos/" ++ i)%string in
  Dict.set string_dec team_name path logo_dict.

(** The loop of [get_logo_dict] over the directory listing. *)
Definition logo_dict_of (cwd : string) (logos : list string)
  : list (string * string) :=
  fold_left (logo_step cwd) logos [].

(** The name under which [get_logo_dict] stores the image of a team. *)
Definition logo_file (team_code : string) : string :=
  (team_code ++ ".png")%string.

(* ================================================================= *)
(** ** Refreshing the pickles *)

Definition refresh_years : list Z :=
  [2021; 2020; 2019; 2018; 2017; 2016; 2015; 2014;
   2013; 2012; 2011; 2010; 2009; 2008; 2007; 2006].

(** The loop of [refresh_pickles]: an exception of a call ends it. *)
Fixpoint refresh_loop (years : list Z) (w : World) : result unit * World :=
  match years with
  | [] => (Ok tt, w)
  | year :: rest =>
      let called := get_fpa_by_position year w in
      match fst called with
      | Ok _ => refresh_loop rest (snd called)
      | Failed => (Failed, snd called)
      end
  end.

Definition refresh_pickles (w : World) : result unit * World :=
  refresh_loop refresh_years w.

(* ================================================================= *)
(** ** Quantities of the chart data *)

(** A frame is in ascending order of a float column, NaN last. *)
Definition sorted_by {R} (col : R -> option Q) (df : list R) : Prop :=
  Sorted (fun a b => Num.leb (col a) (col b) = true) df.

(** The scoring systems of the page. *)
Definition is_scoring_system (s : string) : Prop :=
  s = "Standard" \/ s = "Half-PPR" \/ s = "PPR".

(** The string has no dot. *)
Fixpoint dotless (s : string) : Prop :=
  match s with
  | EmptyString => True
  | String c t => c <> "."%char /\ dotless t
  end.

(** The years of [refresh_pickles]. *)
Definition refreshed (y : Z) : Prop := 2006 <= y <= 2021.

(** The key of an attributed row in the final group-by. *)
Definition tri_fkey (t : Tri.row) : FKey :=
  (Tri.week t, (Tri.defteam t, (Tri.posteam t, Tri.position t))).

(** The positions of the table under which attributed rows are summed. *)
Definition summed_positions : list string := ["QB"; "RB"; "WR"; "TE"].

(** The plays of the input that have a player in a role. *)
Definition role_plays (id : Pbp.row -> option string) (data : list Pbp.row)
  : Z :=
  Z.of_nat (List.length (filter (fun p => Cell.notna (id p)) data)).

(** What [count()] finds in the [play_id] column of a frame of plays. *)
Definition counted (rows : list Pbp.row) : Z :=
  Cell.count (map Pbp.play_id rows).

(* ================================================================= *)
(** ** Quantities the specification speaks of *)

(** The number of play records that have the player of the key [k] in one
    role: the role's id is not null, and the role's name and id and the
    play's week, offense and defense are those of [k]. *)
Definition plays_in_role (name id : Pbp.row -> option string)
  (data : list Pbp.row) (k : PKey) : Z :=
  Z.of_nat (List.length
              (filter (fun p => Cell.notna (id p)
                                && if PKey_dec (role_key name id p) k
                                   then true else false) data)).

(** Rushing plus passing plus receiving plays of a key. *)
Definition total_plays (data : list Pbp.row) (k : PKey) : Z :=
  plays_in_role Pbp.rusher_player_name Pbp.rusher_player_id data k
  + plays_in_role Pbp.passer_player_name Pbp.passer_player_id data k
  + plays_in_role Pbp.receiver_player_name Pbp.receiver_player_id data k.

(** The same, of the play records that have their [play_id]. *)
Definition counted_in_role (name id : Pbp.row -> option string)
  (data : list Pbp.row) (k : PKey) : Z :=
  Z.of_nat (List.length
              (filter (fun p => (Cell.notna (id p)
                                 && if PKey_dec (role_key name id p) k
                                    then true else false)
                                && Cell.notna (Pbp.play_id p)) data)).

Definition counted_plays (data : list Pbp.row) (k : PKey) : Z :=
  counted_in_role Pbp.rusher_player_name Pbp.rusher_player_id data k
  + counted_in_role Pbp.passer_player_name Pbp.passer_player_id data k
  + counted_in_role Pbp.receiver_player_name Pbp.receiver_player_id data k.

(** What a role frame counts for a key: the non-null [play_id] cells of the
    key's group. *)
Definition role_group_count (name id : Pbp.row -> option string)
  (data : list Pbp.row) (k : PKey) : Z :=
  Cell.count (map Pbp.play_id
                (group_rows PKey_dec (role_key name id)
                   (filter (fun p => Bool.eqb (Cell.isna (id p)) false) data) k)).

(** What it is for a play to be kept, in one role, by the participation
    tables: the role's frame and the merged frame each have the row of the
    play's key, whatever its offense and defense cells hold, and when the
    play has its [play_id] the row counts it. *)
Definition kept_in_role (name id : Pbp.row -> option string)
  (frame : list Players.row) (data : list Pbp.row) (p : Pbp.row) : Prop :=
  (exists r, In r frame
             /\ Players.key r = role_key name id p
             /\ (Pbp.play_id p <> None -> 1 <= Players.plays r))
  /\ (exists r, In r (get_players data)
                /\ Players.key r = role_key name id p
                /\ (Pbp.play_id p <> None -> 1 <= Players.plays r)).

(** [m] is the maximum season present for the player id [g] among the
    roster entries [df]. *)
Definition is_max_season (df : list Roster.row) (g : string) (m : Z) : Prop :=
  (exists r, In r df /\ Roster.gsis_id r = Some g /\ Roster.season r = Some m)
  /\ (forall r s, In r df -> Roster.gsis_id r = Some g ->
                  Roster.season r = Some s -> s <= m).

(** The entry [r] is of the maximum season present for its player id. *)
Definition of_most_recent_season (df : list Roster.row) (r : Roster.row) : Prop :=
  exists g m, Roster.gsis_id r = Some g /\ Roster.season r = Some m
              /\ is_max_season df g m.

(** The standard fantasy points of the attributed rows of one week,
    offense and defense whose position is none of QB, RB, FB, TE, WR (a
    null position included), summed. *)
Definition unconventional_points (tri_data : list Tri.row) (k : WKey) : Q :=
  Cell.sumQ
    (map Tri.fantasy_points
       (filter (fun t => negb (Cell.isin (Tri.position t) skill_positions)
                         && if WKey_dec (tri_wkey t) k then true else false)
               tri_data)).

(** The same sum as the code computes it: in binary64, by the kernel of
    the group-by, over the rows in frame order. *)
Definition unconventional_sum (tri_data : list Tri.row) (k : WKey) : float :=
  Cell.sum_float64
    (map Tri.fantasy_points
       (filter (fun t => negb (Cell.isin (Tri.position t) skill_positions)
                         && if WKey_dec (tri_wkey t) k then true else false)
               tri_data)).


(** No roster entry carries the label that the pipeline reserves for its
    synthetic rows. *)
Definition label_reserved (roster : list Roster.row) : Prop :=
  forall r, In r roster -> Roster.position r <> Some "non_skill".

(** The attributed rows that are not of a fullback. *)
Definition without_fullbacks (tri_data : list Tri.row) : list Tri.row :=
  filter (fun t => negb (Cell.eq_str (Tri.position t) "FB")) tri_data.

(** The same of the attributed rows. *)
Definition no_non_skill_label (tri_data : list Tri.row) : Prop :=
  forall t, In t tri_data -> Tri.position t <> Some "non_skill".

(* ================================================================= *)
(** ** Sample inputs *)

Module Sample.

Definition rush (pid wk : Z) (name id : string) (off def : option string)
  : Pbp.row :=
  Pbp.mk (Some pid) (Some wk) off def (Some "run") (Some 0) (Some "REG")
         (Some 0%Q) (Some id) (Some name) None None None None.

Definition pass (pid wk : Z) (qb qb_id rec rec_id : string)
  (off def : option string) : Pbp.row :=
  Pbp.mk (Some pid) (Some wk) off def (Some "pass") (Some 0) (Some "REG")
         (Some 0%Q) None None (Some qb_id) (Some qb) (Some rec_id) (Some rec).

(** Week 1, NE against MIA: player A (id 00-1) runs five times and catches
    three passes of Q (id 00-9). *)
Definition five_and_three : list Pbp.row :=
  [ rush 1 1 "A" "00-1" (Some "NE") (Some "MIA");
    rush 2 1 "A" "00-1" (Some "NE") (Some "MIA");
    pass 3 1 "Q" "00-9" "A" "00-1" (Some "NE") (Some "MIA");
    rush 4 1 "A" "00-1" (Some "NE") (Some "MIA");
    pass 5 1 "Q" "00-9" "A" "00-1" (Some "NE") (Some "MIA");
    rush 6 1 "A" "00-1" (Some "NE") (Some "MIA");
    pass 7 1 "Q" "00-9" "A" "00-1" (Some "NE") (Some "MIA");
    rush 8 1 "A" "00-1" (Some "NE") (Some "MIA") ].

(** A run whose defense team is null. *)
Definition null_defense_run : Pbp.row :=
  rush 11 2 "B" "00-2" (Some "DAL") None.

Definition with_null_defense : list Pbp.row :=
  [ rush 10 2 "B" "00-2" (Some "DAL") (Some "PHI"); null_defense_run ].

Definition roster_2021 : list Roster.row :=
  [ Roster.mk (Some "00-1") (Some 2021) (Some "RB");
    Roster.mk (Some "00-2") (Some 2021) (Some "FB");
    Roster.mk (Some "00-3") (Some 2021) (Some "K") ].

Definition roster_2020 : list Roster.row :=
  [ Roster.mk (Some "00-1") (Some 2020) (Some "WR");
    Roster.mk (Some "00-5") (Some 2020) (Some "TE") ].

(** A world with an empty [cache/], whose archives hold the rosters
    of 2021 and 2020 and nothing else. *)
Definition rosters_only : World :=
  mkWorld true (fun _ => None) (fun _ => None) (fun _ => None) (fun _ => None)
          (fun y => if Z.eqb y 2021 then Some roster_2021
                    else if Z.eqb y 2020 then Some roster_2020 else None)
          (fun _ => None) (fun _ => None).

(** Season 2021. Week 1, NE against MIA: A (RB) and F (FB) run, U, who is
    on no roster, runs, X, who has no statistics, runs. Week 3, DAL against
    PHI: the kicker K carries the ball. One special-teams play that the
    fetch filters out. *)
Definition pbp_2021 : list Pbp.row :=
  [ rush 1 1 "A" "00-1" (Some "NE") (Some "MIA");
    rush 2 1 "F" "00-2" (Some "NE") (Some "MIA");
    rush 3 3 "K" "00-3" (Some "DAL") (Some "PHI");
    rush 4 1 "U" "00-7" (Some "NE") (Some "MIA");
    rush 5 1 "X" "00-8" (Some "NE") (Some "MIA");
    Pbp.mk (Some 6) (Some 1) (Some "NE") (Some "MIA") (Some "run") (Some 1)
           (Some "REG") (Some 0%Q) (Some "00-1") (Some "A")
           None None None None ].

Definition stats_2021 : list Stats.row :=
  [ Stats.mk (Some "00-1") (Some 1) (Some 8%Q) (Some 9%Q);
    Stats.mk (Some "00-2") (Some 1) (Some 3%Q) (Some 4%Q);
    Stats.mk (Some "00-3") (Some 3) (Some 9%Q) (Some 9%Q);
    Stats.mk (Some "00-7") (Some 1) (Some 2%Q) (Some 2%Q) ].

(** Nothing in [cache/]; the archives answer for 2021 (and for the roster
    of 2020). *)
Definition season_2021 : World :=
  mkWorld true (fun _ => None) (fun _ => None)
          (fun y => if Z.eqb y 2021 then Some pbp_2021 else None)
          (fun _ => None)
          (fun y => if Z.eqb y 2021 then Some roster_2021
                    else if Z.eqb y 2020 then Some roster_2020 else None)
          (fun _ => None)
          (fun y => if Z.eqb y 2021 then Some stats_2021 else None).

(** The table of that season, as the code computes it. *)
Definition table_2021 : list Fpa.row :=
  [ Fpa.mk (Some 1) (Some "MIA") (Some "NE") (Some "RB") 8 9;
    Fpa.mk (Some 3) (Some "PHI") (Some "DAL") (Some "non_skill") 9 0 ].

(** The roster lookup of that season: the entries of 2021 and, of the
    roster of 2020, the one of the player who is not on the roster of
    2021. *)
Definition lookup_2021 : list Roster.row :=
  [ Roster.mk (Some "00-1") (Some 2021) (Some "RB");
    Roster.mk (Some "00-2") (Some 2021) (Some "FB");
    Roster.mk (Some "00-3") (Some 2021) (Some "K");
    Roster.mk (Some "00-5") (Some 2020) (Some "TE") ].

(** What the fetch keeps of [pbp_2021]. *)
Definition kept_pbp_2021 : list Pbp.row :=
  [ rush 1 1 "A" "00-1" (Some "NE") (Some "MIA");
    rush 2 1 "F" "00-2" (Some "NE") (Some "MIA");
    rush 3 3 "K" "00-3" (Some "DAL") (Some "PHI");
    rush 4 1 "U" "00-7" (Some "NE") (Some "MIA");
    rush 5 1 "X" "00-8" (Some "NE") (Some "MIA") ].

(** A season with one play: the fullback F runs in week 1, NE against
    MIA, and scores 3 standard and 4 PPR points. *)
Definition fullback_only : World :=
  mkWorld true (fun _ => None) (fun _ => None)
          (fun y => if Z.eqb y 2021
                    then Some [rush 2 1 "F" "00-2" (Some "NE") (Some "MIA")]
                    else None)
          (fun _ => None)
          (fun y => if Z.eqb y 2021
                    then Some [Roster.mk (Some "00-2") (Some 2021) (Some "FB")]
                    else if Z.eqb y 2020 then Some [] else None)
          (fun _ => None)
          (fun y => if Z.eqb y 2021
                    then Some [Stats.mk (Some "00-2") (Some 1) (Some 3%Q) (Some 4%Q)]
                    else None).

(** Its one attributed row. *)
Definition fullback_row : Tri.row :=
  Tri.mk (Some "F") (Some "00-2") (Some 1) (Some "NE") (Some "MIA") 1
         (Some 3%Q) (Some 4%Q) (Some "00-2") (Some 2021) (Some "FB").

(** The same season read from the csv files of [cache/], with every
    archive out of reach. *)
Definition season_2021_offline : World :=
  mkWorld true (fun _ => None)
          (fun y => if Z.eqb y 2021 then Some kept_pbp_2021 else None)
          (fun _ => None)
          (fun y => if Z.eqb y 2021 then Some roster_2021
                    else if Z.eqb y 2020 then Some roster_2020 else None)
          (fun _ => None)
          (fun y => if Z.eqb y 2021 then Some stats_2021 else None)
          (fun _ => None).

(** A pickle for 2021 in [cache/] and nothing else anywhere. *)
Definition pickled_2021 : World :=
  mkWorld true (fun y => if Z.eqb y 2021 then Some table_2021 else None)
          (fun _ => None) (fun _ => None) (fun _ => None) (fun _ => None)
          (fun _ => None) (fun _ => None).

(** [season_2021] with the statistics archive failing. *)
Definition season_2021_no_stats : World :=
  mkWorld true (fun _ => None) (fun _ => None)
          (fun y => if Z.eqb y 2021 then Some pbp_2021 else None)
          (fun _ => None)
          (fun y => if Z.eqb y 2021 then Some roster_2021
                    else if Z.eqb y 2020 then Some roster_2020 else None)
          (fun _ => None)
          (fun _ => None).

(** The participation row of X, for whom the season has no statistic, and
    the joined row of U, who is on no roster. *)
Definition x_row : Players.row :=
  Players.mk (Some "X") (Some "00-8") (Some 1) (Some "NE") (Some "MIA") 1.

Definition u_joined : Joined.row :=
  Joined.mk (Some "U") (Some "00-7") (Some 1) (Some "NE") (Some "MIA") 1
            (Some 2%Q) (Some 2%Q).

(** A table of three weeks: the defenses MIA, NE and BUF against wide
    receivers, and one row of tight ends in the final week. *)
Definition chart_table : list Fpa.row :=
  [ Fpa.mk (Some 1) (Some "MIA") (Some "NE") (Some "WR") 10 14;
    Fpa.mk (Some 1) (Some "NE") (Some "MIA") (Some "WR") 16 22;
    Fpa.mk (Some 2) (Some "BUF") (Some "MIA") (Some "WR") 12 18;
    Fpa.mk (Some 2) (Some "MIA") (Some "BUF") (Some "WR") 30 40;
    Fpa.mk (Some 3) (Some "MIA") (Some "NE") (Some "WR") 6 8;
    Fpa.mk (Some 3) (Some "NE") (Some "MIA") (Some "TE") 4 5 ].

(** [cache/] holds that table as the pickle of 2021. *)
Definition chart_world : World :=
  mkWorld true (fun y => if Z.eqb y 2021 then Some chart_table else None)
          (fun _ => None) (fun _ => None) (fun _ => None) (fun _ => None)
          (fun _ => None) (fun _ => None).

(** The frame of [get_fpa_data] for the wide receivers, final week left
    out, and the bar chart frame of it, raw and standard. *)
Definition wr_data : list FpaData.row :=
  Eval vm_compute in
    match fpa_data_of chart_table "WR" [] with
    | Ok fpa_data => fpa_data
    | Failed => []
    end.

Definition wr_bars : list Bar.row :=
  Eval vm_compute in
    match barchart_of wr_data "Standard" "Raw" with
    | Ok df => df
    | Failed => []
    end.

(** [season_2021] with a statistics archive that has no row. *)
Definition season_2021_empty_stats : World :=
  mkWorld true (fun _ => None) (fun _ => None)
          (fun y => if Z.eqb y 2021 then Some pbp_2021 else None)
          (fun _ => None)
          (fun y => if Z.eqb y 2021 then Some roster_2021
                    else if Z.eqb y 2020 then Some roster_2020 else None)
          (fun _ => None)
          (fun y => if Z.eqb y 2021 then Some [] else None).

(** [chart_table] and a wide-receiver row without offense. *)
Definition chart_table_null_offense : list Fpa.row :=
  chart_table ++ [Fpa.mk (Some 2) (Some "NE") None (Some "WR") 7 9].

(** Every archive answers every season with a file without rows. *)
Definition empty_archives : World :=
  mkWorld true (fun _ => None) (fun _ => None) (fun _ => Some [])
          (fun _ => None) (fun _ => Some [])
          (fun _ => None) (fun _ => Some []).

(** [season_2021] on a machine that has no [cache/] directory. *)
Definition season_2021_no_cache_dir : World :=
  mkWorld false (fun _ => None) (fun _ => None)
          (fun y => if Z.eqb y 2021 then Some pbp_2021 else None)
          (fun _ => None)
          (fun y => if Z.eqb y 2021 then Some roster_2021
                    else if Z.eqb y 2020 then Some roster_2020 else None)
          (fun _ => None)
          (fun y => if Z.eqb y 2021 then Some stats_2021 else None).

(** A season with one play: L runs in week 2, BUF against NYJ, and scores
    3 standard and 10 PPR points; the roster file gives L the position
    [non_skill]. *)
Definition roster_labelled : list Roster.row :=
  [ Roster.mk (Some "00-4") (Some 2021) (Some "non_skill") ].

Definition labelled_season : World :=
  mkWorld true (fun _ => None) (fun _ => None)
          (fun y => if Z.eqb y 2021
                    then Some [rush 1 2 "L" "00-4" (Some "BUF") (Some "NYJ")]
                    else None)
          (fun _ => None)
          (fun y => if Z.eqb y 2021 then Some roster_labelled
                    else if Z.eqb y 2020 then Some [] else None)
          (fun _ => None)
          (fun y => if Z.eqb y 2021
                    then Some [Stats.mk (Some "00-4") (Some 2) (Some 3%Q) (Some 10%Q)]
                    else None).

(** Its one attributed row and its table. *)
Definition labelled_row : Tri.row :=
  Tri.mk (Some "L") (Some "00-4") (Some 2) (Some "BUF") (Some "NYJ") 1
         (Some 3%Q) (Some 10%Q) (Some "00-4") (Some 2021) (Some "non_skill").

Definition labelled_table : list Fpa.row :=
  [ Fpa.mk (Some 2) (Some "NYJ") (Some "BUF") (Some "non_skill") 3 10 ].

(** A run of A whose [play_id] cell is null. *)
Definition run_without_play_id : Pbp.row :=
  Pbp.mk None (Some 1) (Some "NE") (Some "MIA") (Some "run") (Some 0)
         (Some "REG") (Some 0%Q) (Some "00-1") (Some "A") None None None None.




(** Every archive answers every season: the plays and statistics of
    [pbp_2021] and [stats_2021], and a roster of the season asked for that
    lists A as a running back. [cache/] is empty. *)
Definition every_season : World :=
  mkWorld true (fun _ => None) (fun _ => None)
          (fun _ => Some pbp_2021)
          (fun _ => None)
          (fun y => Some [Roster.mk (Some "00-1") (Some y) (Some "RB")])
          (fun _ => None)
          (fun _ => Some stats_2021).

End Sample.

(* ================================================================= *)
(** * Properties *)

(** ** Columns *)

Lemma sumZ_from (l : list Z) (a : Z) : fold_left Z.add l a = a + Cell.sumZ l.
Proof.
  unfold Cell.sumZ. revert a.
  induction l as [|x l IH]; intros a; simpl; [lia|].
  rewrite (IH (a + x)), (IH x). lia.
Qed.

Lemma sumZ_app (l1 l2 : list Z) :
  Cell.sumZ (l1 ++ l2) = Cell.sumZ l1 + Cell.sumZ l2.
Proof.
  unfold Cell.sumZ at 1. rewrite fold_left_app. apply sumZ_from.
Qed.

Lemma sumZ_single (x : Z) : Cell.sumZ [x] = x.
Proof. reflexivity. Qed.

Lemma sumQ_all_null (col : list (option Q)) :
  Forall (fun c => c = None) col -> Cell.sumQ col = 0%Q.
Proof.
  unfold Cell.sumQ. generalize 0%Q.
  induction col as [|c col IH]; intros q H; simpl; [reflexivity|].
  inversion H; subst. apply IH. assumption.
Qed.

Lemma select_map {A} (f : A -> bool) (rows : list A) :
  Cell.select rows (map f rows) = filter f rows.
Proof.
  unfold Cell.select.
  induction rows as [|r rows IH]; simpl; [reflexivity|].
  destruct (f r); simpl; rewrite IH; reflexivity.
Qed.

Lemma isin_spec (c : option string) (values : list string) :
  Cell.isin c values = true <-> exists s, c = Some s /\ In s values.
Proof.
  destruct c as [s|]; simpl.
  - rewrite existsb_exists. split.
    + intros [x [Hin Heq]]. apply String.eqb_eq in Heq. subst. eauto.
    + intros [x [Heq Hin]]. inversion Heq; subst.
      exists x. split; [assumption | apply String.eqb_refl].
  - split; [discriminate | intros [s [H _]]; discriminate].
Qed.

(** ** Group-by *)

(** The order of the keys is total, so that sorting is meaningful. *)
Lemma opt_leb_total {A} (leb : A -> A -> bool) :
  (forall a b, leb a b = true \/ leb b a = true) ->
  forall x y, Cell.opt_leb leb x y = true \/ Cell.opt_leb leb y x = true.
Proof. intros H [a|] [b|]; simpl; auto. Qed.

Lemma lex_leb_total {A B} (decA : forall x y : A, {x = y} + {x <> y})
  (lebA : A -> A -> bool) (lebB : B -> B -> bool) :
  (forall a b, lebA a b = true \/ lebA b a = true) ->
  (forall a b, lebB a b = true \/ lebB b a = true) ->
  forall x y, Cell.lex_leb decA lebA lebB x y = true
              \/ Cell.lex_leb decA lebA lebB y x = true.
Proof.
  intros HA HB [a1 b1] [a2 b2]. unfold Cell.lex_leb. simpl.
  destruct (decA a1 a2) as [e|n], (decA a2 a1) as [e'|n']; auto; congruence.
Qed.

Lemma Z_leb_total (a b : Z) : Z.leb a b = true \/ Z.leb b a = true.
Proof. rewrite !Z.leb_le. lia. Qed.

Lemma ostring_leb_total (x y : option string) :
  Cell.ostring_leb x y = true \/ Cell.ostring_leb y x = true.
Proof. apply opt_leb_total. exact String.leb_total. Qed.

Lemma oZ_leb_total (x y : option Z) :
  Cell.oZ_leb x y = true \/ Cell.oZ_leb y x = true.
Proof. apply opt_leb_total. exact Z_leb_total. Qed.

Lemma PKey_leb_total (x y : PKey) : PKey_leb x y = true \/ PKey_leb y x = true.
Proof.
  unfold PKey_leb.
  repeat (apply lex_leb_total; try exact ostring_leb_total;
          try exact oZ_leb_total).
Qed.

Lemma WKey_leb_total (x y : WKey) : WKey_leb x y = true \/ WKey_leb y x = true.
Proof.
  unfold WKey_leb.
  repeat (apply lex_leb_total; try exact ostring_leb_total;
          try exact oZ_leb_total).
Qed.

Lemma FKey_leb_total (x y : FKey) : FKey_leb x y = true \/ FKey_leb y x = true.
Proof.
  unfold FKey_leb.
  repeat (apply lex_leb_total; try exact ostring_leb_total;
          try exact oZ_leb_total).
Qed.

Section Sorting.

Variable K : Type.
Variable leb : K -> K -> bool.
Hypothesis leb_total : forall a b, leb a b = true \/ leb b a = true.

Let le (a b : K) : Prop := leb a b = true.

Lemma insert_sorted_hd (k a : K) (l : list K) :
  le a k -> HdRel le a l -> HdRel le a (insert_sorted leb k l).
Proof.
  intros Hak Hl. destruct l as [|b t]; simpl.
  - constructor. exact Hak.
  - destruct (leb k b); constructor; [exact Hak|].
    inversion Hl; assumption.
Qed.

Lemma insert_sorted_Sorted (k : K) (l : list K) :
  Sorted le l -> Sorted le (insert_sorted leb k l).
Proof.
  induction l as [|a t IH]; intros Hs; simpl.
  - repeat constructor.
  - destruct (leb k a) eqn:E.
    + constructor; [exact Hs|]. constructor. exact E.
    + inversion Hs as [|? ? Ht Hhd]; subst.
      constructor; [apply IH; exact Ht|].
      apply insert_sorted_hd; [|exact Hhd].
      destruct (leb_total a k) as [H|H]; [exact H | unfold le; congruence].
Qed.

(** The keys of a group-by come out in ascending order. *)
Lemma sort_keys_Sorted (l : list K) : Sorted le (sort_keys leb l).
Proof.
  induction l as [|k l IH]; simpl; [constructor|].
  apply insert_sorted_Sorted. exact IH.
Qed.

End Sorting.

Section GroupRowsFacts.

Variables R K : Type.
Variable K_dec : forall x y : K, {x = y} + {x <> y}.
Variable key : R -> K.

Lemma In_group_rows (rows : list R) (k : K) (r : R) :
  In r (group_rows K_dec key rows k) <-> In r rows /\ key r = k.
Proof.
  unfold group_rows. rewrite filter_In.
  destruct (K_dec (key r) k); intuition congruence.
Qed.

Lemma group_rows_app (l1 l2 : list R) (k : K) :
  group_rows K_dec key (l1 ++ l2) k
  = group_rows K_dec key l1 k ++ group_rows K_dec key l2 k.
Proof. apply filter_app. Qed.

Lemma group_rows_absent (rows : list R) (k : K) :
  ~ In k (map key rows) -> group_rows K_dec key rows k = [].
Proof.
  intros H. unfold group_rows.
  induction rows as [|r rows IH]; simpl; [reflexivity|].
  destruct (K_dec (key r) k) as [e|n].
  - exfalso. apply H. left. exact e.
  - apply IH. intros Hin. apply H. right. exact Hin.
Qed.

Lemma group_rows_unique (rows : list R) (r : R) :
  NoDup (map key rows) -> In r rows ->
  group_rows K_dec key rows (key r) = [r].
Proof.
  intros Hnd Hin. unfold group_rows.
  induction rows as [|x rows IH]; simpl in *; [contradiction|].
  inversion Hnd as [|? ? Hx Hnd']; subst.
  destruct Hin as [-> | Hin].
  - destruct (K_dec (key r) (key r)) as [_|n]; [|congruence].
    f_equal. apply group_rows_absent. exact Hx.
  - destruct (K_dec (key x) (key r)) as [e|n].
    + exfalso. apply Hx. rewrite e. apply in_map. exact Hin.
    + apply IH; assumption.
Qed.

End GroupRowsFacts.

Section GroupByFacts.

Variables R K : Type.
Variable K_dec : forall x y : K, {x = y} + {x <> y}.
Variable leb : K -> K -> bool.
Variable key : R -> K.

Lemma insert_sorted_perm (k : K) (l : list K) :
  Permutation (k :: l) (insert_sorted leb k l).
Proof.
  induction l as [|k' t IH]; simpl; [apply Permutation_refl|].
  destruct (leb k k'); [apply Permutation_refl|].
  eapply perm_trans; [apply perm_swap|]. apply perm_skip, IH.
Qed.

Lemma sort_keys_perm (l : list K) : Permutation l (sort_keys leb l).
Proof.
  induction l as [|k l IH]; simpl; [constructor|].
  eapply perm_trans; [apply perm_skip, IH | apply insert_sorted_perm].
Qed.

Lemma In_group_keys (rows : list R) (k : K) :
  In k (group_keys K_dec leb key rows) <-> In k (map key rows).
Proof.
  unfold group_keys. split; intros H.
  - apply (nodup_In K_dec).
    eapply Permutation_in; [apply Permutation_sym, sort_keys_perm | exact H].
  - eapply Permutation_in; [apply sort_keys_perm|].
    apply nodup_In. exact H.
Qed.

Lemma NoDup_group_keys (rows : list R) :
  NoDup (group_keys K_dec leb key rows).
Proof.
  unfold group_keys.
  eapply Permutation_NoDup; [apply sort_keys_perm | apply NoDup_nodup].
Qed.

Lemma groupby_keys (rows : list R) :
  map fst (groupby K_dec leb key rows) = group_keys K_dec leb key rows.
Proof.
  unfold groupby. rewrite map_map. simpl. apply map_id.
Qed.

Lemma In_groupby (rows : list R) (g : K * list R) :
  In g (groupby K_dec leb key rows) <->
  In (fst g) (map key rows) /\ snd g = group_rows K_dec key rows (fst g).
Proof.
  unfold groupby. rewrite in_map_iff. split.
  - intros [k [Hg Hk]]. subst g. simpl.
    split; [apply In_group_keys in Hk; exact Hk | reflexivity].
  - intros [Hk Hs]. exists (fst g). split.
    + destruct g as [k rs]. simpl in *. subst rs. reflexivity.
    + apply In_group_keys. exact Hk.
Qed.

End GroupByFacts.

(** A frame built by aggregating each group of a group-by and resetting
    the index: one row per key, which holds the aggregate of its group. *)
Section Aggregated.

Variables R K O : Type.
Variable K_dec : forall x y : K, {x = y} + {x <> y}.
Variable leb : K -> K -> bool.
Variable key : R -> K.
Variable build : K * list R -> O.
Variable okey : O -> K.
Hypothesis okey_build : forall g, okey (build g) = fst g.

Lemma aggregated_keys (rows : list R) :
  map okey (map build (groupby K_dec leb key rows))
  = group_keys K_dec leb key rows.
Proof.
  rewrite map_map. rewrite <- groupby_keys.
  apply map_ext. intros g. apply okey_build.
Qed.

Lemma aggregated_NoDup (rows : list R) :
  NoDup (map okey (map build (groupby K_dec leb key rows))).
Proof. rewrite aggregated_keys. apply NoDup_group_keys. Qed.

Lemma In_aggregated (rows : list R) (o : O) :
  In o (map build (groupby K_dec leb key rows)) <->
  In (okey o) (map key rows)
  /\ o = build (okey o, group_rows K_dec key rows (okey o)).
Proof.
  rewrite in_map_iff. split.
  - intros [g [Ho Hg]]. apply In_groupby in Hg. destruct Hg as [Hk Hs].
    subst o. rewrite okey_build. split; [exact Hk|].
    destruct g as [k rs]. simpl in *. subst rs. reflexivity.
  - intros [Hk Ho].
    exists (okey o, group_rows K_dec key rows (okey o)).
    split; [symmetry; exact Ho|]. apply In_groupby. simpl. tauto.
Qed.

(** The rows of the aggregated frame under a key: the one row of the key,
    or none. *)
Lemma aggregated_group (rows : list R) (k : K) :
  group_rows K_dec okey (map build (groupby K_dec leb key rows)) k
  = if in_dec K_dec k (map key rows)
    then [build (k, group_rows K_dec key rows k)]
    else [].
Proof.
  destruct (in_dec K_dec k (map key rows)) as [Hin|Hout].
  - assert (Ho : In (build (k, group_rows K_dec key rows k))
                    (map build (groupby K_dec leb key rows))).
    { apply In_aggregated. rewrite okey_build. simpl. tauto. }
    pose proof (group_rows_unique O K K_dec okey _ _ (aggregated_NoDup rows) Ho) as H.
    rewrite okey_build in H. exact H.
  - apply group_rows_absent. rewrite aggregated_keys.
    rewrite In_group_keys. exact Hout.
Qed.

End Aggregated.

(** ** Participation extractor *)

Lemma role_key_build (g : PKey * list Pbp.row) :
  Players.key (role_build g) = fst g.
Proof. destruct g as [[a [b [c [d e]]]] rs]. reflexivity. Qed.

Lemma count_nonneg {A} (col : list (option A)) : 0 <= Cell.count col.
Proof. unfold Cell.count. lia. Qed.

Lemma count_In {A} (col : list (option A)) (c : option A) :
  In c col -> c <> None -> 1 <= Cell.count col.
Proof.
  intros Hin Hc. unfold Cell.count.
  assert (H : In c (filter Cell.notna col)).
  { apply filter_In. split; [exact Hin|]. destruct c; [reflexivity | congruence]. }
  destruct (filter Cell.notna col); [contradiction | simpl; lia].
Qed.

Lemma count_no_null {A} (col : list (option A)) :
  Forall (fun c => c <> None) col -> Cell.count col = Z.of_nat (List.length col).
Proof.
  intros H. unfold Cell.count. f_equal. f_equal.
  induction H as [|c col Hc _ IH]; simpl; [reflexivity|].
  destruct c; [simpl; f_equal; exact IH | congruence].
Qed.

Lemma count_map {A B} (f : A -> option B) (l : list A) :
  Cell.count (map f l)
  = Z.of_nat (List.length (filter (fun x => Cell.notna (f x)) l)).
Proof.
  unfold Cell.count. f_equal.
  induction l as [|x l IH]; simpl; [reflexivity|].
  destruct (Cell.notna (f x)); simpl; rewrite IH; reflexivity.
Qed.

Lemma filter_filter_andb {A} (f g : A -> bool) (l : list A) :
  filter g (filter f l) = filter (fun x => f x && g x) l.
Proof.
  induction l as [|x l IH]; simpl; [reflexivity|].
  destruct (f x); simpl; [destruct (g x)|]; rewrite IH; reflexivity.
Qed.

Lemma isna_false_notna {A} (c : option A) :
  Bool.eqb (Cell.isna c) false = Cell.notna c.
Proof. destruct c; reflexivity. Qed.

Lemma notna_true {A} (c : option A) : Cell.notna c = true <-> c <> None.
Proof. destruct c; simpl; split; congruence. Qed.

Section Role.

Variables name id : Pbp.row -> option string.

Lemma role_counts_keys (df : list Pbp.row) (k : PKey) :
  In k (map Players.key (role_counts name id df)) <->
  exists p, In p df /\ id p <> None /\ role_key name id p = k.
Proof.
  unfold role_counts.
  rewrite aggregated_keys by apply role_key_build.
  rewrite In_group_keys, in_map_iff. split.
  - intros [p [Hk Hp]]. apply filter_In in Hp. destruct Hp as [Hin Hsel].
    exists p. split; [exact Hin|]. split; [|exact Hk].
    cbv beta in Hsel. rewrite isna_false_notna in Hsel.
    apply notna_true. exact Hsel.
  - intros [p [Hin [Hid Hk]]]. exists p. split; [exact Hk|].
    apply filter_In. split; [exact Hin|].
    rewrite isna_false_notna. apply notna_true. exact Hid.
Qed.

(** The plays a role frame holds for a key, summed: the count of the key's
    group, 0 when the frame has no row of that key. *)
Lemma role_counts_group (df : list Pbp.row) (k : PKey) :
  Cell.sumZ (map Players.plays
               (group_rows PKey_dec Players.key (role_counts name id df) k))
  = role_group_count name id df k.
Proof.
  unfold role_counts, role_group_count.
  rewrite aggregated_group by apply role_key_build.
  destruct (in_dec PKey_dec k _) as [Hin|Hout].
  - reflexivity.
  - rewrite group_rows_absent by exact Hout. reflexivity.
Qed.

Lemma role_group_count_nonneg (df : list Pbp.row) (k : PKey) :
  0 <= role_group_count name id df k.
Proof. apply count_nonneg. Qed.

Lemma role_group_count_In (df : list Pbp.row) (p : Pbp.row) :
  In p df -> id p <> None -> Pbp.play_id p <> None ->
  1 <= role_group_count name id df (role_key name id p).
Proof.
  intros Hin Hid Hpid. unfold role_group_count.
  apply count_In with (c := Pbp.play_id p); [|exact Hpid].
  apply in_map. apply <- In_group_rows. split; [|reflexivity].
  apply filter_In. split; [exact Hin|].
  rewrite isna_false_notna. apply notna_true. exact Hid.
Qed.

(** When every play has its [play_id], the count of a group is the number
    of its plays. *)
Lemma role_group_count_plays (df : list Pbp.row) (k : PKey) :
  Forall (fun p => Pbp.play_id p <> None) df ->
  role_group_count name id df k = plays_in_role name id df k.
Proof.
  intros Hall. unfold role_group_count, plays_in_role.
  rewrite count_no_null.
  - rewrite length_map. unfold group_rows. rewrite filter_filter_andb.
    f_equal. f_equal. apply filter_ext. intros p.
    rewrite isna_false_notna. reflexivity.
  - apply Forall_forall. intros c Hc. apply in_map_iff in Hc.
    destruct Hc as [p [<- Hp]]. apply In_group_rows in Hp.
    destruct Hp as [Hp _]. apply filter_In in Hp. destruct Hp as [Hp _].
    rewrite Forall_forall in Hall. apply Hall. exact Hp.
Qed.

(** Whatever the [play_id] cells hold, the count of a group is the number
    of its plays that have their [play_id]. *)
Lemma role_group_count_counted (df : list Pbp.row) (k : PKey) :
  role_group_count name id df k = counted_in_role name id df k.
Proof.
  unfold role_group_count, counted_in_role.
  rewrite count_map. unfold group_rows. rewrite !filter_filter_andb.
  f_equal. f_equal. apply filter_ext. intros p.
  rewrite isna_false_notna, andb_assoc. reflexivity.
Qed.

Lemma plays_in_role_pos (df : list Pbp.row) (k : PKey) :
  0 < plays_in_role name id df k <->
  exists p, In p df /\ id p <> None /\ role_key name id p = k.
Proof.
  unfold plays_in_role. split.
  - intros H.
    destruct (filter _ df) as [|p l] eqn:E; [simpl in H; lia|].
    assert (Hp : In p (p :: l)) by (left; reflexivity).
    rewrite <- E in Hp. apply filter_In in Hp. destruct Hp as [Hin Hc].
    apply andb_true_iff in Hc. destruct Hc as [Hn Hk].
    exists p. split; [exact Hin|]. split.
    + apply notna_true. exact Hn.
    + destruct (PKey_dec (role_key name id p) k); [assumption | discriminate].
  - intros [p [Hin [Hid Hk]]].
    assert (Hp : In p (filter (fun p => Cell.notna (id p)
                  && if PKey_dec (role_key name id p) k then true else false) df)).
    { apply filter_In. split; [exact Hin|]. apply andb_true_iff. split.
      - apply notna_true. exact Hid.
      - destruct (PKey_dec (role_key name id p) k); [reflexivity | contradiction]. }
    destruct (filter _ df); [contradiction | simpl; lia].
Qed.

Lemma plays_in_role_nonneg (df : list Pbp.row) (k : PKey) :
  0 <= plays_in_role name id df k.
Proof. unfold plays_in_role. lia. Qed.

End Role.

Lemma players_key_build (g : PKey * list Players.row) :
  Players.key (players_build g) = fst g.
Proof. destruct g as [[a [b [c [d e]]]] rs]. reflexivity. Qed.

Lemma get_players_unfold (data : list Pbp.row) :
  get_players data
  = map players_build
      (groupby PKey_dec PKey_leb Players.key
         (get_rushers data ++ get_passers data ++ get_receivers data)).
Proof. reflexivity. Qed.

Lemma get_players_NoDup (data : list Pbp.row) :
  NoDup (map Players.key (get_players data)).
Proof.
  rewrite get_players_unfold.
  apply aggregated_NoDup. apply players_key_build.
Qed.

Lemma get_players_keys (data : list Pbp.row) (k : PKey) :
  In k (map Players.key (get_players data)) <->
  In k (map Players.key (get_rushers data))
  \/ In k (map Players.key (get_passers data))
  \/ In k (map Players.key (get_receivers data)).
Proof.
  rewrite get_players_unfold.
  rewrite aggregated_keys by apply players_key_build.
  rewrite In_group_keys. rewrite !map_app, !in_app_iff. tauto.
Qed.

Lemma get_players_plays (data : list Pbp.row) (row : Players.row) :
  In row (get_players data) ->
  Players.plays row
  = role_group_count Pbp.rusher_player_name Pbp.rusher_player_id data (Players.key row)
    + role_group_count Pbp.passer_player_name Pbp.passer_player_id data (Players.key row)
    + role_group_count Pbp.receiver_player_name Pbp.receiver_player_id data (Players.key row).
Proof.
  rewrite get_players_unfold. intros Hin.
  apply (In_aggregated _ _ _ PKey_dec PKey_leb Players.key players_build
           Players.key players_key_build) in Hin.
  destruct Hin as [_ Hrow].
  rewrite Hrow at 1. unfold players_build. simpl.
  rewrite !group_rows_app, !map_app, !sumZ_app.
  unfold get_rushers, get_passers, get_receivers.
  rewrite !role_counts_group. lia.
Qed.

(** C5, as stated, fails. A run of A whose [play_id] cell is null: the
    play is a play record with A's id in the rusher role, and the row of A
    has [plays = 0], not 1. The frames count the non-null cells of the
    [play_id] column, not the rows. *)
Lemma get_players_null_play_id_counterexample :
  get_players [Sample.run_without_play_id]
  = [ Players.mk (Some "A") (Some "00-1") (Some 1) (Some "NE") (Some "MIA") 0 ]
  /\ total_plays [Sample.run_without_play_id]
       (Some "A", (Some "00-1", (Some 1, (Some "NE", Some "MIA")))) = 1
  /\ ~ (forall row, In row (get_players [Sample.run_without_play_id]) ->
          Players.plays row
          = total_plays [Sample.run_without_play_id] (Players.key row)).
Proof.
  split; [vm_compute; reflexivity|]. split; [vm_compute; reflexivity|].
  intros H.
  specialize (H (Players.mk (Some "A") (Some "00-1") (Some 1) (Some "NE")
                   (Some "MIA") 0)).
  assert (Hin : In (Players.mk (Some "A") (Some "00-1") (Some 1) (Some "NE")
                      (Some "MIA") 0)
                   (get_players [Sample.run_without_play_id])).
  { vm_compute. left. reflexivity. }
  specialize (H Hin). vm_compute in H. discriminate.
Qed.

(** C5, amended. For every play-record input [get_players] yields one row
    per (name, id, week, offense, defense): the keys of its rows are
    pairwise distinct; a key has a row exactly when some play has it in
    some role; and the row's [plays] is the number of plays with a
    [play_id] that have the key's player as rusher, plus as passer, plus
    as receiver. When every play has its [play_id], that is the number of
    plays with the key's player as rusher, plus as passer, plus as
    receiver. *)
Theorem get_players_one_row_per_key_with_summed_counts (data : list Pbp.row) :
  NoDup (map Players.key (get_players data))
  /\ (forall k, In k (map Players.key (get_players data))
                <-> 0 < total_plays data k)
  /\ (forall row, In row (get_players data) ->
                  Players.plays row = counted_plays data (Players.key row))
  /\ (Forall (fun p => Pbp.play_id p <> None) data ->
      forall row, In row (get_players data) ->
                  Players.plays row = total_plays data (Players.key row)).
Proof.
  split; [apply get_players_NoDup|]. split; [|split].
  - intros k. rewrite get_players_keys.
    unfold get_rushers, get_passers, get_receivers, total_plays.
    rewrite !role_counts_keys, <- !plays_in_role_pos.
    pose proof (plays_in_role_nonneg Pbp.rusher_player_name Pbp.rusher_player_id data k).
    pose proof (plays_in_role_nonneg Pbp.passer_player_name Pbp.passer_player_id data k).
    pose proof (plays_in_role_nonneg Pbp.receiver_player_name Pbp.receiver_player_id data k).
    lia.
  - intros row Hin. rewrite (get_players_plays data row Hin).
    unfold counted_plays. rewrite !role_group_count_counted. reflexivity.
  - intros Hall row Hin. rewrite (get_players_plays data row Hin).
    unfold total_plays. rewrite !role_group_count_plays by exact Hall.
    reflexivity.
Qed.

Lemma get_players_counts_witness :
  Forall (fun p => Pbp.play_id p <> None) Sample.five_and_three
  /\ NoDup (map Players.key (get_players Sample.five_and_three))
  /\ (forall k, In k (map Players.key (get_players Sample.five_and_three))
                <-> 0 < total_plays Sample.five_and_three k)
  /\ (forall row, In row (get_players Sample.five_and_three) ->
                  Players.plays row
                  = counted_plays Sample.five_and_three (Players.key row))
  /\ (forall row, In row (get_players Sample.five_and_three) ->
                  Players.plays row
                  = total_plays Sample.five_and_three (Players.key row)).
Proof.
  assert (Hall : Forall (fun p => Pbp.play_id p <> None) Sample.five_and_three).
  { repeat constructor; discriminate. }
  destruct (get_players_one_row_per_key_with_summed_counts Sample.five_and_three)
    as [Hnd [Hkeys [Hcounted Htotal]]].
  split; [exact Hall|]. split; [exact Hnd|]. split; [exact Hkeys|].
  split; [exact Hcounted | exact (Htotal Hall)].
Defined.

(** Five rushing and three receiving plays of one player in one game give
    one row with [plays = 8]. *)
Example get_players_five_and_three :
  get_players Sample.five_and_three
  = [ Players.mk (Some "A") (Some "00-1") (Some 1) (Some "NE") (Some "MIA") 8;
      Players.mk (Some "Q") (Some "00-9") (Some 1) (Some "NE") (Some "MIA") 3 ].
Proof. vm_compute. reflexivity. Qed.

Section Retained.

Variables name id : Pbp.row -> option string.

Lemma role_counts_retains (data : list Pbp.row) (p : Pbp.row) :
  In p data -> id p <> None ->
  exists r, In r (role_counts name id data)
            /\ Players.key r = role_key name id p
            /\ (Pbp.play_id p <> None -> 1 <= Players.plays r).
Proof.
  intros Hin Hid.
  assert (Hk : In (role_key name id p) (map Players.key (role_counts name id data))).
  { apply role_counts_keys. exists p. auto. }
  apply in_map_iff in Hk. destruct Hk as [r [Hkey Hr]].
  exists r. split; [exact Hr|]. split; [exact Hkey|].
  intros Hpid.
  pose proof (group_rows_unique _ _ PKey_dec Players.key
                (role_counts name id data) r) as Hu.
  assert (Hnd : NoDup (map Players.key (role_counts name id data))).
  { unfold role_counts. apply aggregated_NoDup. apply role_key_build. }
  specialize (Hu Hnd Hr).
  pose proof (role_counts_group name id data (Players.key r)) as Hs.
  rewrite Hu in Hs. simpl in Hs. rewrite sumZ_single in Hs.
  rewrite Hs, Hkey. apply role_group_count_In; assumption.
Qed.

End Retained.

Lemma get_players_retains (data : list Pbp.row) (k : PKey) :
  In k (map Players.key (get_rushers data))
  \/ In k (map Players.key (get_passers data))
  \/ In k (map Players.key (get_receivers data)) ->
  exists r, In r (get_players data) /\ Players.key r = k.
Proof.
  intros H. apply get_players_keys in H.
  apply in_map_iff in H. destruct H as [r [Hk Hr]]. eauto.
Qed.

Lemma get_players_at_least (data : list Pbp.row) (r : Players.row) :
  In r (get_players data) ->
  role_group_count Pbp.rusher_player_name Pbp.rusher_player_id data (Players.key r)
    <= Players.plays r
  /\ role_group_count Pbp.passer_player_name Pbp.passer_player_id data (Players.key r)
    <= Players.plays r
  /\ role_group_count Pbp.receiver_player_name Pbp.receiver_player_id data (Players.key r)
    <= Players.plays r.
Proof.
  intros Hr. rewrite (get_players_plays data r Hr).
  pose proof (role_group_count_nonneg Pbp.rusher_player_name
                Pbp.rusher_player_id data (Players.key r)).
  pose proof (role_group_count_nonneg Pbp.passer_player_name
                Pbp.passer_player_id data (Players.key r)).
  pose proof (role_group_count_nonneg Pbp.receiver_player_name
                Pbp.receiver_player_id data (Players.key r)).
  lia.
Qed.

(** C8. No play with a role player is dropped by the participation
    group-bys because of its teams: for every play of the input, null
    offense or defense included, and every role whose player id it has, the
    role's frame and the frame of [get_players] have a row with the play's
    own key (null team cells kept as they are), which counts the play. *)
Theorem participation_keeps_null_team_groups (data : list Pbp.row) (p : Pbp.row) :
  In p data ->
  (Pbp.rusher_player_id p <> None ->
   kept_in_role Pbp.rusher_player_name Pbp.rusher_player_id
     (get_rushers data) data p)
  /\ (Pbp.passer_player_id p <> None ->
      kept_in_role Pbp.passer_player_name Pbp.passer_player_id
        (get_passers data) data p)
  /\ (Pbp.receiver_player_id p <> None ->
      kept_in_role Pbp.receiver_player_name Pbp.receiver_player_id
        (get_receivers data) data p).
Proof.
  intros Hin.
  assert (G : forall name id frame,
             frame = role_counts name id data ->
             (In (role_key name id p) (map Players.key frame) ->
              In (role_key name id p) (map Players.key (get_players data))) ->
             (forall r, In r (get_players data) ->
                        role_group_count name id data (Players.key r)
                        <= Players.plays r) ->
             id p <> None -> kept_in_role name id frame data p).
  { intros name id frame -> Hkeys Hle Hid.
    destruct (role_counts_retains name id data p Hin Hid) as [r [Hr [Hk Hc]]].
    split; [exists r; auto|].
    assert (Hm : In (role_key name id p) (map Players.key (get_players data))).
    { apply Hkeys. rewrite <- Hk. apply in_map. exact Hr. }
    apply in_map_iff in Hm. destruct Hm as [m [Hmk Hm]].
    exists m. split; [exact Hm|]. split; [exact Hmk|].
    intros Hpid. specialize (Hle m Hm). rewrite Hmk in Hle.
    pose proof (role_group_count_In name id data p Hin Hid Hpid). lia. }
  split; [|split]; apply G; try reflexivity.
  - intros H. apply get_players_keys. left. exact H.
  - intros r Hr. apply (get_players_at_least data r Hr).
  - intros H. apply get_players_keys. right. left. exact H.
  - intros r Hr. apply (get_players_at_least data r Hr).
  - intros H. apply get_players_keys. right. right. exact H.
  - intros r Hr. apply (get_players_at_least data r Hr).
Qed.

Lemma participation_keeps_null_team_groups_witness :
  In Sample.null_defense_run Sample.with_null_defense
  /\ Pbp.defteam Sample.null_defense_run = None
  /\ Pbp.rusher_player_id Sample.null_defense_run <> None
  /\ kept_in_role Pbp.rusher_player_name Pbp.rusher_player_id
       (get_rushers Sample.with_null_defense) Sample.with_null_defense
       Sample.null_defense_run.
Proof.
  split; [right; left; reflexivity|]. split; [reflexivity|].
  split; [discriminate|].
  apply (proj1 (participation_keeps_null_team_groups
                  Sample.with_null_defense Sample.null_defense_run
                  (or_intror (or_introl eq_refl)))).
  discriminate.
Defined.

(** The play with the null defense has its own row. *)
Example get_players_with_null_defense :
  get_players Sample.with_null_defense
  = [ Players.mk (Some "B") (Some "00-2") (Some 2) (Some "DAL") (Some "PHI") 1;
      Players.mk (Some "B") (Some "00-2") (Some 2) (Some "DAL") None 1 ].
Proof. vm_compute. reflexivity. Qed.

(** ** Most-recent-position roster lookup *)

Lemma maxZ_from (col : list (option Z)) (acc : option Z) :
  fold_left Cell.maxZ_step col acc
  = match acc, Cell.maxZ col with
    | None, r => r
    | Some a, None => Some a
    | Some a, Some m => Some (Z.max a m)
    end.
Proof.
  unfold Cell.maxZ. revert acc.
  induction col as [|c col IH]; intros acc; simpl.
  - destruct acc; reflexivity.
  - rewrite (IH (Cell.maxZ_step acc c)), (IH (Cell.maxZ_step None c)).
    destruct c as [s|], acc as [a|]; simpl; try reflexivity.
    destruct (fold_left Cell.maxZ_step col None); f_equal; lia.
Qed.

Lemma maxZ_cons (c : option Z) (col : list (option Z)) :
  Cell.maxZ (c :: col)
  = match c, Cell.maxZ col with
    | None, r => r
    | Some a, None => Some a
    | Some a, Some m => Some (Z.max a m)
    end.
Proof.
  unfold Cell.maxZ at 1. simpl. rewrite maxZ_from.
  destruct c; reflexivity.
Qed.

Lemma maxZ_Some (col : list (option Z)) (m : Z) :
  Cell.maxZ col = Some m <->
  In (Some m) col /\ (forall s, In (Some s) col -> s <= m).
Proof.
  revert m. induction col as [|c col IH]; intros m.
  - simpl. split; [discriminate | intros [[] _]].
  - rewrite maxZ_cons.
    destruct c as [a|]; destruct (Cell.maxZ col) as [x|] eqn:E.
    + destruct (proj1 (IH x) eq_refl) as [Hx Hle]. split.
      * intros H. inversion H; subst. split.
        -- destruct (Z.max_spec a x) as [[_ ->]|[_ ->]];
             [right; exact Hx | left; reflexivity].
        -- intros s [Hs|Hs]; [inversion Hs; lia | specialize (Hle s Hs); lia].
      * intros [Hin Hall]. f_equal.
        assert (x <= m) by (apply Hall; right; exact Hx).
        assert (a <= m) by (apply Hall; left; reflexivity).
        destruct Hin as [Hm|Hm]; [inversion Hm; lia|].
        specialize (Hle m Hm). lia.
    + assert (Hnone : forall s, ~ In (Some s) col).
      { intros s Hs.
        (* a column with a season has a maximum *)
        assert (Hex : exists y, Cell.maxZ col = Some y).
        { clear -Hs. induction col as [|c col IHc]; [contradiction|].
          rewrite maxZ_cons. destruct Hs as [->|Hs].
          - destruct (Cell.maxZ col); eauto.
          - destruct (IHc Hs) as [y ->]. destruct c; eauto. }
        destruct Hex as [y Hy]. congruence. }
      split.
      * intros H. inversion H; subst. split; [left; reflexivity|].
        intros s [Hs|Hs]; [inversion Hs; lia | exfalso; eapply Hnone; eauto].
      * intros [[Hm|Hm] _]; [exact Hm | exfalso; eapply Hnone; eauto].
    + rewrite (IH m). split.
      * intros [Hin Hall]. split; [right; exact Hin|].
        intros s [Hs|Hs]; [discriminate | auto].
      * intros [[Hm|Hm] Hall]; [discriminate|]. split; [exact Hm|].
        intros s Hs. apply Hall. right. exact Hs.
    + rewrite (IH m). split.
      * intros [Hin Hall]. split; [right; exact Hin|].
        intros s [Hs|Hs]; [discriminate | auto].
      * intros [[Hm|Hm] Hall]; [discriminate|]. split; [exact Hm|].
        intros s Hs. apply Hall. right. exact Hs.
Qed.

Lemma combine_map_same {A B C} (f : A -> B) (g : A -> C) (l : list A) :
  combine (map f l) (map g l) = map (fun x => (f x, g x)) l.
Proof. induction l as [|x l IH]; simpl; [reflexivity | rewrite IH; reflexivity]. Qed.

(** The mask-and-select of the source is a filter of the concatenation. *)
Lemma two_year_roster_filter (cur prev : list Roster.row) :
  two_year_roster cur prev
  = filter (fun r => Cell.eqZ (season_max_of (cur ++ prev) r) (Roster.season r))
           (cur ++ prev).
Proof.
  unfold two_year_roster, season_transform_max.
  rewrite combine_map_same, map_map. simpl.
  apply (select_map (fun r => Cell.eqZ (season_max_of (cur ++ prev) r)
                                       (Roster.season r))).
Qed.

Lemma group_season_In (df : list Roster.row) (g : string) (s : Z) :
  In (Some s) (map Roster.season
                 (group_rows Cell.ostring_dec Roster.gsis_id df (Some g)))
  <-> exists r, In r df /\ Roster.gsis_id r = Some g /\ Roster.season r = Some s.
Proof.
  rewrite in_map_iff. split.
  - intros [r [Hs Hr]]. apply In_group_rows in Hr. destruct Hr as [Hin Hg].
    exists r. auto.
  - intros [r [Hin [Hg Hs]]]. exists r. split; [exact Hs|].
    apply In_group_rows. auto.
Qed.

Lemma season_max_of_spec (df : list Roster.row) (r : Roster.row) :
  Cell.eqZ (season_max_of df r) (Roster.season r) = true
  <-> of_most_recent_season df r.
Proof.
  unfold season_max_of, of_most_recent_season, is_max_season. split.
  - destruct (Roster.gsis_id r) as [g|] eqn:Eg; [|discriminate].
    destruct (Cell.maxZ _) as [m|] eqn:Em; [|discriminate].
    destruct (Roster.season r) as [s|] eqn:Es; [|discriminate].
    simpl. intros H. apply Z.eqb_eq in H. subst s.
    apply maxZ_Some in Em. destruct Em as [Hin Hall].
    exists g, m. split; [reflexivity|]. split; [reflexivity|]. split.
    + apply group_season_In. exact Hin.
    + intros r' s Hr' Hg Hs. apply Hall. apply group_season_In. eauto.
  - intros [g [m [Hg [Hs [Hex Hall]]]]]. rewrite Hg, Hs.
    assert (Em : Cell.maxZ (map Roster.season
                   (group_rows Cell.ostring_dec Roster.gsis_id df (Some g)))
                 = Some m).
    { apply maxZ_Some. split.
      - apply group_season_In. exact Hex.
      - intros s Hin. apply group_season_In in Hin.
        destruct Hin as [r' [Hr' [Hg' Hs']]]. eapply Hall; eauto. }
    rewrite Em. simpl. apply Z.eqb_refl.
Qed.

(** C6. When both roster fetches succeed, [get_two_year_roster_data]
    returns the concatenation of the season's and the previous season's
    entries restricted, in order and with multiplicity, to the entries
    whose season is the maximum season present for their player id: an
    entry of the concatenation is returned exactly when it is of the most
    recent season of its [gsis_id]. Hence an entry that has a more recent
    entry of the same player is not returned, and an entry of a player all
    of whose entries are of one season is. *)
Theorem get_two_year_roster_data_keeps_most_recent_season
  (year : Z) (w : World) (cur prev : list Roster.row) :
  get_roster_data year w = Ok cur ->
  get_roster_data (year - 1) w = Ok prev ->
  exists keep : Roster.row -> bool,
    get_two_year_roster_data year w = Ok (filter keep (cur ++ prev))
    /\ (forall r, keep r = true <-> of_most_recent_season (cur ++ prev) r)
    /\ (forall r, In r (filter keep (cur ++ prev))
                  <-> In r (cur ++ prev) /\ of_most_recent_season (cur ++ prev) r)
    /\ (forall r r' g s s',
          In r' (cur ++ prev) ->
          Roster.gsis_id r = Some g -> Roster.gsis_id r' = Some g ->
          Roster.season r = Some s -> Roster.season r' = Some s' ->
          s < s' -> ~ In r (filter keep (cur ++ prev)))
    /\ (forall r g s,
          In r (cur ++ prev) ->
          Roster.gsis_id r = Some g -> Roster.season r = Some s ->
          (forall r' s', In r' (cur ++ prev) -> Roster.gsis_id r' = Some g ->
                         Roster.season r' = Some s' -> s' = s) ->
          In r (filter keep (cur ++ prev))).
Proof.
  intros Hcur Hprev.
  exists (fun r => Cell.eqZ (season_max_of (cur ++ prev) r) (Roster.season r)).
  split; [|split; [|split; [|split]]].
  - unfold get_two_year_roster_data. rewrite Hcur, Hprev. simpl.
    rewrite two_year_roster_filter. reflexivity.
  - intros r. apply season_max_of_spec.
  - intros r. rewrite filter_In, season_max_of_spec. reflexivity.
  - intros r r' g s s' Hr' Hg Hg' Hs Hs' Hlt Hin.
    apply filter_In in Hin. destruct Hin as [_ Hk].
    apply season_max_of_spec in Hk.
    destruct Hk as [g0 [m [Hg0 [Hm [_ Hall]]]]].
    assert (g0 = g) by congruence. assert (m = s) by congruence. subst.
    specialize (Hall r' s' Hr' Hg' Hs'). lia.
  - intros r g s Hr Hg Hs Honly.
    apply filter_In. split; [exact Hr|]. apply season_max_of_spec.
    exists g, s. split; [exact Hg|]. split; [exact Hs|]. split.
    + exists r. auto.
    + intros r' s' Hr' Hg' Hs'. rewrite (Honly r' s' Hr' Hg' Hs'). lia.
Qed.

Lemma get_two_year_roster_data_keeps_most_recent_season_witness :
  get_roster_data 2021 Sample.rosters_only = Ok Sample.roster_2021
  /\ get_roster_data (2021 - 1) Sample.rosters_only = Ok Sample.roster_2020
  /\ exists keep : Roster.row -> bool,
      get_two_year_roster_data 2021 Sample.rosters_only
      = Ok (filter keep (Sample.roster_2021 ++ Sample.roster_2020))
      /\ (forall r, keep r = true
                    <-> of_most_recent_season
                          (Sample.roster_2021 ++ Sample.roster_2020) r).
Proof.
  split; [reflexivity|]. split; [reflexivity|].
  destruct (get_two_year_roster_data_keeps_most_recent_season
              2021 Sample.rosters_only Sample.roster_2021 Sample.roster_2020
              eq_refl eq_refl) as [keep [H1 [H2 _]]].
  exists keep. split; assumption.
Defined.

(** Player 00-1 is on both rosters: the entry of 2021 (RB) is kept and the
    one of 2020 (WR) is not; player 00-5 is on the roster of 2020 only and
    keeps that entry. *)
Example get_two_year_roster_data_sample :
  get_two_year_roster_data 2021 Sample.rosters_only
  = Ok [ Roster.mk (Some "00-1") (Some 2021) (Some "RB");
         Roster.mk (Some "00-2") (Some 2021) (Some "FB");
         Roster.mk (Some "00-3") (Some 2021) (Some "K");
         Roster.mk (Some "00-5") (Some 2020) (Some "TE") ].
Proof. vm_compute. reflexivity. Qed.

(** ** Attribution joiner *)

Lemma stat_matches_spec (p : Players.row) (s : Stats.row) :
  stat_matches p s = true
  <-> Players.player_id p = Stats.player_id s /\ Players.week p = Stats.week s.
Proof.
  unfold stat_matches. rewrite andb_true_iff.
  destruct (Cell.ostring_dec _ _), (Cell.oZ_dec _ _); intuition congruence.
Qed.

Lemma roster_matches_spec (j : Joined.row) (r : Roster.row) :
  roster_matches j r = true <-> Joined.player_id j = Roster.gsis_id r.
Proof.
  unfold roster_matches.
  destruct (Cell.ostring_dec _ _); intuition congruence.
Qed.

Lemma participation_merged (p : Players.row) (s : Stats.row) :
  Joined.participation (Joined.merged p s) = p.
Proof. destruct p. reflexivity. Qed.

Lemma joined_matched (j : Joined.row) (r : Roster.row) :
  Tri.joined (Tri.matched j r) = j.
Proof. destruct j. reflexivity. Qed.

Lemma joined_unmatched (j : Joined.row) : Tri.joined (Tri.unmatched j) = j.
Proof. destruct j. reflexivity. Qed.

Lemma In_merge_inner (players : list Players.row) (stats : list Stats.row)
  (j : Joined.row) :
  In j (merge_inner players stats) <->
  exists p s, In p players /\ In s stats
              /\ Players.player_id p = Stats.player_id s
              /\ Players.week p = Stats.week s
              /\ j = Joined.merged p s.
Proof.
  unfold merge_inner. rewrite in_flat_map. split.
  - intros [p [Hp Hj]]. apply in_map_iff in Hj. destruct Hj as [s [Hj Hs]].
    apply filter_In in Hs. destruct Hs as [Hs Hm].
    apply stat_matches_spec in Hm. destruct Hm.
    exists p, s. auto.
  - intros [p [s [Hp [Hs [Hid [Hw Hj]]]]]]. exists p. split; [exact Hp|].
    apply in_map_iff. exists s. split; [auto|].
    apply filter_In. split; [exact Hs|]. apply stat_matches_spec. auto.
Qed.

Lemma In_merge_left (joined : list Joined.row) (roster : list Roster.row)
  (t : Tri.row) :
  In t (merge_left joined roster) <->
  exists j, In j joined
            /\ ((exists r, In r roster /\ Joined.player_id j = Roster.gsis_id r
                           /\ t = Tri.matched j r)
                \/ ((forall r, In r roster -> Joined.player_id j <> Roster.gsis_id r)
                    /\ t = Tri.unmatched j)).
Proof.
  unfold merge_left. rewrite in_flat_map. split.
  - intros [j [Hj Ht]]. exists j. split; [exact Hj|].
    destruct (filter (roster_matches j) roster) as [|m ms] eqn:E.
    + right. destruct Ht as [Ht|[]]. split; [|auto].
      intros r Hr Heq.
      assert (Hin : In r (filter (roster_matches j) roster)).
      { apply filter_In. split; [exact Hr|]. apply roster_matches_spec. exact Heq. }
      rewrite E in Hin. exact Hin.
    + left. apply in_map_iff in Ht. destruct Ht as [r [Ht Hr]].
      rewrite <- E in Hr. apply filter_In in Hr. destruct Hr as [Hr Hm].
      apply roster_matches_spec in Hm. exists r. auto.
  - intros [j [Hj [[r [Hr [Hm Ht]]]|[Hnone Ht]]]]; exists j; (split; [exact Hj|]).
    + assert (Hin : In r (filter (roster_matches j) roster)).
      { apply filter_In. split; [exact Hr|]. apply roster_matches_spec. exact Hm. }
      destruct (filter (roster_matches j) roster) as [|m ms] eqn:E;
        [contradiction|].
      rewrite <- E in Hin. rewrite Ht. apply in_map. rewrite <- E. exact Hin.
    + destruct (filter (roster_matches j) roster) as [|m ms] eqn:E.
      * left. auto.
      * exfalso. assert (Hin : In m (m :: ms)) by (left; reflexivity).
        rewrite <- E in Hin. apply filter_In in Hin. destruct Hin as [Hr Hm].
        apply roster_matches_spec in Hm. exact (Hnone m Hr Hm).
Qed.

(** C7. In the attribution joiner, a participation row that no player-week
    statistic matches on (player id, week) has no row in [joined_data]
    (whereas one that a statistic matches has the merged row); and a row
    of [joined_data] that no entry of the roster lookup matches on player
    id is in [tri_data] with its columns as they were and a null position,
    and in no other form. *)
Theorem attribution_joiner_inner_then_left
  (players : list Players.row) (player_stats_data : list Stats.row)
  (two_year_roster_data : list Roster.row) :
  let joined_data := merge_inner players player_stats_data in
  let tri_data := merge_left joined_data two_year_roster_data in
  (forall p, In p players ->
     (forall s, In s player_stats_data ->
                ~ (Players.player_id p = Stats.player_id s
                   /\ Players.week p = Stats.week s)) ->
     forall j, In j joined_data -> Joined.participation j <> p)
  /\ (forall p s, In p players -> In s player_stats_data ->
        Players.player_id p = Stats.player_id s ->
        Players.week p = Stats.week s ->
        In (Joined.merged p s) joined_data)
  /\ (forall j, In j joined_data ->
        (forall r, In r two_year_roster_data ->
                   Joined.player_id j <> Roster.gsis_id r) ->
        In (Tri.unmatched j) tri_data
        /\ Tri.joined (Tri.unmatched j) = j
        /\ (forall t, In t tri_data -> Tri.joined t = j ->
                      Tri.position t = None)).
Proof.
  intros joined_data tri_data. split; [|split].
  - intros p Hp Hnone j Hj Heq.
    apply In_merge_inner in Hj.
    destruct Hj as [p' [s [Hp' [Hs [Hid [Hw Hj]]]]]].
    subst j. rewrite participation_merged in Heq. subst p'.
    exact (Hnone s Hs (conj Hid Hw)).
  - intros p s Hp Hs Hid Hw. apply In_merge_inner. exists p, s. auto.
  - intros j Hj Hnone. split; [|split].
    + apply In_merge_left. exists j. split; [exact Hj|]. right. auto.
    + apply joined_unmatched.
    + intros t Ht Heq. apply In_merge_left in Ht.
      destruct Ht as [j' [Hj' [[r [Hr [Hm Ht]]]|[_ Ht]]]]; subst t.
      * rewrite joined_matched in Heq. subst j'.
        exfalso. exact (Hnone r Hr Hm).
      * reflexivity.
Qed.

(** ** Position aggregator *)





Lemma eqb_false_negb (b : bool) : Bool.eqb b false = negb b.
Proof. destruct b; reflexivity. Qed.

Lemma group_rows_unconventional (tri_data : list Tri.row) (k : WKey) :
  group_rows WKey_dec tri_wkey (unconventional_ball_carriers tri_data) k
  = filter (fun t => negb (Cell.isin (Tri.position t) skill_positions)
                     && if WKey_dec (tri_wkey t) k then true else false)
           tri_data.
Proof.
  unfold group_rows, unconventional_ball_carriers.
  rewrite filter_filter_andb. apply filter_ext.
  intros t. rewrite eqb_false_negb. reflexivity.
Qed.

Lemma In_non_skill_pos_data (tri_data : list Tri.row) (n : NonSkill.row) :
  In n (non_skill_pos_data tri_data) <->
  NonSkill.position n = "non_skill"
  /\ In (non_skill_wkey n) (map tri_wkey (unconventional_ball_carriers tri_data))
  /\ NonSkill.fantasy_points n = unconventional_points tri_data (non_skill_wkey n)
  /\ Cell.gt6 (unconventional_sum tri_data (non_skill_wkey n)) = true.
Proof.
  unfold non_skill_pos_data, unconventional_points, unconventional_sum.
  rewrite <- group_rows_unconventional.
  rewrite in_map_iff. split.
  - intros [g [Hn Hg]]. apply filter_In in Hg. destruct Hg as [Hg Hgt].
    apply In_groupby in Hg. destruct Hg as [Hk Hrows].
    unfold non_skill_kept in Hgt.
    subst n. destruct g as [[w [p d]] rows]. simpl in *. subst rows.
    auto.
  - intros [Hpos [Hk [Hfp Hgt]]].
    exists (non_skill_wkey n,
            group_rows WKey_dec tri_wkey
              (unconventional_ball_carriers tri_data) (non_skill_wkey n)).
    split.
    + unfold non_skill_build. cbn [fst snd]. rewrite <- Hfp, <- Hpos.
      destruct n. reflexivity.
    + apply filter_In. split; [|exact Hgt].
      apply In_groupby. simpl. auto.
Qed.


Lemma In_fixed_data_of (tri_data : list Tri.row) (f : Fixed.row) :
  In f (fixed_data_of tri_data) <->
  Cell.isin (Fixed.position f) output_positions = true
  /\ ((exists t, In t tri_data /\ f = Fixed.of_tri t)
      \/ (exists n, In n (non_skill_pos_data tri_data)
                    /\ f = Fixed.of_non_skill n)).
Proof.
  unfold fixed_data_of, loc_position_assign, reindex_on_columns.
  rewrite filter_In, !in_app_iff, !in_map_iff. simpl. split.
  - intros [[[[t [Hf Ht]]|[n [Hf Hn]]]|[Hf|[]]] Hpos]; (split; [exact Hpos|]).
    + left. eauto.
    + right. eauto.
    + subst f. discriminate.
  - intros [Hpos [[t [Ht Hf]]|[n [Hn Hf]]]]; (split; [|exact Hpos]).
    + left. left. eauto.
    + left. right. eauto.
Qed.

Lemma fpa_key_build (g : FKey * list Fixed.row) : fpa_key (fpa_build g) = fst g.
Proof. destruct g as [[w [d [p pos]]] rows]. reflexivity. Qed.

Lemma In_aggregate (tri_data : list Tri.row) (row : Fpa.row) :
  In row (position_sums tri_data) <->
  In (fpa_key row) (map fixed_fkey (fixed_data_of tri_data))
  /\ row = fpa_build (fpa_key row,
                      group_rows FKey_dec fixed_fkey (fixed_data_of tri_data)
                        (fpa_key row)).
Proof.
  unfold position_sums.
  apply (In_aggregated _ _ _ FKey_dec FKey_leb fixed_fkey fpa_build fpa_key
           fpa_key_build).
Qed.

(** The positions of the table are positions of [fixed_data] that passed
    the filter. *)
Lemma aggregate_positions (tri_data : list Tri.row) (row : Fpa.row) :
  In row (position_sums tri_data) ->
  Cell.isin (Fpa.position row) output_positions = true.
Proof.
  intros Hrow. apply In_aggregate in Hrow. destruct Hrow as [Hk _].
  apply in_map_iff in Hk. destruct Hk as [f [Hkey Hf]].
  apply In_fixed_data_of in Hf. destruct Hf as [Hpos _].
  unfold fixed_fkey, fpa_key in Hkey.
  assert (Fixed.position f = Fpa.position row) by congruence.
  congruence.
Qed.

Example get_fpa_by_position_season_2021 :
  fst (get_fpa_by_position 2021 Sample.season_2021) = Ok Sample.table_2021.
Proof. vm_compute. reflexivity. Qed.

Lemma attribution_joiner_inner_then_left_witness :
  let players := get_players Sample.kept_pbp_2021 in
  let joined_data := merge_inner players Sample.stats_2021 in
  let tri_data := merge_left joined_data Sample.lookup_2021 in
  In Sample.x_row players
  /\ (forall j, In j joined_data -> Joined.participation j <> Sample.x_row)
  /\ In Sample.u_joined joined_data
  /\ In (Tri.unmatched Sample.u_joined) tri_data
  /\ Tri.position (Tri.unmatched Sample.u_joined) = None.
Proof.
  intros players joined_data tri_data.
  destruct (attribution_joiner_inner_then_left
              (get_players Sample.kept_pbp_2021) Sample.stats_2021
              Sample.lookup_2021) as [Hinner [_ Hleft]].
  assert (Hx : In Sample.x_row players).
  { vm_compute. repeat (try (left; reflexivity); right). }
  assert (Hu : In Sample.u_joined joined_data).
  { vm_compute. repeat (try (left; reflexivity); right). }
  split; [exact Hx|]. split.
  - apply (Hinner Sample.x_row Hx).
    intros s Hs [Hid _]. simpl in Hs.
    destruct Hs as [<-|[<-|[<-|[<-|[]]]]]; discriminate.
  - split; [exact Hu|].
    destruct (Hleft Sample.u_joined Hu) as [Hin _].
    + intros r Hr. simpl in Hr.
      destruct Hr as [<-|[<-|[<-|[<-|[]]]]]; discriminate.
    + split; [exact Hin | reflexivity].
Defined.

(** ** The call as a whole *)

Lemma aggregate_Ok (tri_data : list Tri.row) (table : list Fpa.row) :
  aggregate tri_data = Ok table <->
  tri_data <> [] /\ table = position_sums tri_data.
Proof.
  unfold aggregate. destruct tri_data as [|t rest].
  - split; [discriminate|]. intros [H _]. contradiction.
  - split.
    + intros H. inversion H. split; [discriminate | reflexivity].
    + intros [_ ->]. reflexivity.
Qed.

Lemma aggregate_Failed (tri_data : list Tri.row) :
  aggregate tri_data = Failed <-> tri_data = [].
Proof.
  unfold aggregate. destruct tri_data as [|t rest].
  - tauto.
  - split; discriminate.
Qed.

Lemma compute_fpa_Ok (year : Z) (w : World) (table : list Fpa.row) :
  compute_fpa year w = Ok table <->
  exists data stats roster,
    get_pbp_data year w = Ok data
    /\ get_player_stats_data year w = Ok stats
    /\ get_two_year_roster_data year w = Ok roster
    /\ fpa_table (get_players data) stats roster = Ok table.
Proof.
  unfold compute_fpa. split.
  - destruct (get_pbp_data year w) as [data|]; [|discriminate].
    destruct (get_player_stats_data year w) as [stats|]; [|discriminate].
    destruct (get_two_year_roster_data year w) as [roster|]; [|discriminate].
    simpl. intros H. exists data, stats, roster. auto.
  - intros [data [stats [roster [-> [-> [-> H]]]]]]. exact H.
Qed.

Lemma compute_fpa_fetch_Failed (year : Z) (w : World) :
  get_pbp_data year w = Failed
  \/ get_player_stats_data year w = Failed
  \/ get_two_year_roster_data year w = Failed ->
  compute_fpa year w = Failed.
Proof.
  unfold compute_fpa.
  destruct (get_pbp_data year w) as [data|]; simpl; [|reflexivity].
  destruct (get_player_stats_data year w) as [stats|]; simpl; [|reflexivity].
  destruct (get_two_year_roster_data year w) as [roster|]; simpl; [|reflexivity].
  intros [H|[H|H]]; discriminate.
Qed.

Lemma compute_fpa_empty (year : Z) (w : World) (data : list Pbp.row)
  (stats : list Stats.row) (roster : list Roster.row) :
  get_pbp_data year w = Ok data ->
  get_player_stats_data year w = Ok stats ->
  get_two_year_roster_data year w = Ok roster ->
  attributed (get_players data) stats roster = [] ->
  compute_fpa year w = Failed.
Proof.
  intros Hd Hs Hr He. unfold compute_fpa. rewrite Hd, Hs, Hr. simpl.
  unfold fpa_table. apply aggregate_Failed. exact He.
Qed.

Lemma get_fpa_by_position_miss (year : Z) (w : World) (data : list Pbp.row)
  (stats : list Stats.row) (roster : list Roster.row) :
  fpa_pickle w year = None ->
  get_pbp_data year w = Ok data ->
  get_player_stats_data year w = Ok stats ->
  get_two_year_roster_data year w = Ok roster ->
  attributed (get_players data) stats roster <> [] ->
  cache_dir w = true ->
  get_fpa_by_position year w
  = (Ok (position_sums (attributed (get_players data) stats roster)),
     to_pickle year
       (position_sums (attributed (get_players data) stats roster)) w).
Proof.
  intros Hc Hd Hs Hr Hne Hdir. unfold get_fpa_by_position. rewrite Hc.
  assert (E : compute_fpa year w
              = Ok (position_sums (attributed (get_players data) stats roster))).
  { apply compute_fpa_Ok. exists data, stats, roster.
    repeat (split; [assumption|]). unfold fpa_table. apply aggregate_Ok. auto. }
  rewrite E, Hdir. reflexivity.
Qed.

Lemma get_fpa_by_position_computed (year : Z) (w : World) (table : list Fpa.row) :
  fpa_pickle w year = None ->
  fst (get_fpa_by_position year w) = Ok table ->
  exists tri_data, tri_data <> [] /\ table = position_sums tri_data.
Proof.
  intros Hc. unfold get_fpa_by_position. rewrite Hc.
  destruct (compute_fpa year w) as [t|] eqn:E; simpl; [|discriminate].
  destruct (cache_dir w); simpl; [|discriminate].
  intros H. inversion H; subst t.
  apply compute_fpa_Ok in E. destruct E as [data [stats [roster [_ [_ [_ E]]]]]].
  unfold fpa_table in E. apply aggregate_Ok in E. eauto.
Qed.

Lemma get_fpa_by_position_table (year : Z) (w : World) (data : list Pbp.row)
  (stats : list Stats.row) (roster : list Roster.row) (table : list Fpa.row) :
  fpa_pickle w year = None ->
  get_pbp_data year w = Ok data ->
  get_player_stats_data year w = Ok stats ->
  get_two_year_roster_data year w = Ok roster ->
  fst (get_fpa_by_position year w) = Ok table ->
  table = position_sums (attributed (get_players data) stats roster).
Proof.
  intros Hc Hd Hs Hr. unfold get_fpa_by_position. rewrite Hc.
  destruct (compute_fpa year w) as [t|] eqn:E; simpl; [|discriminate].
  destruct (cache_dir w); simpl; [|discriminate].
  intros H. inversion H; subst t.
  apply compute_fpa_Ok in E. destruct E as [data' [stats' [roster' [Hd' [Hs' [Hr' E]]]]]].
  rewrite Hd in Hd'. rewrite Hs in Hs'. rewrite Hr in Hr'.
  inversion Hd'; inversion Hs'; inversion Hr'; subst.
  unfold fpa_table in E. apply aggregate_Ok in E. tauto.
Qed.

(** A call that raises leaves the world as it found it. *)
Lemma get_fpa_by_position_Failed (year : Z) (w : World) :
  fst (get_fpa_by_position year w) = Failed ->
  snd (get_fpa_by_position year w) = w.
Proof.
  unfold get_fpa_by_position.
  destruct (fpa_pickle w year) as [t|]; [reflexivity|].
  destruct (compute_fpa year w) as [t|]; [|reflexivity].
  destruct (cache_dir w); [discriminate | reflexivity].
Qed.

(** C4. Whatever the season's inputs, every row of the table that
    [get_fpa_by_position] computes has one of the positions QB, RB, WR, TE
    and non_skill; so no row has a position such as K, and points of a
    player of such a position can only be in a non_skill row. *)
Theorem get_fpa_by_position_positions (year : Z) (w : World)
  (table : list Fpa.row) :
  fpa_pickle w year = None ->
  fst (get_fpa_by_position year w) = Ok table ->
  forall row, In row table ->
    exists pos, Fpa.position row = Some pos
                /\ In pos ["QB"; "RB"; "WR"; "TE"; "non_skill"].
Proof.
  intros Hc Ht row Hrow.
  destruct (get_fpa_by_position_computed year w table Hc Ht)
    as [tri_data [_ ->]].
  apply aggregate_positions in Hrow. apply isin_spec in Hrow. exact Hrow.
Qed.

Lemma get_fpa_by_position_positions_witness :
  fpa_pickle Sample.season_2021 2021 = None
  /\ fst (get_fpa_by_position 2021 Sample.season_2021) = Ok Sample.table_2021
  /\ forall row, In row Sample.table_2021 ->
       exists pos, Fpa.position row = Some pos
                   /\ In pos ["QB"; "RB"; "WR"; "TE"; "non_skill"].
Proof.
  split; [reflexivity|]. split; [vm_compute; reflexivity|].
  apply (get_fpa_by_position_positions 2021 Sample.season_2021
           Sample.table_2021).
  - reflexivity.
  - vm_compute. reflexivity.
Defined.

(** ** The non-skill bucket *)

Lemma attributed_label_reserved (players : list Players.row)
  (stats : list Stats.row) (roster : list Roster.row) :
  label_reserved roster -> no_non_skill_label (attributed players stats roster).
Proof.
  intros Hres t Ht. unfold attributed in Ht. apply In_merge_left in Ht.
  destruct Ht as [j [_ [[r [Hr [_ ->]]]|[_ ->]]]]; simpl.
  - apply Hres. exact Hr.
  - discriminate.
Qed.

(** A row of [fixed_data] labelled non_skill is a synthetic one, when no
    attributed row has that label. *)
Lemma fixed_non_skill_synthetic (tri_data : list Tri.row) (f : Fixed.row) :
  no_non_skill_label tri_data ->
  In f (fixed_data_of tri_data) ->
  Fixed.position f = Some "non_skill" ->
  exists n, In n (non_skill_pos_data tri_data) /\ f = Fixed.of_non_skill n.
Proof.
  intros Hres Hf Hpos. apply In_fixed_data_of in Hf.
  destruct Hf as [_ [[t [Ht ->]]|Hn]]; [|exact Hn].
  exfalso. exact (Hres t Ht Hpos).
Qed.


Lemma aggregate_non_skill_ppr (tri_data : list Tri.row) (row : Fpa.row) :
  no_non_skill_label tri_data ->
  In row (position_sums tri_data) ->
  Fpa.position row = Some "non_skill" ->
  Fpa.fantasy_points_ppr row = 0%Q.
Proof.
  intros Hres Hrow Hpos. apply In_aggregate in Hrow.
  destruct Hrow as [_ Hrow]. rewrite Hrow. simpl.
  apply sumQ_all_null. apply Forall_forall.
  intros c Hc. apply in_map_iff in Hc. destruct Hc as [f [<- Hf]].
  apply In_group_rows in Hf. destruct Hf as [Hf Hkey].
  assert (Hfpos : Fixed.position f = Some "non_skill").
  { unfold fixed_fkey, fpa_key in Hkey. congruence. }
  destruct (fixed_non_skill_synthetic tri_data f Hres Hf Hfpos) as [n [_ ->]].
  reflexivity.
Qed.

Lemma filter_none {A} (f : A -> bool) (l : list A) :
  (forall x, In x l -> f x = false) -> filter f l = [].
Proof.
  induction l as [|x l IH]; intros H; simpl; [reflexivity|].
  rewrite (H x (or_introl eq_refl)). apply IH.
  intros y Hy. apply H. right. exact Hy.
Qed.

Lemma filter_map_In {A B} (f : B -> bool) (g : A -> B) (h : A -> bool)
  (l : list A) :
  (forall x, In x l -> f (g x) = h x) ->
  filter f (map g l) = map g (filter h l).
Proof.
  induction l as [|x l IH]; intros H; simpl; [reflexivity|].
  rewrite (H x (or_introl eq_refl)).
  rewrite IH by (intros y Hy; apply H; right; exact Hy).
  destruct (h x); reflexivity.
Qed.

Lemma NoDup_map_filter {A B} (g : A -> B) (f : A -> bool) (l : list A) :
  NoDup (map g l) -> NoDup (map g (filter f l)).
Proof.
  induction l as [|x l IH]; intros H; simpl; [constructor|].
  inversion H as [|? ? Hx Hl]; subst.
  destruct (f x); simpl; [|apply IH; exact Hl].
  constructor; [|apply IH; exact Hl].
  intros Hin. apply Hx. apply in_map_iff in Hin.
  destruct Hin as [y [Hy Hin]]. apply filter_In in Hin.
  rewrite <- Hy. apply in_map. tauto.
Qed.

(** The synthetic frame has one row per week, offense and defense. *)
Lemma non_skill_pos_data_NoDup (tri_data : list Tri.row) :
  NoDup (map non_skill_wkey (non_skill_pos_data tri_data)).
Proof.
  unfold non_skill_pos_data. rewrite map_map.
  rewrite (map_ext _ (fun g : WKey * list Tri.row => fst g)).
  2:{ intros [[w [p d]] rows]. reflexivity. }
  apply NoDup_map_filter.
  change (NoDup (map fst (groupby WKey_dec WKey_leb tri_wkey
                            (unconventional_ball_carriers tri_data)))).
  rewrite groupby_keys. apply NoDup_group_keys.
Qed.

(** The group of a non_skill key in [fixed_data] is the one synthetic row
    of its week, offense and defense. *)
Lemma fixed_non_skill_group (tri_data : list Tri.row) (n : NonSkill.row) :
  no_non_skill_label tri_data ->
  In n (non_skill_pos_data tri_data) ->
  group_rows FKey_dec fixed_fkey (fixed_data_of tri_data)
    (fixed_fkey (Fixed.of_non_skill n))
  = [Fixed.of_non_skill n].
Proof.
  intros Hres Hn.
  pose proof (proj1 (In_non_skill_pos_data tri_data n) Hn) as [Hlabel _].
  unfold group_rows, fixed_data_of, loc_position_assign, reindex_on_columns.
  rewrite filter_filter_andb, !filter_app.
  rewrite (filter_none _ (map Fixed.of_tri tri_data)).
  2:{ intros f Hf. apply in_map_iff in Hf. destruct Hf as [t [<- Ht]].
      destruct (FKey_dec _ _) as [e|ne]; [|apply andb_false_r].
      exfalso. apply (Hres t Ht).
      unfold fixed_fkey in e. simpl in e. rewrite Hlabel in e. congruence. }
  rewrite (filter_map_In _ Fixed.of_non_skill
             (fun m => if WKey_dec (non_skill_wkey m) (non_skill_wkey n)
                       then true else false)).
  2:{ intros m Hm.
      pose proof (proj1 (In_non_skill_pos_data tri_data m) Hm) as [Hl _].
      assert (Hin : Cell.isin (Fixed.position (Fixed.of_non_skill m))
                      output_positions = true).
      { simpl. rewrite Hl. reflexivity. }
      rewrite Hin, andb_true_l.
      destruct (FKey_dec _ _) as [e|ne], (WKey_dec _ _) as [e'|ne'];
        try reflexivity; exfalso.
      - apply ne'. unfold fixed_fkey in e. simpl in e.
        unfold non_skill_wkey. congruence.
      - apply ne. unfold non_skill_wkey in e'. unfold fixed_fkey. simpl.
        congruence. }
  pose proof (group_rows_unique _ _ WKey_dec non_skill_wkey
                (non_skill_pos_data tri_data) n
                (non_skill_pos_data_NoDup tri_data) Hn) as Hu.
  unfold group_rows in Hu. rewrite Hu. reflexivity.
Qed.

(** The standard points of a non_skill row of the table are the summed
    points of the unconventional ball carriers of its group (as values,
    idealised). *)
Lemma aggregate_non_skill_points (tri_data : list Tri.row) (row : Fpa.row) :
  no_non_skill_label tri_data ->
  In row (position_sums tri_data) ->
  Fpa.position row = Some "non_skill" ->
  (Fpa.fantasy_points row
   == unconventional_points tri_data
        (Fpa.week row, (Fpa.posteam row, Fpa.defteam row)))%Q.
Proof.
  intros Hres Hrow Hpos. apply In_aggregate in Hrow.
  destruct Hrow as [Hk Hrow].
  apply in_map_iff in Hk. destruct Hk as [f [Hkey Hf]].
  assert (Hfpos : Fixed.position f = Some "non_skill").
  { unfold fixed_fkey, fpa_key in Hkey. congruence. }
  destruct (fixed_non_skill_synthetic tri_data f Hres Hf Hfpos) as [n [Hn ->]].
  rewrite <- Hkey in Hrow.
  rewrite (fixed_non_skill_group tri_data n Hres Hn) in Hrow.
  pose proof (proj1 (In_non_skill_pos_data tri_data n) Hn) as [_ [_ [Hfp _]]].
  unfold fixed_fkey, fpa_key in Hkey. simpl in Hkey.
  inversion Hkey as [[Ew Ed Ep Epos]].
  rewrite Hrow at 1. unfold fpa_build, Cell.sumQ. simpl.
  rewrite Hfp. unfold non_skill_wkey. rewrite Qplus_0_l. reflexivity.
Qed.

Lemma lookup_2021_label_reserved : label_reserved Sample.lookup_2021.
Proof.
  intros r Hr. simpl in Hr.
  destruct Hr as [<-|[<-|[<-|[<-|[]]]]]; discriminate.
Qed.

Lemma labelled_season_table :
  fst (get_fpa_by_position 2021 Sample.labelled_season) = Ok Sample.labelled_table.
Proof. vm_compute. reflexivity. Qed.

Lemma labelled_season_attributed :
  get_pbp_data 2021 Sample.labelled_season
  = Ok [Sample.rush 1 2 "L" "00-4" (Some "BUF") (Some "NYJ")]
  /\ get_two_year_roster_data 2021 Sample.labelled_season
     = Ok Sample.roster_labelled
  /\ attributed
       (get_players [Sample.rush 1 2 "L" "00-4" (Some "BUF") (Some "NYJ")])
       [Stats.mk (Some "00-4") (Some 2) (Some 3%Q) (Some 10%Q)]
       Sample.roster_labelled
     = [Sample.labelled_row].
Proof. repeat split; vm_compute; reflexivity. Qed.




(** In the sample season the kicker's 9 points make a non_skill row for
    week 3, DAL against PHI; the 2 points of the player without roster
    entry make none for week 1, NE against MIA. *)
Example unconventional_points_season_2021 :
  unconventional_points
    (attributed (get_players Sample.kept_pbp_2021) Sample.stats_2021
       Sample.lookup_2021) (Some 3, (Some "DAL", Some "PHI")) = 9%Q
  /\ unconventional_points
       (attributed (get_players Sample.kept_pbp_2021) Sample.stats_2021
          Sample.lookup_2021) (Some 1, (Some "NE", Some "MIA")) = 2%Q
  /\ unconventional_sum
       (attributed (get_players Sample.kept_pbp_2021) Sample.stats_2021
          Sample.lookup_2021) (Some 3, (Some "DAL", Some "PHI")) = 9%float
  /\ unconventional_sum
       (attributed (get_players Sample.kept_pbp_2021) Sample.stats_2021
          Sample.lookup_2021) (Some 1, (Some "NE", Some "MIA")) = 2%float.
Proof. repeat split; vm_compute; reflexivity. Qed.

(** C3, as stated, fails. The table of the season of L, whom the roster
    file lists with the position non_skill and who scores 3 standard and
    10 PPR points, has a non_skill row whose [fantasy_points_ppr] is 10:
    the row sums L's own attributed row, not a synthetic one. *)
Lemma non_skill_row_with_ppr_counterexample :
  fst (get_fpa_by_position 2021 Sample.labelled_season) = Ok Sample.labelled_table
  /\ (exists row, In row Sample.labelled_table
                  /\ Fpa.position row = Some "non_skill"
                  /\ Fpa.fantasy_points_ppr row = 10%Q
                  /\ ~ (Fpa.fantasy_points_ppr row == 0)%Q)
  /\ ~ (forall row, In row Sample.labelled_table ->
          Fpa.position row = Some "non_skill" ->
          Fpa.fantasy_points_ppr row = 0%Q).
Proof.
  split; [exact labelled_season_table|]. split.
  - exists (Fpa.mk (Some 2) (Some "NYJ") (Some "BUF") (Some "non_skill") 3 10).
    simpl. repeat split; auto. intros H. vm_compute in H. discriminate.
  - intros H.
    specialize (H (Fpa.mk (Some 2) (Some "NYJ") (Some "BUF") (Some "non_skill") 3 10)
                  (or_introl eq_refl) eq_refl).
    discriminate.
Qed.

(** C3, amended. When the season's table is computed and no roster entry
    of the lookup is itself labelled non_skill, every row of the table
    whose position is non_skill has [fantasy_points_ppr] 0: the rows it
    sums are synthetic, created with the standard sum of their group and
    without PPR value. The call returns the table whenever the attributed
    frame has a row and [cache/] exists. *)
Theorem non_skill_rows_have_zero_ppr (year : Z) (w : World)
  (data : list Pbp.row) (stats : list Stats.row) (roster : list Roster.row) :
  fpa_pickle w year = None ->
  get_pbp_data year w = Ok data ->
  get_player_stats_data year w = Ok stats ->
  get_two_year_roster_data year w = Ok roster ->
  label_reserved roster ->
  let tri_data := attributed (get_players data) stats roster in
  (tri_data <> [] -> cache_dir w = true ->
   exists table, fst (get_fpa_by_position year w) = Ok table)
  /\ forall table,
       fst (get_fpa_by_position year w) = Ok table ->
       forall row, In row table ->
         Fpa.position row = Some "non_skill" ->
         Fpa.fantasy_points_ppr row = 0%Q.
Proof.
  intros Hc Hd Hs Hr Hres tri_data. split.
  - intros Hne Hdir.
    exists (position_sums tri_data).
    rewrite (get_fpa_by_position_miss year w data stats roster Hc Hd Hs Hr Hne Hdir).
    reflexivity.
  - intros table Ht row Hrow Hpos.
    rewrite (get_fpa_by_position_table year w data stats roster table Hc Hd Hs Hr Ht)
      in Hrow.
    pose proof (attributed_label_reserved (get_players data) stats roster Hres)
      as Hlabel.
    apply (aggregate_non_skill_ppr tri_data row Hlabel Hrow Hpos).
Qed.

Lemma non_skill_rows_have_zero_ppr_witness :
  fpa_pickle Sample.season_2021 2021 = None
  /\ get_pbp_data 2021 Sample.season_2021 = Ok Sample.kept_pbp_2021
  /\ get_player_stats_data 2021 Sample.season_2021 = Ok Sample.stats_2021
  /\ get_two_year_roster_data 2021 Sample.season_2021 = Ok Sample.lookup_2021
  /\ label_reserved Sample.lookup_2021
  /\ fst (get_fpa_by_position 2021 Sample.season_2021) = Ok Sample.table_2021
  /\ forall row, In row Sample.table_2021 ->
       Fpa.position row = Some "non_skill" ->
       Fpa.fantasy_points_ppr row = 0%Q.
Proof.
  split; [reflexivity|]. split; [vm_compute; reflexivity|].
  split; [reflexivity|]. split; [vm_compute; reflexivity|].
  split; [exact lookup_2021_label_reserved|].
  split; [vm_compute; reflexivity|].
  refine (proj2 (non_skill_rows_have_zero_ppr 2021 Sample.season_2021
                   Sample.kept_pbp_2021 Sample.stats_2021 Sample.lookup_2021
                   _ _ _ _ _) Sample.table_2021 _).
  - reflexivity.
  - vm_compute; reflexivity.
  - reflexivity.
  - vm_compute; reflexivity.
  - exact lookup_2021_label_reserved.
  - vm_compute; reflexivity.
Defined.

(** ** Fullbacks *)

Lemma unconventional_without_fullbacks (tri_data : list Tri.row) :
  unconventional_ball_carriers (without_fullbacks tri_data)
  = unconventional_ball_carriers tri_data.
Proof.
  unfold unconventional_ball_carriers, without_fullbacks.
  rewrite filter_filter_andb. apply filter_ext. intros t.
  destruct (Tri.position t) as [pos|]; simpl; [|reflexivity].
  destruct (String.eqb pos "FB") eqn:E; simpl; [|reflexivity].
  apply String.eqb_eq in E. subst pos. reflexivity.
Qed.

Lemma non_skill_without_fullbacks (tri_data : list Tri.row) :
  non_skill_pos_data (without_fullbacks tri_data) = non_skill_pos_data tri_data.
Proof.
  unfold non_skill_pos_data. rewrite unconventional_without_fullbacks.
  reflexivity.
Qed.

Lemma output_filter_without_fullbacks (tri_data : list Tri.row) :
  filter (fun r => Cell.isin (Fixed.position r) output_positions)
         (map Fixed.of_tri (without_fullbacks tri_data))
  = filter (fun r => Cell.isin (Fixed.position r) output_positions)
           (map Fixed.of_tri tri_data).
Proof.
  unfold without_fullbacks.
  induction tri_data as [|t l IH]; [reflexivity|].
  destruct t as [? ? ? ? ? ? ? ? ? ? [pos|]]; cbn [filter map Tri.position
    Cell.eq_str negb Fixed.of_tri Fixed.position].
  - destruct (String.eqb pos "FB") eqn:E; cbn [negb map filter Fixed.of_tri
      Fixed.position Tri.position].
    + apply String.eqb_eq in E. subst pos.
      change (Cell.isin (Some "FB") output_positions) with false.
      cbv iota. exact IH.
    + rewrite IH. reflexivity.
  - change (Cell.isin None output_positions) with false. cbv iota. exact IH.
Qed.

(** The rows of fullbacks reach no row of the table: the table of the
    attributed rows is the table of the attributed rows without them. *)
Lemma aggregate_without_fullbacks (tri_data : list Tri.row) :
  position_sums (without_fullbacks tri_data) = position_sums tri_data.
Proof.
  unfold position_sums. f_equal. f_equal.
  unfold fixed_data_of, loc_position_assign.
  rewrite non_skill_without_fullbacks.
  rewrite <- !app_assoc. rewrite !filter_app.
  rewrite output_filter_without_fullbacks. reflexivity.
Qed.

(** C1 (what the code does). In the sample season the fullback F has an
    attributed row with 3 standard points for week 1, NE against MIA. The
    assignment through [.loc] adds a null row and leaves the position of
    F's row at FB; the table has no row of position FB, and its RB row for
    that game holds the 8 points of the running back A alone, not 11. In
    the season whose one attributed row is F's, the table is empty. *)
Theorem fullback_row_is_dropped :
  In Sample.fullback_row
     (attributed (get_players Sample.kept_pbp_2021) Sample.stats_2021
        Sample.lookup_2021)
  /\ loc_position_assign [Fixed.of_tri Sample.fullback_row]
     = [Fixed.of_tri Sample.fullback_row; Fixed.all_null]
  /\ fst (get_fpa_by_position 2021 Sample.season_2021) = Ok Sample.table_2021
  /\ (forall row, In row Sample.table_2021 ->
        Fpa.position row <> Some "FB"
        /\ (Fpa.position row = Some "RB" -> Fpa.fantasy_points row = 8%Q))
  /\ get_fpa_by_position 2021 Sample.fullback_only
     = (Ok [], to_pickle 2021 [] Sample.fullback_only).
Proof.
  split; [vm_compute; tauto|]. split; [reflexivity|].
  split; [vm_compute; reflexivity|]. split.
  - intros row Hrow. simpl in Hrow.
    destruct Hrow as [<-|[<-|[]]]; simpl; split;
      solve [discriminate | reflexivity].
  - rewrite (get_fpa_by_position_miss 2021 Sample.fullback_only
               [Sample.rush 2 1 "F" "00-2" (Some "NE") (Some "MIA")]
               [Stats.mk (Some "00-2") (Some 1) (Some 3%Q) (Some 4%Q)]
               [Roster.mk (Some "00-2") (Some 2021) (Some "FB")]);
      try (vm_compute; reflexivity).
    vm_compute. discriminate.
Qed.

(** ** The cache *)

Lemma get_two_year_roster_data_Failed (year : Z) (w : World) :
  get_two_year_roster_data year w = Failed <->
  get_roster_data year w = Failed \/ get_roster_data (year - 1) w = Failed.
Proof.
  unfold get_two_year_roster_data.
  destruct (get_roster_data year w); simpl.
  - destruct (get_roster_data (year - 1) w); simpl.
    + split; [discriminate | intros [H|H]; discriminate].
    + tauto.
  - tauto.
Qed.

Lemma to_pickle_same (year : Z) (t : list Fpa.row) (w : World) :
  fpa_pickle (to_pickle year t w) year = Some t.
Proof. simpl. rewrite Z.eqb_refl. reflexivity. Qed.

Lemma to_pickle_other (year y : Z) (t : list Fpa.row) (w : World) :
  y <> year -> fpa_pickle (to_pickle year t w) y = fpa_pickle w y.
Proof.
  intros H. simpl. destruct (Z.eqb y year) eqn:E; [|reflexivity].
  apply Z.eqb_eq in E. contradiction.
Qed.

(** C9, as stated, fails. [season_2021] on a machine without the
    [cache/] directory: the season has no pickle and every fetch succeeds,
    the table is computed, and the write of the pickle raises. The call
    fails, returns no table and leaves no pickle. *)
Lemma get_fpa_by_position_without_cache_dir_counterexample :
  fpa_pickle Sample.season_2021_no_cache_dir 2021 = None
  /\ get_pbp_data 2021 Sample.season_2021_no_cache_dir = Ok Sample.kept_pbp_2021
  /\ get_player_stats_data 2021 Sample.season_2021_no_cache_dir
     = Ok Sample.stats_2021
  /\ get_roster_data 2021 Sample.season_2021_no_cache_dir = Ok Sample.roster_2021
  /\ get_roster_data (2021 - 1) Sample.season_2021_no_cache_dir
     = Ok Sample.roster_2020
  /\ compute_fpa 2021 Sample.season_2021_no_cache_dir = Ok Sample.table_2021
  /\ get_fpa_by_position 2021 Sample.season_2021_no_cache_dir
     = (Failed, Sample.season_2021_no_cache_dir)
  /\ ~ (exists table,
          fst (get_fpa_by_position 2021 Sample.season_2021_no_cache_dir)
          = Ok table
          /\ fpa_pickle
               (snd (get_fpa_by_position 2021 Sample.season_2021_no_cache_dir))
               2021 = Some table).
Proof.
  split; [reflexivity|]. split; [vm_compute; reflexivity|].
  split; [reflexivity|]. split; [reflexivity|]. split; [reflexivity|].
  split; [vm_compute; reflexivity|]. split; [vm_compute; reflexivity|].
  intros [table [Ht _]]. vm_compute in Ht. discriminate.
Qed.

(** C9, amended. A season whose pickle exists: the call returns the
    pickle's table as it is and leaves the world as it was, whatever the
    other files and the archives hold (nothing is fetched or computed). A
    season whose pickle is absent, whose fetches all succeed, whose
    attributed frame has a row, in a world that has [cache/]: the call
    returns the table computed from what was fetched, and the world it
    leaves has that table as the season's pickle and is otherwise as
    before. A season whose pickle is absent and one of whose fetches
    fails, or whose world has no [cache/]: the call fails. And whenever
    the call fails it leaves the world as it was. *)
Theorem get_fpa_by_position_cache_discipline (year : Z) (w : World) :
  (forall cached, fpa_pickle w year = Some cached ->
     get_fpa_by_position year w = (Ok cached, w))
  /\ (forall data stats cur prev,
        fpa_pickle w year = None ->
        get_pbp_data year w = Ok data ->
        get_player_stats_data year w = Ok stats ->
        get_roster_data year w = Ok cur ->
        get_roster_data (year - 1) w = Ok prev ->
        let tri_data :=
          attributed (get_players data) stats (two_year_roster cur prev) in
        tri_data <> [] ->
        cache_dir w = true ->
        let table := position_sums tri_data in
        let w' := snd (get_fpa_by_position year w) in
        fst (get_fpa_by_position year w) = Ok table
        /\ fpa_pickle w' year = Some table
        /\ (forall y, y <> year -> fpa_pickle w' y = fpa_pickle w y)
        /\ cache_dir w' = cache_dir w
        /\ pbp_csv w' = pbp_csv w /\ pbp_remote w' = pbp_remote w
        /\ roster_csv w' = roster_csv w /\ roster_remote w' = roster_remote w
        /\ stats_csv w' = stats_csv w /\ stats_remote w' = stats_remote w)
  /\ (fpa_pickle w year = None ->
      get_pbp_data year w = Failed
      \/ get_player_stats_data year w = Failed
      \/ get_roster_data year w = Failed
      \/ get_roster_data (year - 1) w = Failed
      \/ cache_dir w = false ->
      get_fpa_by_position year w = (Failed, w))
  /\ (fst (get_fpa_by_position year w) = Failed ->
      snd (get_fpa_by_position year w) = w).
Proof.
  split; [|split; [|split]].
  - intros cached Hc. unfold get_fpa_by_position. rewrite Hc. reflexivity.
  - intros data stats cur prev Hc Hd Hs Hcur Hprev tri_data Hne Hdir table w'.
    assert (Hr : get_two_year_roster_data year w = Ok (two_year_roster cur prev)).
    { unfold get_two_year_roster_data. rewrite Hcur, Hprev. reflexivity. }
    subst w'.
    rewrite (get_fpa_by_position_miss year w data stats _ Hc Hd Hs Hr Hne Hdir).
    cbn [fst snd]. fold tri_data. fold table.
    split; [reflexivity|]. split; [apply to_pickle_same|].
    split; [intros y Hy; apply to_pickle_other; exact Hy|].
    repeat split.
  - intros Hc Hfail. unfold get_fpa_by_position. rewrite Hc.
    destruct Hfail as [H|[H|[H|[H|H]]]].
    + rewrite (compute_fpa_fetch_Failed year w); [reflexivity | tauto].
    + rewrite (compute_fpa_fetch_Failed year w); [reflexivity | tauto].
    + rewrite (compute_fpa_fetch_Failed year w); [reflexivity|].
      right. right. apply get_two_year_roster_data_Failed. tauto.
    + rewrite (compute_fpa_fetch_Failed year w); [reflexivity|].
      right. right. apply get_two_year_roster_data_Failed. tauto.
    + rewrite H. destruct (compute_fpa year w); reflexivity.
  - apply get_fpa_by_position_Failed.
Qed.

Lemma get_fpa_by_position_cache_discipline_witness :
  get_fpa_by_position 2021 Sample.pickled_2021
  = (Ok Sample.table_2021, Sample.pickled_2021)
  /\ (fst (get_fpa_by_position 2021 Sample.season_2021) = Ok Sample.table_2021
      /\ fpa_pickle (snd (get_fpa_by_position 2021 Sample.season_2021)) 2021
         = Some Sample.table_2021)
  /\ get_fpa_by_position 2021 Sample.season_2021_no_stats
     = (Failed, Sample.season_2021_no_stats)
  /\ get_fpa_by_position 2021 Sample.season_2021_no_cache_dir
     = (Failed, Sample.season_2021_no_cache_dir)
  /\ snd (get_fpa_by_position 2021 Sample.season_2021_empty_stats)
     = Sample.season_2021_empty_stats.
Proof.
  split; [|split; [|split; [|split]]].
  - apply (proj1 (get_fpa_by_position_cache_discipline 2021 Sample.pickled_2021)).
    reflexivity.
  - assert (Hd : get_pbp_data 2021 Sample.season_2021 = Ok Sample.kept_pbp_2021).
    { vm_compute. reflexivity. }
    assert (Hne : attributed (get_players Sample.kept_pbp_2021) Sample.stats_2021
                    (two_year_roster Sample.roster_2021 Sample.roster_2020)
                  <> []).
    { vm_compute. discriminate. }
    pose proof (proj1 (proj2 (get_fpa_by_position_cache_discipline
                                2021 Sample.season_2021))
                  Sample.kept_pbp_2021 Sample.stats_2021
                  Sample.roster_2021 Sample.roster_2020
                  eq_refl Hd eq_refl eq_refl eq_refl Hne eq_refl) as H.
    cbv zeta in H. destruct H as [Ht [Hp _]].
    split; [rewrite Ht | rewrite Hp]; vm_compute; reflexivity.
  - apply (proj1 (proj2 (proj2 (get_fpa_by_position_cache_discipline
                                  2021 Sample.season_2021_no_stats)))).
    + reflexivity.
    + right. left. reflexivity.
  - apply (proj1 (proj2 (proj2 (get_fpa_by_position_cache_discipline
                                  2021 Sample.season_2021_no_cache_dir)))).
    + reflexivity.
    + right. right. right. right. reflexivity.
  - apply (proj2 (proj2 (proj2 (get_fpa_by_position_cache_discipline
                                  2021 Sample.season_2021_empty_stats)))).
    vm_compute. reflexivity.
Defined.

(** A pickle is returned though nothing could be fetched; a failing
    statistics archive fails the call, the world unchanged; the season
    read from the csv files of [cache/] gives the table of the season read
    from the archives. *)
Example get_fpa_by_position_cache_samples :
  get_fpa_by_position 2021 Sample.pickled_2021
  = (Ok Sample.table_2021, Sample.pickled_2021)
  /\ compute_fpa 2021 Sample.pickled_2021 = Failed
  /\ get_fpa_by_position 2021 Sample.season_2021_no_stats
     = (Failed, Sample.season_2021_no_stats)
  /\ fpa_pickle (snd (get_fpa_by_position 2021 Sample.season_2021)) 2021
     = Some Sample.table_2021
  /\ fst (get_fpa_by_position 2021 Sample.season_2021_offline)
     = Ok Sample.table_2021.
Proof. repeat split; vm_compute; reflexivity. Qed.

(* ================================================================= *)
(** * Further properties of the code *)

(** ** Columns, dictionaries and loops *)

Lemma In_remove_iff {A} (dec : forall x y : A, {x = y} + {x <> y})
  (x y : A) (l : list A) :
  In x (remove dec y l) <-> In x l /\ x <> y.
Proof.
  split.
  - apply in_remove.
  - intros [Hin Hne]. apply in_in_remove; assumption.
Qed.

Lemma NoDup_remove_elt {A} (dec : forall x y : A, {x = y} + {x <> y})
  (y : A) (l : list A) : NoDup l -> NoDup (remove dec y l).
Proof.
  induction l as [|x l IH]; intros H; simpl; [constructor|].
  inversion H as [|? ? Hx Hl]; subst.
  destruct (dec y x); [apply IH; exact Hl|].
  constructor; [|apply IH; exact Hl].
  intros Hin. apply In_remove_iff in Hin. tauto.
Qed.

Lemma In_unique {A} (dec : forall x y : A, {x = y} + {x <> y})
  (col : list A) (x : A) : In x (unique dec col) <-> In x col.
Proof.
  induction col as [|y col IH]; simpl; [reflexivity|].
  rewrite In_remove_iff, IH.
  destruct (dec x y) as [e|n]; [subst; tauto|].
  split; [intros [H|[H _]]; [congruence | tauto] | intros [H|H]; [congruence | tauto]].
Qed.

Lemma NoDup_unique {A} (dec : forall x y : A, {x = y} + {x <> y})
  (col : list A) : NoDup (unique dec col).
Proof.
  induction col as [|y col IH]; simpl; constructor.
  - intros Hin. apply In_remove_iff in Hin. tauto.
  - apply NoDup_remove_elt. exact IH.
Qed.

Section DictFacts.

Variables K V : Type.
Variable K_dec : forall x y : K, {x = y} + {x <> y}.

Lemma dict_get_set_same (k : K) (v : V) (d : list (K * V)) :
  Dict.get K_dec k (Dict.set K_dec k v d) = Some v.
Proof.
  induction d as [|[k' v'] d IH]; simpl.
  - destruct (K_dec k k); congruence.
  - destruct (K_dec k k') as [e|n]; simpl.
    + destruct (K_dec k k); congruence.
    + destruct (K_dec k k'); [contradiction | exact IH].
Qed.

Lemma dict_get_set_other (k k0 : K) (v : V) (d : list (K * V)) :
  k0 <> k -> Dict.get K_dec k0 (Dict.set K_dec k v d) = Dict.get K_dec k0 d.
Proof.
  intros Hne. induction d as [|[k' v'] d IH]; simpl.
  - destruct (K_dec k0 k); [contradiction | reflexivity].
  - destruct (K_dec k k') as [e|n]; simpl.
    + subst k'. destruct (K_dec k0 k); [contradiction | reflexivity].
    + destruct (K_dec k0 k'); [reflexivity | exact IH].
Qed.

Lemma dict_get_In (k : K) (d : list (K * V)) :
  In k (map fst d) -> exists v, Dict.get K_dec k d = Some v /\ In (k, v) d.
Proof.
  induction d as [|[k' v'] d IH]; simpl; [contradiction|].
  intros H. destruct (K_dec k k') as [e|n].
  - subst k'. exists v'. auto.
  - destruct H as [H|H]; [congruence|].
    destruct (IH H) as [v [Hg Hin]]. exists v. auto.
Qed.

Lemma dict_get_absent (k : K) (d : list (K * V)) :
  ~ In k (map fst d) -> Dict.get K_dec k d = None.
Proof.
  induction d as [|[k' v'] d IH]; simpl; [reflexivity|].
  intros H. destruct (K_dec k k') as [e|n].
  - exfalso. apply H. left. congruence.
  - apply IH. tauto.
Qed.

Lemma dict_get_unique (k : K) (v : V) (d : list (K * V)) :
  NoDup (map fst d) -> In (k, v) d -> Dict.get K_dec k d = Some v.
Proof.
  induction d as [|[k' v'] d IH]; simpl; [contradiction|].
  intros Hnd [H|H].
  - inversion H; subst. destruct (K_dec k k); congruence.
  - inversion Hnd as [|? ? Hk Hd]; subst.
    destruct (K_dec k k') as [e|n].
    + exfalso. apply Hk. subst k'.
      apply (in_map fst) in H. exact H.
    + apply IH; assumption.
Qed.

End DictFacts.

Lemma mapM_Ok {A B} (f : A -> result B) (l : list A) (ys : list B) :
  mapM f l = Ok ys <-> Forall2 (fun x y => f x = Ok y) l ys.
Proof.
  revert ys. induction l as [|x l IH]; intros ys; simpl.
  - split.
    + intros H. inversion H. constructor.
    + intros H. inversion H. reflexivity.
  - destruct (f x) as [y|] eqn:Ex; simpl.
    + destruct (mapM f l) as [zs|] eqn:El; simpl.
      * split.
        -- intros H. inversion H; subst. constructor; [exact Ex|].
           apply IH. reflexivity.
        -- intros H. inversion H as [|? y' ? zs' Hy Hzs]; subst.
           apply IH in Hzs. congruence.
      * split; [discriminate|].
        intros H. inversion H as [|? y' ? zs' Hy Hzs]; subst.
        apply IH in Hzs. discriminate.
    + split; [discriminate|].
      intros H. inversion H as [|? y' ? zs' Hy Hzs]; subst. congruence.
Qed.

Lemma mapM_Failed {A B} (f : A -> result B) (l : list A) :
  mapM f l = Failed <-> exists x, In x l /\ f x = Failed.
Proof.
  induction l as [|x l IH]; simpl.
  - split; [discriminate | intros [x [[] _]]].
  - destruct (f x) as [y|] eqn:Ex; simpl.
    + destruct (mapM f l) as [zs|] eqn:El; simpl.
      * split; [discriminate|].
        intros [z [[Hz|Hz] Hf]]; [congruence|].
        assert (H : Ok zs = @Failed (list B)) by (apply IH; eauto).
        discriminate.
      * split; [|reflexivity]. intros _.
        destruct (proj1 IH eq_refl) as [z [Hz Hf]]. eauto.
    + split; [|reflexivity]. intros _. eauto.
Qed.

(** ** The final week *)

Lemma maxZ_present (col : list (option Z)) :
  col <> [] -> forallb Cell.notna col = true ->
  exists m, Cell.maxZ col = Some m.
Proof.
  destruct col as [|c col]; [congruence|]. intros _ H.
  simpl in H. apply andb_true_iff in H. destruct H as [Hc _].
  destruct c as [a|]; [|discriminate].
  rewrite maxZ_cons. destruct (Cell.maxZ col); eauto.
Qed.

Lemma int_max_Ok (col : list (option Z)) (m : Z) :
  int_max col = Ok m <->
  ~ In None col /\ In (Some m) col /\ (forall s, In (Some s) col -> s <= m).
Proof.
  unfold int_max. destruct col as [|c col].
  - split; [discriminate | intros [_ [[] _]]].
  - destruct (forallb Cell.notna (c :: col)) eqn:E.
    + assert (Hnone : ~ In None (c :: col)).
      { intros Hin. rewrite forallb_forall in E. specialize (E None Hin).
        discriminate. }
      destruct (maxZ_present (c :: col)) as [x Hx]; [discriminate | exact E |].
      rewrite Hx. split.
      * intros H. inversion H; subst. apply maxZ_Some in Hx. tauto.
      * intros [_ H]. apply maxZ_Some in H. congruence.
    + split; [discriminate|]. intros [Hnone _]. exfalso.
      assert (H : forallb Cell.notna (c :: col) = true).
      { apply forallb_forall. intros [a|] Ha; [reflexivity|].
        exfalso. exact (Hnone Ha). }
      congruence.
Qed.

Lemma int_max_Failed (col : list (option Z)) :
  int_max col = Failed <-> col = [] \/ In None col.
Proof.
  unfold int_max. destruct col as [|c col]; [tauto|].
  destruct (forallb Cell.notna (c :: col)) eqn:E.
  - destruct (maxZ_present (c :: col)) as [x Hx]; [discriminate | exact E |].
    rewrite Hx. split; [discriminate|].
    intros [H|H]; [discriminate|].
    rewrite forallb_forall in E. specialize (E None H). discriminate.
  - split; [|reflexivity]. intros _. right.
    destruct (in_dec Cell.oZ_dec None (c :: col)) as [H|H]; [exact H|].
    exfalso.
    assert (H' : forallb Cell.notna (c :: col) = true).
    { apply forallb_forall. intros [a|] Ha; [reflexivity|].
      exfalso. exact (H Ha). }
    congruence.
Qed.

Lemma In_week (table : list Fpa.row) (c : option Z) :
  In c (unique Cell.oZ_dec (map Fpa.week table))
  <-> exists r, In r table /\ Fpa.week r = c.
Proof.
  rewrite In_unique, in_map_iff. split; intros [r H]; exists r; tauto.
Qed.

(** X1. The final week of a table is its greatest week; a table without rows
    or with a null week has none: the call raises. *)
Theorem final_week_of_greatest_or_fails (table : list Fpa.row) :
  (forall m, final_week_of table = Ok m <->
     (forall r, In r table -> Fpa.week r <> None)
     /\ (exists r, In r table /\ Fpa.week r = Some m)
     /\ (forall r wk, In r table -> Fpa.week r = Some wk -> wk <= m))
  /\ (final_week_of table = Failed <->
      table = [] \/ exists r, In r table /\ Fpa.week r = None).
Proof.
  unfold final_week_of. split.
  - intros m. rewrite int_max_Ok. split.
    + intros [Hnone [Hm Hle]]. split; [|split].
      * intros r Hr Hw. apply Hnone. apply In_week. eauto.
      * apply In_week. exact Hm.
      * intros r wk Hr Hw. apply Hle. apply In_week. eauto.
    + intros [Hnone [Hm Hle]]. split; [|split].
      * intros Hin. apply In_week in Hin. destruct Hin as [r [Hr Hw]].
        exact (Hnone r Hr Hw).
      * apply In_week. exact Hm.
      * intros s Hs. apply In_week in Hs. destruct Hs as [r [Hr Hw]]. eauto.
  - rewrite int_max_Failed. split.
    + intros [H|H]; [left | right; apply In_week; exact H].
      destruct table as [|r table]; [reflexivity | discriminate].
    + intros [->|H]; [left; reflexivity | right; apply In_week; exact H].
Qed.

(** ** The teams *)

(** X2. [get_teams] lists every defense of the table once. *)
Theorem teams_of_each_once (table : list Fpa.row) :
  NoDup (teams_of table)
  /\ (forall t, In t (teams_of table)
                <-> exists r, In r table /\ Fpa.defteam r = t).
Proof.
  unfold teams_of. split; [apply NoDup_unique|].
  intros t. rewrite In_unique, in_map_iff.
  split; intros [r H]; exists r; tauto.
Qed.

(** ** [get_fpa_data] *)

Lemma present_map_Some {A} (f : A -> Q) (l : list A) :
  Num.present (map (fun r => Some (f r)) l) = map f l.
Proof. induction l as [|x l IH]; simpl; [reflexivity | rewrite IH; reflexivity]. Qed.

Lemma mean_of_values {A} (f : A -> Q) (l : list A) :
  l <> [] -> exists a, Num.mean (map (fun r => Some (f r)) l) = Some a.
Proof.
  intros Hl. unfold Num.mean. rewrite present_map_Some.
  destruct l as [|x l]; [congruence|]. simpl. eauto.
Qed.

Lemma map_filter_through {A B C} (g : A -> B) (f : B -> C) (p : B -> bool)
  (l : list A) :
  map (fun x => f (g x)) (filter (fun x => p (g x)) l)
  = map f (filter p (map g l)).
Proof.
  induction l as [|x l IH]; simpl; [reflexivity|].
  destruct (p (g x)); simpl; rewrite IH; reflexivity.
Qed.

Lemma opp_avg_d_keys (fpa_data : list Fpa.row) :
  map fst (opp_avg_d fpa_data)
  = filter Cell.notna
      (group_keys Cell.ostring_dec Cell.ostring_leb Fpa.posteam fpa_data).
Proof.
  unfold opp_avg_d. rewrite map_map. simpl.
  rewrite <- groupby_keys.
  generalize (groupby Cell.ostring_dec Cell.ostring_leb Fpa.posteam fpa_data).
  intros l. induction l as [|g l IH]; simpl; [reflexivity|].
  destruct (Cell.notna (fst g)); simpl; rewrite IH; reflexivity.
Qed.

Lemma NoDup_filter {A} (f : A -> bool) (l : list A) :
  NoDup l -> NoDup (filter f l).
Proof.
  intros H. rewrite <- (map_id (filter f l)).
  apply NoDup_map_filter. rewrite map_id. exact H.
Qed.

Lemma opp_avg_d_get (fpa_data : list Fpa.row) (r : Fpa.row) (t : string) :
  In r fpa_data -> Fpa.posteam r = Some t ->
  Dict.get Cell.ostring_dec (Some t) (opp_avg_d fpa_data)
  = Some (snd (opp_avg_build
                 (Some t, group_rows Cell.ostring_dec Fpa.posteam fpa_data (Some t)))).
Proof.
  intros Hr Ht. apply dict_get_unique.
  - rewrite opp_avg_d_keys. apply NoDup_filter. apply NoDup_group_keys.
  - unfold opp_avg_d.
    change (Some t, snd (opp_avg_build
              (Some t, group_rows Cell.ostring_dec Fpa.posteam fpa_data (Some t))))
      with (opp_avg_build
              (Some t, group_rows Cell.ostring_dec Fpa.posteam fpa_data (Some t))).
    apply (in_map opp_avg_build). apply filter_In. split; [|reflexivity].
    apply In_groupby. simpl. split; [|reflexivity].
    rewrite <- Ht. apply in_map. exact Hr.
Qed.

Lemma opp_avg_d_get_null (fpa_data : list Fpa.row) :
  Dict.get Cell.ostring_dec None (opp_avg_d fpa_data) = None.
Proof.
  apply dict_get_absent. rewrite opp_avg_d_keys.
  intros H. apply filter_In in H. destruct H as [_ H]. discriminate.
Qed.

Lemma add_opp_avg_Ok (fpa_data : list Fpa.row) (r : Fpa.row) (x : FpaData.row) :
  In r fpa_data ->
  add_opp_avg (opp_avg_d fpa_data) r = Ok x ->
  FpaData.base x = r
  /\ exists t, Fpa.posteam r = Some t
     /\ FpaData.opp_avg x
        = Num.mean (map (fun y => Some (Fpa.fantasy_points y))
                      (group_rows Cell.ostring_dec Fpa.posteam fpa_data (Some t)))
     /\ FpaData.opp_avg_ppr x
        = Num.mean (map (fun y => Some (Fpa.fantasy_points_ppr y))
                      (group_rows Cell.ostring_dec Fpa.posteam fpa_data (Some t))).
Proof.
  intros Hr. unfold add_opp_avg.
  destruct (Fpa.posteam r) as [t|] eqn:Et.
  - rewrite (opp_avg_d_get fpa_data r t Hr Et). simpl.
    intros H. inversion H; subst x. split.
    + destruct r. reflexivity.
    + exists t. split; [reflexivity|]. split; reflexivity.
  - rewrite opp_avg_d_get_null. discriminate.
Qed.

Lemma add_opp_avg_Failed (fpa_data : list Fpa.row) (r : Fpa.row) :
  In r fpa_data ->
  add_opp_avg (opp_avg_d fpa_data) r = Failed <-> Fpa.posteam r = None.
Proof.
  intros Hr. unfold add_opp_avg.
  destruct (Fpa.posteam r) as [t|] eqn:Et.
  - rewrite (opp_avg_d_get fpa_data r t Hr Et). split; discriminate.
  - rewrite opp_avg_d_get_null. tauto.
Qed.

Lemma Forall2_base (fpa_data sel : list Fpa.row) (fd : list FpaData.row) :
  incl sel fpa_data ->
  Forall2 (fun r x => add_opp_avg (opp_avg_d fpa_data) r = Ok x) sel fd ->
  map FpaData.base fd = sel.
Proof.
  intros Hincl H. induction H as [|r x sel fd Hx _ IH]; [reflexivity|].
  simpl. f_equal.
  - apply (add_opp_avg_Ok fpa_data r x); [apply Hincl; left; reflexivity | exact Hx].
  - apply IH. intros y Hy. apply Hincl. right. exact Hy.
Qed.

Lemma Forall2_In_r {A B} (P : A -> B -> Prop) (l : list A) (l' : list B) (y : B) :
  Forall2 P l l' -> In y l' -> exists x, In x l /\ P x y.
Proof.
  intros H. induction H as [|a b l l' Hab _ IH]; simpl; [contradiction|].
  intros [<-|Hy]; [eauto|]. destruct (IH Hy) as [x [Hx Hp]]. eauto.
Qed.

(** What a successful [get_fpa_data] is made of. *)
Lemma fpa_data_of_Ok (table : list Fpa.row) (pos : string)
  (inc : list string) (fd : list FpaData.row) :
  fpa_data_of table pos inc = Ok fd <->
  exists max_week,
    final_week_of table = Ok max_week
    /\ Forall2 (fun r x =>
                  add_opp_avg
                    (opp_avg_d (filter (selected pos (truthy inc) max_week) table))
                    r = Ok x)
               (filter (selected pos (truthy inc) max_week) table) fd.
Proof.
  unfold fpa_data_of. destruct (final_week_of table) as [mw|]; simpl.
  - rewrite mapM_Ok. split.
    + intros H. exists mw. auto.
    + intros [mw' [E H]]. inversion E; subst. exact H.
  - split; [discriminate | intros [mw [E _]]; discriminate].
Qed.

Lemma selected_spec (pos : string) (b : bool) (mw : Z) (r : Fpa.row) :
  selected pos b mw r = true <->
  Fpa.position r = Some pos /\ (b = true \/ Fpa.week r <> Some mw).
Proof.
  unfold selected. rewrite andb_true_iff, orb_true_iff, negb_true_iff.
  assert (Hp : Cell.eq_str (Fpa.position r) pos = true
               <-> Fpa.position r = Some pos).
  { destruct (Fpa.position r) as [p|]; simpl.
    - rewrite String.eqb_eq. split; congruence.
    - split; discriminate. }
  assert (Hw : Cell.eqZ (Fpa.week r) (Some mw) = false
               <-> Fpa.week r <> Some mw).
  { destruct (Fpa.week r) as [wk|]; simpl.
    - rewrite Z.eqb_neq. split; congruence.
    - split; [discriminate | reflexivity]. }
  rewrite Hp, Hw. reflexivity.
Qed.

(** X3. [get_fpa_data] keeps the table's rows of the position, without those
    of the final week unless the box is ticked, in table order and with
    their columns as they are; each has an offense. *)
Theorem fpa_data_of_selects (table : list Fpa.row) (pos : string)
  (include_final_week : list string) (fpa_data : list FpaData.row) :
  fpa_data_of table pos include_final_week = Ok fpa_data ->
  exists max_week,
    final_week_of table = Ok max_week
    /\ map FpaData.base fpa_data
       = filter (selected pos (truthy include_final_week) max_week) table
    /\ (forall x, In x fpa_data ->
          FpaData.position x = Some pos
          /\ FpaData.posteam x <> None
          /\ (include_final_week = [] -> FpaData.week x <> Some max_week))
    /\ (forall r, In r table -> Fpa.position r = Some pos ->
          include_final_week <> [] \/ Fpa.week r <> Some max_week ->
          In r (map FpaData.base fpa_data)).
Proof.
  intros H. apply fpa_data_of_Ok in H. destruct H as [mw [Hmw HF]].
  exists mw. split; [exact Hmw|].
  assert (Hbase : map FpaData.base fpa_data
                  = filter (selected pos (truthy include_final_week) mw) table).
  { apply (Forall2_base _ _ _ (incl_refl _) HF). }
  split; [exact Hbase|]. split.
  - intros x Hx.
    destruct (Forall2_In_r _ _ _ x HF Hx) as [r [Hr Hadd]].
    destruct (add_opp_avg_Ok _ r x Hr Hadd) as [Hb [t [Ht _]]].
    apply filter_In in Hr. destruct Hr as [_ Hsel].
    apply selected_spec in Hsel. destruct Hsel as [Hpos Hwk].
    rewrite <- Hb in Hpos, Ht, Hwk. simpl in Hpos, Ht, Hwk.
    split; [exact Hpos|]. split; [congruence|].
    intros Hinc. subst include_final_week. simpl in Hwk.
    destruct Hwk as [Hwk|Hwk]; [discriminate | exact Hwk].
  - intros r Hr Hpos Hwk. rewrite Hbase. apply filter_In.
    split; [exact Hr|]. apply selected_spec. split; [exact Hpos|].
    destruct Hwk as [Hinc|Hwk]; [left | right; exact Hwk].
    destruct include_final_week; [congruence | reflexivity].
Qed.

(** X4. The opponent average of a row is the mean of the standard (resp. PPR)
    points of the returned rows of the same offense, the row itself among
    them, and is never NaN. *)
Theorem opp_avg_is_offense_mean (table : list Fpa.row) (pos : string)
  (include_final_week : list string) (fpa_data : list FpaData.row) :
  fpa_data_of table pos include_final_week = Ok fpa_data ->
  forall x, In x fpa_data ->
    let same_offense :=
      filter (fun y => if Cell.ostring_dec (FpaData.posteam y) (FpaData.posteam x)
                       then true else false) fpa_data in
    In x same_offense
    /\ FpaData.opp_avg x
       = Num.mean (map (fun y => Some (FpaData.fantasy_points y)) same_offense)
    /\ FpaData.opp_avg_ppr x
       = Num.mean (map (fun y => Some (FpaData.fantasy_points_ppr y)) same_offense)
    /\ FpaData.opp_avg x <> None
    /\ FpaData.opp_avg_ppr x <> None.
Proof.
  intros H x Hx same_offense.
  apply fpa_data_of_Ok in H. destruct H as [mw [_ HF]].
  pose proof (Forall2_base _ _ _ (incl_refl _) HF) as Hbase.
  destruct (Forall2_In_r _ _ _ x HF Hx) as [r [Hr Hadd]].
  destruct (add_opp_avg_Ok _ r x Hr Hadd) as [Hb [t [Ht [Ha Hp]]]].
  assert (Hxt : FpaData.posteam x = Some t).
  { rewrite <- Hb in Ht. exact Ht. }
  assert (Hin : In x same_offense).
  { apply filter_In. split; [exact Hx|].
    destruct (Cell.ostring_dec _ _); congruence. }
  assert (Hfp : map (fun y => Some (FpaData.fantasy_points y)) same_offense
                = map (fun y => Some (Fpa.fantasy_points y))
                    (group_rows Cell.ostring_dec Fpa.posteam
                       (filter (selected pos (truthy include_final_week) mw) table)
                       (Some t))).
  { unfold same_offense, group_rows. rewrite <- Hbase, Hxt.
    apply (map_filter_through FpaData.base
             (fun y => Some (Fpa.fantasy_points y))
             (fun y => if Cell.ostring_dec (Fpa.posteam y) (Some t)
                       then true else false)). }
  assert (Hppr : map (fun y => Some (FpaData.fantasy_points_ppr y)) same_offense
                 = map (fun y => Some (Fpa.fantasy_points_ppr y))
                     (group_rows Cell.ostring_dec Fpa.posteam
                        (filter (selected pos (truthy include_final_week) mw) table)
                        (Some t))).
  { unfold same_offense, group_rows. rewrite <- Hbase, Hxt.
    apply (map_filter_through FpaData.base
             (fun y => Some (Fpa.fantasy_points_ppr y))
             (fun y => if Cell.ostring_dec (Fpa.posteam y) (Some t)
                       then true else false)). }
  assert (Hne : same_offense <> []).
  { intros E. rewrite E in Hin. exact Hin. }
  split; [exact Hin|].
  split; [rewrite Hfp; exact Ha|]. split; [rewrite Hppr; exact Hp|].
  split.
  - rewrite Ha, <- Hfp.
    destruct (mean_of_values FpaData.fantasy_points same_offense Hne) as [a ->].
    discriminate.
  - rewrite Hp, <- Hppr.
    destruct (mean_of_values FpaData.fantasy_points_ppr same_offense Hne) as [a ->].
    discriminate.
Qed.

(** X5. [get_fpa_data] raises exactly when the table has no final week, or a
    row that it selects has a null offense: the group-by of the averages
    drops that offense, and the loop looks it up. *)
Theorem fpa_data_of_fails_iff (table : list Fpa.row) (pos : string)
  (include_final_week : list string) :
  fpa_data_of table pos include_final_week = Failed <->
  final_week_of table = Failed
  \/ exists max_week r,
       final_week_of table = Ok max_week
       /\ In r table
       /\ Fpa.position r = Some pos
       /\ (include_final_week <> [] \/ Fpa.week r <> Some max_week)
       /\ Fpa.posteam r = None.
Proof.
  unfold fpa_data_of. destruct (final_week_of table) as [mw|]; simpl.
  - rewrite mapM_Failed. split.
    + intros [r [Hr Hf]]. right. exists mw, r.
      apply add_opp_avg_Failed in Hf; [|exact Hr].
      apply filter_In in Hr. destruct Hr as [Hr Hsel].
      apply selected_spec in Hsel. destruct Hsel as [Hpos Hwk].
      split; [reflexivity|]. split; [exact Hr|]. split; [exact Hpos|].
      split; [|exact Hf].
      destruct Hwk as [Hb|Hwk]; [left | right; exact Hwk].
      destruct include_final_week; [discriminate | discriminate].
    + intros [H|[mw' [r [E [Hr [Hpos [Hwk Hnull]]]]]]]; [discriminate|].
      inversion E; subst mw'. exists r.
      assert (Hsel : In r (filter (selected pos (truthy include_final_week) mw)
                             table)).
      { apply filter_In. split; [exact Hr|]. apply selected_spec.
        split; [exact Hpos|].
        destruct Hwk as [Hinc|Hwk]; [left | right; exact Hwk].
        destruct include_final_week; [congruence | reflexivity]. }
      split; [exact Hsel|]. apply add_opp_avg_Failed; assumption.
  - split; [left; reflexivity | reflexivity].
Qed.

(** ** The bar chart *)

Lemma Qle_bool_total (x y : Q) : Qle_bool x y = true \/ Qle_bool y x = true.
Proof.
  rewrite !Qle_bool_iff.
  destruct (Qlt_le_dec x y) as [H|H]; [left; apply Qlt_le_weak; exact H | right; exact H].
Qed.

Lemma Num_leb_total (a b : option Q) : Num.leb a b = true \/ Num.leb b a = true.
Proof. apply opt_leb_total. exact Qle_bool_total. Qed.

Lemma sort_values_perm {R} (col : R -> option Q) (rows : list R) :
  Permutation rows (sort_values col rows).
Proof. apply sort_keys_perm. Qed.

Lemma sort_values_Sorted {R} (col : R -> option Q) (rows : list R) :
  Sorted (fun x y => Num.leb (col x) (col y) = true) (sort_values col rows).
Proof.
  apply sort_keys_Sorted. intros a b. apply Num_leb_total.
Qed.

Lemma filter_notna_keys {R} (key : R -> option string) (rows : list R) :
  map fst (filter (fun g => Cell.notna (fst g))
             (groupby Cell.ostring_dec Cell.ostring_leb key rows))
  = filter Cell.notna (group_keys Cell.ostring_dec Cell.ostring_leb key rows).
Proof.
  rewrite <- groupby_keys.
  generalize (groupby Cell.ostring_dec Cell.ostring_leb key rows).
  intros l. induction l as [|g l IH]; simpl; [reflexivity|].
  destruct (Cell.notna (fst g)); simpl; rewrite IH; reflexivity.
Qed.

Lemma barchart_unsorted_teams (fpa_data : list FpaData.row) :
  map Bar.defteam (barchart_unsorted fpa_data)
  = filter Cell.notna
      (group_keys Cell.ostring_dec Cell.ostring_leb FpaData.defteam fpa_data).
Proof.
  unfold barchart_unsorted. rewrite !map_map. simpl.
  apply filter_notna_keys.
Qed.

Lemma barchart_unsorted_NoDup (fpa_data : list FpaData.row) :
  NoDup (map Bar.defteam (barchart_unsorted fpa_data)).
Proof.
  rewrite barchart_unsorted_teams. apply NoDup_filter. apply NoDup_group_keys.
Qed.

Lemma barchart_unsorted_In (fpa_data : list FpaData.row) (t : option string) :
  In t (map Bar.defteam (barchart_unsorted fpa_data)) <->
  t <> None /\ exists x, In x fpa_data /\ FpaData.defteam x = t.
Proof.
  rewrite barchart_unsorted_teams, filter_In, In_group_keys, in_map_iff.
  rewrite notna_true. split.
  - intros [[x [Hx Hin]] Ht]. split; [exact Ht|]. eauto.
  - intros [Ht [x [Hin Hx]]]. split; [eauto | exact Ht].
Qed.

(** The rows of the frame of [get_def_avg_barchart_data], before or after
    the sort. *)
Lemma barchart_of_Ok (fpa_data : list FpaData.row) (ss gt : string)
  (df : list Bar.row) :
  barchart_of fpa_data ss gt = Ok df ->
  fpa_data <> [] /\ Permutation (barchart_unsorted fpa_data) df.
Proof.
  unfold barchart_of. destruct fpa_data as [|x fd]; [discriminate|].
  intros H. split; [discriminate|].
  destruct (sort_column ss gt) as [col|]; inversion H; subst.
  - apply sort_values_perm.
  - apply Permutation_refl.
Qed.

Lemma barchart_of_teams (fpa_data : list FpaData.row) (ss gt : string)
  (df : list Bar.row) :
  barchart_of fpa_data ss gt = Ok df ->
  NoDup (map Bar.defteam df)
  /\ (forall t, In t (map Bar.defteam df) <->
        t <> None /\ exists x, In x fpa_data /\ FpaData.defteam x = t).
Proof.
  intros H. apply barchart_of_Ok in H. destruct H as [_ Hperm].
  pose proof (Permutation_map Bar.defteam Hperm) as Hp. split.
  - eapply Permutation_NoDup; [exact Hp | apply barchart_unsorted_NoDup].
  - intros t. rewrite <- barchart_unsorted_In. split; intros Hin.
    + eapply Permutation_in; [apply Permutation_sym; exact Hp | exact Hin].
    + eapply Permutation_in; [exact Hp | exact Hin].
Qed.

Lemma barchart_unsorted_row (fpa_data : list FpaData.row) (row : Bar.row) :
  In row (barchart_unsorted fpa_data) ->
  let group :=
    group_rows Cell.ostring_dec FpaData.defteam fpa_data (Bar.defteam row) in
  Bar.fantasy_points row
  = Num.mean (map (fun x => Some (FpaData.fantasy_points x)) group)
  /\ Bar.fantasy_points_ppr row
     = Num.mean (map (fun x => Some (FpaData.fantasy_points_ppr x)) group)
  /\ Bar.opp_avg row = Num.mean (map FpaData.opp_avg group)
  /\ Bar.opp_avg_ppr row = Num.mean (map FpaData.opp_avg_ppr group).
Proof.
  unfold barchart_unsorted. intros H.
  apply in_map_iff in H. destruct H as [m [<- Hm]].
  apply in_map_iff in Hm. destruct Hm as [g [<- Hg]].
  apply filter_In in Hg. destruct Hg as [Hg _].
  apply In_groupby in Hg. destruct Hg as [_ Hrows].
  destruct g as [t rows]. simpl in *. subst rows. auto.
Qed.

(** X6. [get_def_avg_barchart_data] raises on the frame without rows. On any
    other it returns one row per defense of the frame, the null defense
    left out, and the row holds the means of the defense's rows. *)
Theorem barchart_of_one_row_per_defense (fpa_data : list FpaData.row)
  (scoring_system graph_type : string) :
  (barchart_of fpa_data scoring_system graph_type = Failed <-> fpa_data = [])
  /\ (forall df,
        barchart_of fpa_data scoring_system graph_type = Ok df ->
        NoDup (map Bar.defteam df)
        /\ (forall t, In t (map Bar.defteam df) <->
              t <> None /\ exists x, In x fpa_data /\ FpaData.defteam x = t)
        /\ (forall row, In row df ->
              let group :=
                filter (fun x => if Cell.ostring_dec (FpaData.defteam x)
                                      (Bar.defteam row)
                                 then true else false) fpa_data in
              Bar.fantasy_points row
              = Num.mean (map (fun x => Some (FpaData.fantasy_points x)) group)
              /\ Bar.fantasy_points_ppr row
                 = Num.mean (map (fun x => Some (FpaData.fantasy_points_ppr x))
                               group)
              /\ Bar.opp_avg row = Num.mean (map FpaData.opp_avg group)
              /\ Bar.opp_avg_ppr row = Num.mean (map FpaData.opp_avg_ppr group))).
Proof.
  split.
  - unfold barchart_of. destruct fpa_data as [|x fd].
    + tauto.
    + destruct (sort_column scoring_system graph_type);
        split; discriminate.
  - intros df H.
    destruct (barchart_of_teams fpa_data _ _ df H) as [Hnd Hin].
    split; [exact Hnd|]. split; [exact Hin|].
    intros row Hrow. apply barchart_of_Ok in H. destruct H as [_ Hperm].
    apply (barchart_unsorted_row fpa_data row).
    eapply Permutation_in; [apply Permutation_sym; exact Hperm | exact Hrow].
Qed.

Lemma sort_column_cases (ss gt : string) :
  sort_column ss gt
  = if String.eqb ss "Standard" then
      Some (if String.eqb gt "Raw" then Bar.fantasy_points else Bar.diff_opp_avg)
    else if String.eqb ss "Half-PPR" then
      Some (if String.eqb gt "Raw"
            then Bar.fantasy_points_half_ppr else Bar.diff_opp_avg_half_ppr)
    else if String.eqb ss "PPR" then
      Some (if String.eqb gt "Raw"
            then Bar.fantasy_points_ppr else Bar.diff_opp_avg_ppr)
    else None.
Proof. reflexivity. Qed.

Lemma barchart_of_sorted_by (fpa_data : list FpaData.row) (ss gt : string)
  (col : Bar.row -> option Q) (df : list Bar.row) :
  sort_column ss gt = Some col ->
  barchart_of fpa_data ss gt = Ok df ->
  sorted_by col df.
Proof.
  unfold barchart_of. intros Hcol. rewrite Hcol.
  destruct fpa_data as [|x fd]; [discriminate|].
  intros H. inversion H; subst. apply sort_values_Sorted.
Qed.

(** X7. The bars come in ascending order of what is plotted: for the raw
    graph the points of the scoring system, for the other graph types
    the difference from the opponents' average; a frame for any other
    scoring system is left in the order of the defenses. *)
Theorem barchart_of_ascending (fpa_data : list FpaData.row)
  (scoring_system graph_type : string) (df : list Bar.row) :
  barchart_of fpa_data scoring_system graph_type = Ok df ->
  Permutation (barchart_unsorted fpa_data) df
  /\ (scoring_system = "Standard" ->
      (graph_type = "Raw" -> sorted_by Bar.fantasy_points df)
      /\ (graph_type <> "Raw" -> sorted_by Bar.diff_opp_avg df))
  /\ (scoring_system = "Half-PPR" ->
      (graph_type = "Raw" -> sorted_by Bar.fantasy_points_half_ppr df)
      /\ (graph_type <> "Raw" -> sorted_by Bar.diff_opp_avg_half_ppr df))
  /\ (scoring_system = "PPR" ->
      (graph_type = "Raw" -> sorted_by Bar.fantasy_points_ppr df)
      /\ (graph_type <> "Raw" -> sorted_by Bar.diff_opp_avg_ppr df))
  /\ (~ is_scoring_system scoring_system -> df = barchart_unsorted fpa_data).
Proof.
  intros H.
  assert (Hraw : forall g, g = "Raw" -> String.eqb g "Raw" = true).
  { intros g ->. reflexivity. }
  assert (Hnot : forall g, g <> "Raw" -> String.eqb g "Raw" = false).
  { intros g Hg. apply String.eqb_neq. exact Hg. }
  split; [apply (barchart_of_Ok _ _ _ _ H)|].
  split; [|split; [|split]].
  - intros ->. split; intros Hg;
      apply (barchart_of_sorted_by fpa_data "Standard" graph_type _ df);
      try exact H; rewrite sort_column_cases; simpl;
      [rewrite (Hraw _ Hg) | rewrite (Hnot _ Hg)]; reflexivity.
  - intros ->. split; intros Hg;
      apply (barchart_of_sorted_by fpa_data "Half-PPR" graph_type _ df);
      try exact H; rewrite sort_column_cases; simpl;
      [rewrite (Hraw _ Hg) | rewrite (Hnot _ Hg)]; reflexivity.
  - intros ->. split; intros Hg;
      apply (barchart_of_sorted_by fpa_data "PPR" graph_type _ df);
      try exact H; rewrite sort_column_cases; simpl;
      [rewrite (Hraw _ Hg) | rewrite (Hnot _ Hg)]; reflexivity.
  - intros Hss. unfold barchart_of in H.
    destruct fpa_data as [|x fd]; [discriminate|].
    rewrite sort_column_cases in H.
    destruct (String.eqb scoring_system "Standard") eqn:E1.
    { exfalso. apply Hss. left. apply String.eqb_eq. exact E1. }
    destruct (String.eqb scoring_system "Half-PPR") eqn:E2.
    { exfalso. apply Hss. right. left. apply String.eqb_eq. exact E2. }
    destruct (String.eqb scoring_system "PPR") eqn:E3.
    { exfalso. apply Hss. right. right. apply String.eqb_eq. exact E3. }
    inversion H. reflexivity.
Qed.

(** ** Ranks *)

Lemma distinct_teams_at (df : list Bar.row) (i j : nat) (a b : Bar.row) :
  NoDup (map Bar.defteam df) ->
  nth_error df i = Some a -> nth_error df j = Some b ->
  i <> j -> Bar.defteam a <> Bar.defteam b.
Proof.
  intros Hnd Ha Hb Hij Heq. apply Hij.
  assert (Hi : (i < List.length (map Bar.defteam df))%nat).
  { rewrite length_map. apply nth_error_Some. congruence. }
  apply (proj1 (NoDup_nth_error (map Bar.defteam df)) Hnd i j Hi).
  rewrite !nth_error_map, Ha, Hb. simpl. congruence.
Qed.

(** The loop over the first [n] rows of a frame with pairwise distinct
    teams: the team of row [i] gets [i]. *)
Lemma rank_loop (df : list Bar.row) (n : nat) :
  NoDup (map Bar.defteam df) ->
  (n <= List.length df)%nat ->
  exists d,
    fold_left (rank_step df) (seq 0 n) (Ok []) = Ok d
    /\ (forall i row, (i < n)%nat -> nth_error df i = Some row ->
          Dict.get Cell.ostring_dec (Bar.defteam row) d = Some (Z.of_nat i))
    /\ (forall t, In t (map fst d) ->
          exists i row, (i < n)%nat /\ nth_error df i = Some row
                        /\ Bar.defteam row = t).
Proof.
  intros Hnd. induction n as [|n IH]; intros Hn.
  - exists []. simpl. split; [reflexivity|]. split.
    + intros i row Hi. lia.
    + intros t [].
  - destruct IH as [d [Hd [Hget Hkeys]]]; [lia|].
    rewrite seq_S, fold_left_app, Hd. simpl.
    destruct (nth_error df n) as [r|] eqn:En.
    2:{ apply nth_error_None in En. lia. }
    exists (Dict.set Cell.ostring_dec (Bar.defteam r) (Z.of_nat n) d).
    split; [reflexivity|]. split.
    + intros i row Hi Hrow.
      destruct (Nat.eq_dec i n) as [->|Hne].
      * rewrite En in Hrow. inversion Hrow; subst.
        apply dict_get_set_same.
      * rewrite dict_get_set_other.
        -- apply Hget; [lia | exact Hrow].
        -- apply (distinct_teams_at df i n row r Hnd Hrow En Hne).
    + intros t Ht.
      assert (Hcase : t = Bar.defteam r \/ In t (map fst d)).
      { clear -Ht. induction d as [|[k v] d IHd]; simpl in *.
        - destruct Ht as [Ht|[]]. left. congruence.
        - destruct (Cell.ostring_dec (Bar.defteam r) k) as [e|ne]; simpl in Ht.
          + destruct Ht as [Ht|Ht]; [left; congruence | right; right; exact Ht].
          + destruct Ht as [Ht|Ht]; [right; left; exact Ht|].
            destruct (IHd Ht) as [H|H]; [left; exact H | right; right; exact H]. }
      destruct Hcase as [->|Hin].
      * exists n, r. split; [lia|]. split; [exact En | reflexivity].
      * destruct (Hkeys t Hin) as [i [row [Hi [Hrow Ht']]]].
        exists i, row. split; [lia|]. split; assumption.
Qed.

Lemma grouped_length (df : list Bar.row) :
  NoDup (map Bar.defteam df) ->
  (forall row, In row df -> Bar.defteam row <> None) ->
  List.length (filter (fun g => Cell.notna (fst g))
                 (groupby Cell.ostring_dec Cell.ostring_leb Bar.defteam df))
  = List.length df.
Proof.
  intros Hnd Hnn.
  rewrite <- (length_map fst), filter_notna_keys.
  assert (Hall : filter Cell.notna
                   (group_keys Cell.ostring_dec Cell.ostring_leb Bar.defteam df)
                 = group_keys Cell.ostring_dec Cell.ostring_leb Bar.defteam df).
  { apply forallb_filter_id. apply forallb_forall. intros t Ht.
    apply In_group_keys in Ht. apply in_map_iff in Ht.
    destruct Ht as [row [<- Hrow]]. apply notna_true. apply Hnn. exact Hrow. }
  rewrite Hall. unfold group_keys.
  rewrite <- (Permutation_length (sort_keys_perm _ Cell.ostring_leb _)).
  rewrite (nodup_fixed_point Cell.ostring_dec Hnd). apply length_map.
Qed.

Lemma is_scoring_system_eqb (ss : string) :
  String.eqb ss "Standard" || String.eqb ss "Half-PPR" || String.eqb ss "PPR"
  = true <-> is_scoring_system ss.
Proof.
  unfold is_scoring_system.
  rewrite !orb_true_iff, !String.eqb_eq. tauto.
Qed.

(** X8. For a frame with one row per defense, none null, as the bar chart's
    is, [get_rank_dict] gives every team the index of its row in the
    frame, whichever of the three scoring systems is asked for, and has
    no other key; for any other scoring system it raises. *)
Theorem get_rank_dict_is_row_index (df : list Bar.row) (scoring_system : string) :
  NoDup (map Bar.defteam df) ->
  (forall row, In row df -> Bar.defteam row <> None) ->
  (is_scoring_system scoring_system ->
   exists d_rank,
     get_rank_dict df scoring_system = Ok d_rank
     /\ (forall i row, nth_error df i = Some row ->
           Dict.get Cell.ostring_dec (Bar.defteam row) d_rank
           = Some (Z.of_nat i))
     /\ (forall t, In t (map fst d_rank) -> In t (map Bar.defteam df)))
  /\ (~ is_scoring_system scoring_system ->
      get_rank_dict df scoring_system = Failed).
Proof.
  intros Hnd Hnn. split.
  - intros Hss. unfold get_rank_dict.
    rewrite (proj2 (is_scoring_system_eqb scoring_system) Hss).
    rewrite (grouped_length df Hnd Hnn).
    destruct (rank_loop df (List.length df) Hnd (Nat.le_refl _))
      as [d [Hd [Hget Hkeys]]].
    exists d. split; [exact Hd|]. split.
    + intros i row Hrow. apply Hget; [|exact Hrow].
      apply nth_error_Some. congruence.
    + intros t Ht. destruct (Hkeys t Ht) as [i [row [_ [Hrow <-]]]].
      apply in_map. eapply nth_error_In. exact Hrow.
  - intros Hss. unfold get_rank_dict.
    destruct (String.eqb scoring_system "Standard"
              || String.eqb scoring_system "Half-PPR"
              || String.eqb scoring_system "PPR") eqn:E; [|reflexivity].
    exfalso. apply Hss. apply is_scoring_system_eqb. exact E.
Qed.

(** X9. The ranks that [update_barchart_season] asks for: with the frame of
    [get_def_avg_barchart_data] and one of the three scoring systems,
    [get_rank_dict] succeeds and the rank of the team of the i-th bar is
    i, so a logo is drawn at its own bar. *)
Theorem barchart_ranks_follow_bars (fpa_data : list FpaData.row)
  (scoring_system graph_type : string) (df : list Bar.row) :
  barchart_of fpa_data scoring_system graph_type = Ok df ->
  is_scoring_system scoring_system ->
  exists d_rank,
    get_rank_dict df scoring_system = Ok d_rank
    /\ (forall i row, nth_error df i = Some row ->
          Dict.get Cell.ostring_dec (Bar.defteam row) d_rank
          = Some (Z.of_nat i)).
Proof.
  intros H Hss.
  destruct (barchart_of_teams fpa_data _ _ df H) as [Hnd Hin].
  assert (Hnn : forall row, In row df -> Bar.defteam row <> None).
  { intros row Hrow. apply (Hin (Bar.defteam row)). apply in_map. exact Hrow. }
  unfold get_rank_dict.
  rewrite (proj2 (is_scoring_system_eqb scoring_system) Hss).
  rewrite (grouped_length df Hnd Hnn).
  destruct (rank_loop df (List.length df) Hnd (Nat.le_refl _))
    as [d [Hd [Hget _]]].
  exists d. split; [exact Hd|].
  intros i row Hrow. apply Hget; [|exact Hrow].
  apply nth_error_Some. congruence.
Qed.

(** ** The line chart *)

Lemma weekly_of_Ok (fpa_data : list FpaData.row) (team : string)
  (wd : list Weekly.row) :
  weekly_of fpa_data team = Ok wd ->
  fpa_data <> []
  /\ map Weekly.base wd
     = filter (fun r => Cell.eq_str (FpaData.defteam r) team) fpa_data.
Proof.
  unfold weekly_of. destruct fpa_data as [|x fd]; [discriminate|].
  intros H. inversion H; subst. split; [discriminate|].
  rewrite map_map. simpl. apply map_id.
Qed.

Lemma eq_str_true (c : option string) (s : string) :
  Cell.eq_str c s = true <-> c = Some s.
Proof.
  destruct c as [x|]; simpl.
  - rewrite String.eqb_eq. split; congruence.
  - split; discriminate.
Qed.

Lemma NoDup_map_injective_on {A B C} (f : A -> B) (g : A -> C) (l : list A) :
  (forall x y, In x l -> In y l -> g x = g y -> f x = f y) ->
  NoDup (map f l) -> NoDup (map g l).
Proof.
  intros Hinj. induction l as [|a l IH]; intros H; simpl; [constructor|].
  inversion H as [|? ? Ha Hl]; subst. constructor.
  - intros Hin. apply Ha. apply in_map_iff in Hin.
    destruct Hin as [b [Hb Hbl]]. apply in_map_iff. exists b. split; [|exact Hbl].
    apply Hinj; [right; exact Hbl | left; reflexivity | exact Hb].
  - apply IH; [|exact Hl].
    intros x y Hx Hy. apply Hinj; right; assumption.
Qed.

(** X10. The line chart of a team: [get_weekly_linechart_data] raises on the
    frame without rows; otherwise it keeps the rows of the team, in order,
    and when the table has one row per week, defense, offense and
    position, as a computed table has, no two of them are of the same
    week and offense. *)
Theorem weekly_of_one_point_per_game (table : list Fpa.row) (pos : string)
  (include_final_week : list string) (fpa_data : list FpaData.row)
  (team : string) :
  NoDup (map fpa_key table) ->
  fpa_data_of table pos include_final_week = Ok fpa_data ->
  (fpa_data = [] -> weekly_of fpa_data team = Failed)
  /\ (fpa_data <> [] ->
      exists wd,
        weekly_of fpa_data team = Ok wd
        /\ map Weekly.base wd
           = filter (fun r => Cell.eq_str (FpaData.defteam r) team) fpa_data
        /\ (forall x, In x wd ->
              FpaData.defteam (Weekly.base x) = Some team)
        /\ NoDup (map (fun x => (FpaData.week (Weekly.base x),
                                 FpaData.posteam (Weekly.base x))) wd)).
Proof.
  intros Hnd Hfd. split.
  - intros ->. reflexivity.
  - intros Hne.
    destruct (weekly_of fpa_data team) as [wd|] eqn:E.
    2:{ unfold weekly_of in E. destruct fpa_data; [congruence | discriminate]. }
    exists wd. split; [reflexivity|].
    destruct (weekly_of_Ok fpa_data team wd E) as [_ Hbase].
    split; [exact Hbase|].
    assert (Hteam : forall x, In x wd ->
                      FpaData.defteam (Weekly.base x) = Some team).
    { intros x Hx. apply (in_map Weekly.base) in Hx. rewrite Hbase in Hx.
      apply filter_In in Hx. destruct Hx as [_ Hx].
      apply eq_str_true. exact Hx. }
    split; [exact Hteam|].
    apply fpa_data_of_Ok in Hfd. destruct Hfd as [mw [_ HF]].
    pose proof (Forall2_base _ _ _ (incl_refl _) HF) as Hb.
    assert (Hkeys : NoDup (map (fun x => fpa_key (FpaData.base (Weekly.base x)))
                             wd)).
    { rewrite <- (map_map Weekly.base (fun r => fpa_key (FpaData.base r))).
      rewrite Hbase.
      rewrite <- (map_map FpaData.base fpa_key).
      assert (Hsub : NoDup (map fpa_key (map FpaData.base fpa_data))).
      { rewrite Hb. apply NoDup_map_filter. exact Hnd. }
      rewrite map_map in Hsub. rewrite map_map.
      apply (NoDup_map_filter (fun r => fpa_key (FpaData.base r))). exact Hsub. }
    apply (NoDup_map_injective_on
             (fun x => fpa_key (FpaData.base (Weekly.base x)))); [|exact Hkeys].
    intros x y Hx Hy Heq. inversion Heq as [[Hw Hp]].
    pose proof (Hteam x Hx) as Tx. pose proof (Hteam y Hy) as Ty.
    assert (Px : FpaData.position (Weekly.base x) = Some pos).
    { apply (in_map Weekly.base) in Hx. rewrite Hbase in Hx.
      apply filter_In in Hx. destruct Hx as [Hx _].
      destruct (Forall2_In_r _ _ _ _ HF Hx) as [r [Hr Hadd]].
      destruct (add_opp_avg_Ok _ r _ Hr Hadd) as [Hbr _].
      apply filter_In in Hr. destruct Hr as [_ Hsel].
      apply selected_spec in Hsel. destruct Hsel as [Hpos _].
      rewrite <- Hbr in Hpos. exact Hpos. }
    assert (Py : FpaData.position (Weekly.base y) = Some pos).
    { apply (in_map Weekly.base) in Hy. rewrite Hbase in Hy.
      apply filter_In in Hy. destruct Hy as [Hy _].
      destruct (Forall2_In_r _ _ _ _ HF Hy) as [r [Hr Hadd]].
      destruct (add_opp_avg_Ok _ r _ Hr Hadd) as [Hbr _].
      apply filter_In in Hr. destruct Hr as [_ Hsel].
      apply selected_spec in Hsel. destruct Hsel as [Hpos _].
      rewrite <- Hbr in Hpos. exact Hpos. }
    unfold fpa_key. simpl. congruence.
Qed.

(** ** A position with rows of the final week only *)

Lemma fpa_data_of_none_selected (table : list Fpa.row) (pos : string)
  (inc : list string) (max_week : Z) :
  final_week_of table = Ok max_week ->
  (forall r, In r table -> selected pos (truthy inc) max_week r = false) ->
  fpa_data_of table pos inc = Ok [].
Proof.
  intros Hmw Hnone. unfold fpa_data_of. rewrite Hmw. simpl.
  rewrite filter_none by exact Hnone. reflexivity.
Qed.

(** X11. When the box of the final week is not ticked and every row of the
    position is of the final week (a season one week old, say),
    [get_fpa_data] returns the frame without rows and without opponent
    columns, and both [get_def_avg_barchart_data] and
    [get_weekly_linechart_data] raise on it. *)
Theorem final_week_only_raises (year : Z) (w : World) (table : list Fpa.row)
  (pos scoring_system graph_type team : string) (max_week : Z) :
  fst (get_fpa_by_position year w) = Ok table ->
  final_week_of table = Ok max_week ->
  (forall r, In r table -> Fpa.position r = Some pos ->
             Fpa.week r = Some max_week) ->
  fst (get_fpa_data year pos [] w) = Ok []
  /\ fst (get_def_avg_barchart_data year pos scoring_system [] graph_type w)
     = Failed
  /\ fst (get_weekly_linechart_data year pos scoring_system [] graph_type team w)
     = Failed.
Proof.
  intros Ht Hmw Hall.
  assert (Hfd : fpa_data_of table pos [] = Ok []).
  { apply (fpa_data_of_none_selected table pos [] max_week Hmw).
    intros r Hr. destruct (selected pos (truthy []) max_week r) eqn:E;
      [|reflexivity].
    apply selected_spec in E. destruct E as [Hpos [Hb|Hwk]];
      [discriminate|].
    exfalso. apply Hwk. apply Hall; assumption. }
  assert (Hget : fst (get_fpa_data year pos [] w) = Ok []).
  { unfold get_fpa_data. cbn [fst]. rewrite Ht. simpl. exact Hfd. }
  split; [exact Hget|]. split.
  - unfold get_def_avg_barchart_data. cbn [fst]. rewrite Hget. reflexivity.
  - unfold get_weekly_linechart_data. cbn [fst]. rewrite Hget. reflexivity.
Qed.

(** ** Labels *)

(** The hover dictionary shows, for each of the three scoring systems, the
    points and the league average of that system and nothing else; for
    any other string it shows nothing. *)
Lemma get_hover_dict_shows_one_system (scoring_system : string) :
  let shown := map fst (filter snd (get_hover_dict scoring_system)) in
  map fst (get_hover_dict scoring_system)
  = ["fantasy_points"; "fantasy_points_ppr"; "fantasy_points_half_ppr";
     "league_average"; "league_average_ppr"; "league_average_half_ppr";
     "difference"; "difference_half_ppr"; "difference_ppr"]
  /\ (scoring_system = "Standard" ->
      shown = ["fantasy_points"; "league_average"])
  /\ (scoring_system = "PPR" ->
      shown = ["fantasy_points_ppr"; "league_average_ppr"])
  /\ (scoring_system = "Half-PPR" ->
      shown = ["fantasy_points_half_ppr"; "league_average_half_ppr"])
  /\ (~ is_scoring_system scoring_system -> shown = []).
Proof.
  split; [reflexivity|].
  split; [intros ->; reflexivity|].
  split; [intros ->; reflexivity|].
  split; [intros ->; reflexivity|].
  intros Hss. unfold get_hover_dict. simpl.
  destruct (String.eqb scoring_system "Standard") eqn:E1.
  { exfalso. apply Hss. left. apply String.eqb_eq. exact E1. }
  destruct (String.eqb scoring_system "PPR") eqn:E2.
  { exfalso. apply Hss. right. right. apply String.eqb_eq. exact E2. }
  destruct (String.eqb scoring_system "Half-PPR") eqn:E3.
  { exfalso. apply Hss. right. left. apply String.eqb_eq. exact E3. }
  reflexivity.
Qed.

(** X12. Whatever the scoring system, the two series that
    [update_weekly_components] plots have a readable name in [get_names]:
    the renaming of the traces finds its keys. *)
Theorem weekly_series_have_names (scoring_system pos : string) :
  exists name0 name1,
    Dict.get string_dec (fst (weekly_series scoring_system)) (get_names pos)
    = Some name0
    /\ Dict.get string_dec (snd (weekly_series scoring_system)) (get_names pos)
       = Some name1
    /\ name1 = ("Opponent " ++ pos ++ " Average Points")%string
    /\ (scoring_system = "Half-PPR" -> name0 = "Fantasy Points (Half-PPR)")
    /\ (scoring_system = "PPR" -> name0 = "Fantasy Points (PPR)")
    /\ (scoring_system <> "Half-PPR" -> scoring_system <> "PPR" ->
        name0 = "Fantasy Points (Std.)").
Proof.
  unfold weekly_series.
  destruct (String.eqb scoring_system "Half-PPR") eqn:E1.
  - apply String.eqb_eq in E1. subst.
    eexists. eexists. repeat split; try reflexivity; congruence.
  - destruct (String.eqb scoring_system "PPR") eqn:E2.
    + apply String.eqb_eq in E2. subst.
      eexists. eexists. repeat split; try reflexivity; congruence.
    + apply String.eqb_neq in E1, E2.
      eexists. eexists. repeat split; try reflexivity; congruence.
Qed.

(** ** Team logos *)

Lemma stem_dotless (i : string) : dotless (stem i).
Proof.
  induction i as [|c t IH]; simpl; [exact I|].
  destruct (Ascii.eqb c ".") eqn:E; simpl; [exact I|].
  split; [|exact IH]. apply Ascii.eqb_neq. exact E.
Qed.

Lemma stem_before_dot (code rest : string) :
  dotless code -> stem (code ++ String "." rest) = code.
Proof.
  induction code as [|c t IH]; simpl.
  - reflexivity.
  - intros [Hc Ht]. apply Ascii.eqb_neq in Hc. rewrite Hc.
    rewrite IH by exact Ht. reflexivity.
Qed.

Lemma stem_logo_file (code : string) : dotless code -> stem (logo_file code) = code.
Proof. intros H. unfold logo_file. apply (stem_before_dot code "png" H). Qed.

Lemma logo_fold_untouched (cwd : string) (logos : list string)
  (d : list (string * string)) (k : string) :
  (forall i, In i logos -> stem i <> k) ->
  Dict.get string_dec k (fold_left (logo_step cwd) logos d)
  = Dict.get string_dec k d.
Proof.
  revert d. induction logos as [|i l IH]; intros d H; simpl; [reflexivity|].
  rewrite IH by (intros j Hj; apply H; right; exact Hj).
  unfold logo_step. apply dict_get_set_other.
  intros E. apply (H i (or_introl eq_refl)). congruence.
Qed.

Lemma logo_fold_found (cwd : string) (logos : list string)
  (d : list (string * string)) (k f : string) :
  (forall i, In i logos -> stem i = k -> i = f) ->
  (exists i, In i logos /\ stem i = k) ->
  Dict.get string_dec k (fold_left (logo_step cwd) logos d)
  = Some (cwd ++ "/images/team_logos/" ++ f)%string.
Proof.
  revert d. induction logos as [|i l IH]; intros d Hall Hex; simpl.
  - destruct Hex as [j [[] _]].
  - destruct (in_dec string_dec k (map stem l)) as [Hin|Hout].
    + apply IH.
      * intros j Hj. apply Hall. right. exact Hj.
      * apply in_map_iff in Hin. destruct Hin as [j [Hs Hj]]. eauto.
    + rewrite logo_fold_untouched.
      2:{ intros j Hj E. apply Hout. rewrite <- E. apply in_map. exact Hj. }
      destruct Hex as [j [[<-|Hj] Hs]].
      * rewrite <- (Hall i (or_introl eq_refl) Hs).
        unfold logo_step. rewrite Hs. apply dict_get_set_same.
      * exfalso. apply Hout. rewrite <- Hs. apply in_map. exact Hj.
Qed.

Lemma logo_fold_keys (cwd : string) (logos : list string)
  (d : list (string * string)) (k : string) :
  In k (map fst (fold_left (logo_step cwd) logos d)) ->
  In k (map fst d) \/ In k (map stem logos).
Proof.
  revert d. induction logos as [|i l IH]; intros d H; simpl in *; [tauto|].
  destruct (IH _ H) as [Hd|Hl]; [|tauto].
  assert (Hcase : k = stem i \/ In k (map fst d)).
  { clear -Hd. unfold logo_step in Hd.
    induction d as [|[k' v'] d IHd]; simpl in *.
    - destruct Hd as [Hd|[]]. left. congruence.
    - destruct (string_dec (stem i) k') as [e|ne]; simpl in Hd.
      + destruct Hd as [Hd|Hd]; [left; congruence | right; right; exact Hd].
      + destruct Hd as [Hd|Hd]; [right; left; exact Hd|].
        destruct (IHd Hd) as [H|H]; [left; exact H | right; right; exact H]. }
  destruct Hcase as [->|Hd']; [right; left; reflexivity | left; exact Hd'].
Qed.

(** X13. The dictionary of [get_logo_dict] finds the image that was stored for
    a team code without dot under [team_code + '.png'], at its path in
    the image directory, provided no other listed file has the code as
    its name up to the first dot; it has no entry for a team without such
    a file, and none of its keys has a dot. *)
Theorem logo_dict_finds_stored_logo (cwd : string) (logos : list string)
  (team_code : string) :
  (dotless team_code ->
   In (logo_file team_code) logos ->
   (forall i, In i logos -> stem i = team_code -> i = logo_file team_code) ->
   Dict.get string_dec team_code (logo_dict_of cwd logos)
   = Some (cwd ++ "/images/team_logos/" ++ team_code ++ ".png")%string)
  /\ ((forall i, In i logos -> stem i <> team_code) ->
      Dict.get string_dec team_code (logo_dict_of cwd logos) = None)
  /\ (forall k, In k (map fst (logo_dict_of cwd logos)) -> dotless k).
Proof.
  unfold logo_dict_of. split; [|split].
  - intros Hdot Hin Hall.
    apply (logo_fold_found cwd logos [] team_code (logo_file team_code) Hall).
    exists (logo_file team_code). split; [exact Hin|].
    apply stem_logo_file. exact Hdot.
  - intros Hnone. rewrite logo_fold_untouched by exact Hnone. reflexivity.
  - intros k Hk. apply logo_fold_keys in Hk. destruct Hk as [[]|Hk].
    apply in_map_iff in Hk. destruct Hk as [i [<- _]]. apply stem_dotless.
Qed.

(** ** Refreshing the pickles *)

Lemma get_fpa_by_position_keeps_pickles (year : Z) (w : World) (y : Z)
  (t : list Fpa.row) :
  fpa_pickle w y = Some t ->
  fpa_pickle (snd (get_fpa_by_position year w)) y = Some t.
Proof.
  intros H. unfold get_fpa_by_position.
  destruct (fpa_pickle w year) as [c|] eqn:Ec; [exact H|].
  destruct (compute_fpa year w) as [table|]; [|exact H].
  destruct (cache_dir w); [|exact H].
  cbn [snd]. rewrite to_pickle_other; [exact H|].
  intros ->. congruence.
Qed.

Lemma get_fpa_by_position_other_years (year : Z) (w : World) (y : Z) :
  y <> year ->
  fpa_pickle (snd (get_fpa_by_position year w)) y = fpa_pickle w y.
Proof.
  intros H. unfold get_fpa_by_position.
  destruct (fpa_pickle w year) as [c|]; [reflexivity|].
  destruct (compute_fpa year w) as [table|]; [|reflexivity].
  destruct (cache_dir w); [|reflexivity].
  cbn [snd]. apply to_pickle_other. exact H.
Qed.

Lemma get_fpa_by_position_Ok_pickled (year : Z) (w : World) (t : list Fpa.row) :
  fst (get_fpa_by_position year w) = Ok t ->
  fpa_pickle (snd (get_fpa_by_position year w)) year = Some t.
Proof.
  unfold get_fpa_by_position.
  destruct (fpa_pickle w year) as [c|] eqn:Ec.
  - cbn [fst snd]. intros H. inversion H; subst. exact Ec.
  - destruct (compute_fpa year w) as [table|]; cbn [fst snd]; [|discriminate].
    destruct (cache_dir w); cbn [fst snd]; [|discriminate].
    intros H. inversion H; subst. apply to_pickle_same.
Qed.

Lemma refresh_loop_keeps (years : list Z) (w : World) (y : Z) (t : list Fpa.row) :
  fpa_pickle w y = Some t ->
  fpa_pickle (snd (refresh_loop years w)) y = Some t.
Proof.
  revert w. induction years as [|year rest IH]; intros w H; simpl; [exact H|].
  pose proof (get_fpa_by_position_keeps_pickles year w y t H) as H'.
  destruct (fst (get_fpa_by_position year w)); [apply IH; exact H' | exact H'].
Qed.

Lemma refresh_loop_others (years : list Z) (w : World) (y : Z) :
  ~ In y years ->
  fpa_pickle (snd (refresh_loop years w)) y = fpa_pickle w y.
Proof.
  revert w. induction years as [|year rest IH]; intros w H; simpl; [reflexivity|].
  assert (Hy : y <> year) by (intros ->; apply H; left; reflexivity).
  pose proof (get_fpa_by_position_other_years year w y Hy) as H'.
  destruct (fst (get_fpa_by_position year w)); [|exact H'].
  rewrite IH; [exact H' | intros Hin; apply H; right; exact Hin].
Qed.

Lemma refresh_loop_fills (years : list Z) (w : World) :
  fst (refresh_loop years w) = Ok tt ->
  forall y, In y years -> fpa_pickle (snd (refresh_loop years w)) y <> None.
Proof.
  revert w. induction years as [|year rest IH]; intros w H y Hy; simpl in *.
  - contradiction.
  - destruct (fst (get_fpa_by_position year w)) as [t|] eqn:E;
      [|discriminate].
    destruct Hy as [->|Hy].
    + rewrite (refresh_loop_keeps rest _ y t
                 (get_fpa_by_position_Ok_pickled y w t E)).
      discriminate.
    + apply IH; assumption.
Qed.

Lemma refresh_loop_all_cached (years : list Z) (w : World) :
  (forall y, In y years -> fpa_pickle w y <> None) ->
  refresh_loop years w = (Ok tt, w).
Proof.
  induction years as [|year rest IH]; intros H; simpl; [reflexivity|].
  unfold get_fpa_by_position.
  destruct (fpa_pickle w year) as [c|] eqn:E.
  - cbn [fst snd]. apply IH. intros y Hy. apply H. right. exact Hy.
  - exfalso. apply (H year (or_introl eq_refl)). exact E.
Qed.

Lemma In_refresh_years (y : Z) : In y refresh_years <-> refreshed y.
Proof.
  unfold refreshed, refresh_years. split.
  - intros H. simpl in H.
    repeat (destruct H as [H|H]; [lia|]). contradiction.
  - intros H.
    assert (Hc : y = 2021 \/ y = 2020 \/ y = 2019 \/ y = 2018 \/ y = 2017
                 \/ y = 2016 \/ y = 2015 \/ y = 2014 \/ y = 2013 \/ y = 2012
                 \/ y = 2011 \/ y = 2010 \/ y = 2009 \/ y = 2008 \/ y = 2007
                 \/ y = 2006) by lia.
    simpl. intuition (subst; auto 20).
Qed.

(** X14. [refresh_pickles] never replaces or removes a pickle and touches no
    season outside 2006..2021. When it returns, every one of these seasons
    has its pickle, so that a second run finds them all and changes
    nothing. *)
Theorem refresh_pickles_fills_the_cache (w : World) :
  let w' := snd (refresh_pickles w) in
  (forall y t, fpa_pickle w y = Some t -> fpa_pickle w' y = Some t)
  /\ (forall y, ~ refreshed y -> fpa_pickle w' y = fpa_pickle w y)
  /\ (fst (refresh_pickles w) = Ok tt ->
      (forall y, refreshed y -> fpa_pickle w' y <> None)
      /\ refresh_pickles w' = (Ok tt, w')).
Proof.
  intros w'. unfold w', refresh_pickles. split; [|split].
  - intros y t. apply refresh_loop_keeps.
  - intros y Hy. apply refresh_loop_others.
    rewrite In_refresh_years. exact Hy.
  - intros Hok.
    assert (Hfill : forall y, refreshed y ->
              fpa_pickle (snd (refresh_loop refresh_years w)) y <> None).
    { intros y Hy. apply refresh_loop_fills; [exact Hok|].
      apply In_refresh_years. exact Hy. }
    split; [exact Hfill|].
    apply refresh_loop_all_cached. intros y Hy. apply Hfill.
    apply In_refresh_years. exact Hy.
Qed.

(** ** The table: one row per key, the sum of its attributed rows *)

Lemma aggregate_NoDup (tri_data : list Tri.row) :
  NoDup (map fpa_key (position_sums tri_data)).
Proof.
  unfold position_sums. apply aggregated_NoDup. apply fpa_key_build.
Qed.

(** X15. A computed table has one row per week, defense, offense and
    position. *)
Theorem get_fpa_by_position_one_row_per_key (year : Z) (w : World)
  (table : list Fpa.row) :
  fpa_pickle w year = None ->
  fst (get_fpa_by_position year w) = Ok table ->
  NoDup (map fpa_key table).
Proof.
  intros Hc Ht.
  destruct (get_fpa_by_position_computed year w table Hc Ht)
    as [tri_data [_ ->]].
  apply aggregate_NoDup.
Qed.

Lemma summed_position_output (pos : string) :
  In pos summed_positions ->
  Cell.isin (Some pos) output_positions = true /\ pos <> "non_skill".
Proof.
  intros H. simpl in H.
  destruct H as [<-|[<-|[<-|[<-|[]]]]]; split;
    solve [reflexivity | discriminate].
Qed.

(** The group of a key of a summed position in [fixed_data]: the
    attributed rows of the key. *)
Lemma fixed_skill_group (tri_data : list Tri.row) (k : FKey) (pos : string) :
  In pos summed_positions ->
  snd (snd (snd k)) = Some pos ->
  group_rows FKey_dec fixed_fkey (fixed_data_of tri_data) k
  = map Fixed.of_tri
      (filter (fun t => if FKey_dec (tri_fkey t) k then true else false)
              tri_data).
Proof.
  intros Hpos Hk.
  destruct (summed_position_output pos Hpos) as [Hout Hns].
  unfold group_rows, fixed_data_of, loc_position_assign, reindex_on_columns.
  rewrite filter_filter_andb, !filter_app.
  rewrite (filter_none _ (map Fixed.of_non_skill (non_skill_pos_data tri_data))).
  2:{ intros f Hf. apply in_map_iff in Hf. destruct Hf as [n [<- Hn]].
      pose proof (proj1 (In_non_skill_pos_data tri_data n) Hn) as [Hl _].
      destruct (FKey_dec _ _) as [e|ne]; [|apply andb_false_r].
      exfalso. apply Hns.
      destruct k as [w [d [p q]]]. unfold fixed_fkey in e. simpl in e, Hk.
      congruence. }
  rewrite (filter_map_In _ Fixed.of_tri
             (fun t => if FKey_dec (tri_fkey t) k then true else false)).
  2:{ intros t Ht.
      change (fixed_fkey (Fixed.of_tri t)) with (tri_fkey t).
      destruct (FKey_dec (tri_fkey t) k) as [e|ne]; [|apply andb_false_r].
      rewrite andb_true_r.
      change (Fixed.position (Fixed.of_tri t)) with (Tri.position t).
      assert (Tri.position t = Some pos).
      { destruct k as [w [d [p q]]]. unfold tri_fkey in e. simpl in Hk.
        congruence. }
      congruence. }
  rewrite (filter_none _ [Fixed.all_null]).
  2:{ intros f [<-|[]]. reflexivity. }
  rewrite !app_nil_r. reflexivity.
Qed.

(** X16. For the positions QB, RB, WR and TE the table that the aggregator
    returns is the sparse sum of the attributed rows: a week, defense,
    offense and position has a row exactly when some attributed row has
    that key, and the row's standard and PPR points are the sums over the
    attributed rows of the key. *)
Theorem aggregate_sums_attributed_rows (tri_data : list Tri.row)
  (table : list Fpa.row)
  (pos : string) (wk : option Z) (def off : option string) :
  In pos summed_positions ->
  aggregate tri_data = Ok table ->
  let k : FKey := (wk, (def, (off, Some pos))) in
  let rows_of_key :=
    filter (fun t => if FKey_dec (tri_fkey t) k then true else false) tri_data in
  ((exists row, In row table /\ fpa_key row = k)
   <-> rows_of_key <> [])
  /\ (forall row, In row table -> fpa_key row = k ->
        Fpa.fantasy_points row
        = Cell.sumQ (map Tri.fantasy_points rows_of_key)
        /\ Fpa.fantasy_points_ppr row
           = Cell.sumQ (map Tri.fantasy_points_ppr rows_of_key)).
Proof.
  intros Hpos Hok k rows_of_key.
  apply aggregate_Ok in Hok. destruct Hok as [_ ->].
  pose proof (fixed_skill_group tri_data k pos Hpos eq_refl) as Hgroup.
  fold rows_of_key in Hgroup.
  assert (Hkey : In k (map fixed_fkey (fixed_data_of tri_data))
                 <-> rows_of_key <> []).
  { split.
    - intros Hin E. apply in_map_iff in Hin. destruct Hin as [f [Hf Hin]].
      assert (Hg : In f (group_rows FKey_dec fixed_fkey
                           (fixed_data_of tri_data) k)).
      { apply In_group_rows. auto. }
      rewrite Hgroup, E in Hg. exact Hg.
    - intros Hne. destruct rows_of_key as [|t l] eqn:E; [congruence|].
      assert (Hg : In (Fixed.of_tri t)
                      (group_rows FKey_dec fixed_fkey
                         (fixed_data_of tri_data) k)).
      { rewrite Hgroup. left. reflexivity. }
      apply In_group_rows in Hg. destruct Hg as [Hin Hk].
      rewrite <- Hk. apply in_map. exact Hin. }
  split.
  - rewrite <- Hkey. split.
    + intros [row [Hrow Hk]]. apply In_aggregate in Hrow.
      destruct Hrow as [Hin _]. rewrite Hk in Hin. exact Hin.
    + intros Hin.
      exists (fpa_build (k, group_rows FKey_dec fixed_fkey
                              (fixed_data_of tri_data) k)).
      split; [|apply fpa_key_build].
      apply In_aggregate. rewrite fpa_key_build. simpl. tauto.
  - intros row Hrow Hk. apply In_aggregate in Hrow.
    destruct Hrow as [_ Hrow]. rewrite Hk in Hrow. rewrite Hgroup in Hrow.
    rewrite Hrow. unfold fpa_build. simpl.
    rewrite !map_map. simpl. split; reflexivity.
Qed.

(** ** The roster lookup: one season per player, no player lost *)

Lemma maxZ_exists (col : list (option Z)) (s : Z) :
  In (Some s) col -> exists m, Cell.maxZ col = Some m.
Proof.
  induction col as [|c col IH]; [contradiction|].
  rewrite maxZ_cons. intros [->|Hs].
  - destruct (Cell.maxZ col); eauto.
  - destruct (IH Hs) as [y ->]. destruct c; eauto.
Qed.

(** X17. In the lookup of [get_two_year_roster_data] every entry has a player
    id and a season, the entries of one player are all of one season, and
    every player who has an entry with a season on either roster has an
    entry. *)
Theorem two_year_roster_one_season_per_player (cur prev : list Roster.row) :
  let lookup := two_year_roster cur prev in
  (forall r, In r lookup ->
     In r (cur ++ prev) /\ Roster.gsis_id r <> None /\ Roster.season r <> None)
  /\ (forall r r', In r lookup -> In r' lookup ->
        Roster.gsis_id r = Roster.gsis_id r' ->
        Roster.season r = Roster.season r')
  /\ (forall r g s, In r (cur ++ prev) ->
        Roster.gsis_id r = Some g -> Roster.season r = Some s ->
        exists r', In r' lookup /\ Roster.gsis_id r' = Some g).
Proof.
  intros lookup. unfold lookup. rewrite two_year_roster_filter.
  split; [|split].
  - intros r Hr. apply filter_In in Hr. destruct Hr as [Hin Hk].
    apply season_max_of_spec in Hk. destruct Hk as [g [m [Hg [Hs _]]]].
    split; [exact Hin|]. split; congruence.
  - intros r r' Hr Hr' Hg.
    apply filter_In in Hr. destruct Hr as [Hin Hk].
    apply filter_In in Hr'. destruct Hr' as [Hin' Hk'].
    apply season_max_of_spec in Hk. destruct Hk as [g [m [Eg [Es [_ Hall]]]]].
    apply season_max_of_spec in Hk'.
    destruct Hk' as [g' [m' [Eg' [Es' [_ Hall']]]]].
    assert (g' = g) by congruence. subst g'.
    pose proof (Hall r' m' Hin' Eg' Es').
    pose proof (Hall' r m Hin Eg Es).
    rewrite Es, Es'. f_equal. lia.
  - intros r g s Hr Hg Hs.
    assert (Hin : In (Some s)
                     (map Roster.season
                        (group_rows Cell.ostring_dec Roster.gsis_id
                           (cur ++ prev) (Some g)))).
    { apply group_season_In. eauto. }
    destruct (maxZ_exists _ s Hin) as [m Hm].
    pose proof (proj1 (maxZ_Some _ m) Hm) as [Hmin Hmall].
    apply group_season_In in Hmin. destruct Hmin as [r' [Hr' [Hg' Hs']]].
    exists r'. split; [|exact Hg'].
    apply filter_In. split; [exact Hr'|]. apply season_max_of_spec.
    exists g, m. split; [exact Hg'|]. split; [exact Hs'|]. split.
    + exists r'. auto.
    + intros r0 s0 Hr0 Hg0 Hs0. apply Hmall. apply group_season_In. eauto.
Qed.

(** ** Participation: no play lost, none counted twice *)

Lemma sumZ_cons (x : Z) (l : list Z) : Cell.sumZ (x :: l) = x + Cell.sumZ l.
Proof. unfold Cell.sumZ at 1. simpl. apply sumZ_from. Qed.

Lemma sumZ_map_add {A} (f g : A -> Z) (l : list A) :
  Cell.sumZ (map (fun k => f k + g k) l)
  = Cell.sumZ (map f l) + Cell.sumZ (map g l).
Proof.
  induction l as [|x l IH]; simpl; [reflexivity|].
  rewrite !sumZ_cons, IH. lia.
Qed.

Lemma sumZ_map_zero {A} (l : list A) : Cell.sumZ (map (fun _ => 0) l) = 0.
Proof.
  induction l as [|x l IH]; simpl; [reflexivity|].
  rewrite sumZ_cons, IH. reflexivity.
Qed.

Lemma sumZ_indicator {K} (dec : forall x y : K, {x = y} + {x <> y})
  (k0 : K) (a : Z) (ks : list K) :
  NoDup ks -> In k0 ks ->
  Cell.sumZ (map (fun k => if dec k0 k then a else 0) ks) = a.
Proof.
  induction ks as [|k ks IH]; intros Hnd Hin; [contradiction|].
  inversion Hnd as [|? ? Hk Hks]; subst. simpl. rewrite sumZ_cons.
  destruct (dec k0 k) as [e|n].
  - subst k.
    assert (E : map (fun k => if dec k0 k then a else 0) ks
                = map (fun _ => 0) ks).
    { apply map_ext_in. intros k Hkin.
      destruct (dec k0 k); [subst; contradiction | reflexivity]. }
    rewrite E, sumZ_map_zero. lia.
  - destruct Hin as [Hin|Hin]; [congruence|].
    rewrite IH by assumption. lia.
Qed.

Lemma counted_cons (r : Pbp.row) (rows : list Pbp.row) :
  counted (r :: rows)
  = (if Cell.notna (Pbp.play_id r) then 1 else 0) + counted rows.
Proof.
  unfold counted, Cell.count. cbn [map filter].
  destruct (Cell.notna (Pbp.play_id r)); cbn [List.length]; lia.
Qed.

(** The counts of the groups of a frame add up to the count of the frame,
    over any duplicate-free list of keys that has the keys of the frame. *)
Lemma counted_partition (key : Pbp.row -> PKey) (ks : list PKey)
  (rows : list Pbp.row) :
  NoDup ks ->
  (forall r, In r rows -> In (key r) ks) ->
  Cell.sumZ (map (fun k => counted (group_rows PKey_dec key rows k)) ks)
  = counted rows.
Proof.
  intros Hnd. induction rows as [|r rows IH]; intros Hin.
  - simpl. apply sumZ_map_zero.
  - rewrite counted_cons.
    assert (E : map (fun k => counted (group_rows PKey_dec key (r :: rows) k)) ks
                = map (fun k =>
                         (if PKey_dec (key r) k
                          then (if Cell.notna (Pbp.play_id r) then 1 else 0)
                          else 0)
                         + counted (group_rows PKey_dec key rows k)) ks).
    { apply map_ext. intros k. unfold group_rows. simpl.
      destruct (PKey_dec (key r) k); [apply counted_cons | reflexivity]. }
    rewrite E, sumZ_map_add.
    rewrite sumZ_indicator;
      [| exact Hnd | apply Hin; left; reflexivity].
    rewrite IH by (intros x Hx; apply Hin; right; exact Hx).
    reflexivity.
Qed.

Lemma counted_all (rows : list Pbp.row) :
  Forall (fun p => Pbp.play_id p <> None) rows ->
  counted rows = Z.of_nat (List.length rows).
Proof.
  intros H. unfold counted. rewrite count_no_null.
  - rewrite length_map. reflexivity.
  - apply Forall_forall. intros c Hc. apply in_map_iff in Hc.
    destruct Hc as [p [<- Hp]]. rewrite Forall_forall in H. auto.
Qed.

Lemma role_total (name id : Pbp.row -> option string) (data : list Pbp.row)
  (ks : list PKey) :
  NoDup ks ->
  (forall k, In k (map Players.key (role_counts name id data)) -> In k ks) ->
  Forall (fun p => Pbp.play_id p <> None) data ->
  Cell.sumZ (map (role_group_count name id data) ks) = role_plays id data.
Proof.
  intros Hnd Hks Hall. unfold role_group_count. fold counted.
  change (fun k : PKey =>
            Cell.count (map Pbp.play_id
              (group_rows PKey_dec (role_key name id)
                 (filter (fun p => Bool.eqb (Cell.isna (id p)) false) data) k)))
    with (fun k : PKey =>
            counted (group_rows PKey_dec (role_key name id)
              (filter (fun p => Bool.eqb (Cell.isna (id p)) false) data) k)).
  rewrite counted_partition.
  - rewrite counted_all.
    + unfold role_plays. f_equal. f_equal. apply filter_ext.
      intros p. apply isna_false_notna.
    + apply Forall_forall. intros p Hp. apply filter_In in Hp.
      rewrite Forall_forall in Hall. apply Hall. tauto.
  - exact Hnd.
  - intros p Hp. apply Hks. apply role_counts_keys.
    apply filter_In in Hp. destruct Hp as [Hp Hsel].
    rewrite isna_false_notna in Hsel. apply notna_true in Hsel.
    exists p. auto.
Qed.

(** X18. When every play has its [play_id], the plays of the rows of
    [get_players] add up to the number of plays with a rusher, plus the
    number with a passer, plus the number with a receiver: every
    participation is counted, and counted once. *)
Theorem get_players_conserves_plays (data : list Pbp.row) :
  Forall (fun p => Pbp.play_id p <> None) data ->
  Cell.sumZ (map Players.plays (get_players data))
  = role_plays Pbp.rusher_player_id data
    + role_plays Pbp.passer_player_id data
    + role_plays Pbp.receiver_player_id data.
Proof.
  intros Hall.
  set (ks := map Players.key (get_players data)).
  assert (Hnd : NoDup ks) by apply get_players_NoDup.
  assert (E : map Players.plays (get_players data)
              = map (fun k =>
                       (role_group_count Pbp.rusher_player_name
                          Pbp.rusher_player_id data k
                        + role_group_count Pbp.passer_player_name
                            Pbp.passer_player_id data k)
                       + role_group_count Pbp.receiver_player_name
                           Pbp.receiver_player_id data k) ks).
  { unfold ks. rewrite map_map. apply map_ext_in.
    intros row Hrow. apply get_players_plays. exact Hrow. }
  rewrite E, !sumZ_map_add.
  rewrite (role_total Pbp.rusher_player_name Pbp.rusher_player_id data ks Hnd);
    [| intros k Hk; apply get_players_keys; left; exact Hk | exact Hall].
  rewrite (role_total Pbp.passer_player_name Pbp.passer_player_id data ks Hnd);
    [| intros k Hk; apply get_players_keys; right; left; exact Hk | exact Hall].
  rewrite (role_total Pbp.receiver_player_name Pbp.receiver_player_id data ks Hnd);
    [| intros k Hk; apply get_players_keys; right; right; exact Hk | exact Hall].
  reflexivity.
Qed.

(** ** A season without attributed rows *)

Lemma merge_inner_no_stats (players : list Players.row) :
  merge_inner players [] = [].
Proof.
  unfold merge_inner. induction players as [|p l IH]; simpl; [reflexivity|].
  exact IH.
Qed.

Lemma merge_inner_no_match (players : list Players.row) (stats : list Stats.row) :
  (forall p s, In p players -> In s stats -> stat_matches p s = false) ->
  merge_inner players stats = [].
Proof.
  intros H. unfold merge_inner.
  induction players as [|p l IH]; simpl; [reflexivity|].
  rewrite (filter_none (stat_matches p) stats).
  - simpl. apply IH. intros q s Hq Hs. apply H; [right; exact Hq | exact Hs].
  - intros s Hs. apply H; [left; reflexivity | exact Hs].
Qed.

Lemma attributed_no_match (players : list Players.row) (stats : list Stats.row)
  (roster : list Roster.row) :
  (forall p s, In p players -> In s stats -> stat_matches p s = false) ->
  attributed players stats roster = [].
Proof.
  intros H. unfold attributed. rewrite (merge_inner_no_match players stats H).
  reflexivity.
Qed.

(** X19. A season whose fetches succeed but in which no participation row
    has a statistic of its player and week (no play, no statistic, or none
    that match): the aggregation raises on the frame without rows. The
    call fails, writes no pickle and leaves the world as it was, so that
    every later call fails alike; [get_final_week] and [get_fpa_data] fail
    with it. *)
Theorem season_without_attributed_rows_raises (year : Z) (w : World)
  (data : list Pbp.row) (stats : list Stats.row) (roster : list Roster.row)
  (pos : string) (include_final_week : list string) :
  fpa_pickle w year = None ->
  get_pbp_data year w = Ok data ->
  get_player_stats_data year w = Ok stats ->
  get_two_year_roster_data year w = Ok roster ->
  (forall p s, In p (get_players data) -> In s stats ->
               stat_matches p s = false) ->
  aggregate (attributed (get_players data) stats roster) = Failed
  /\ get_fpa_by_position year w = (Failed, w)
  /\ fpa_pickle (snd (get_fpa_by_position year w)) year = None
  /\ get_final_week year w = (Failed, w)
  /\ get_fpa_data year pos include_final_week w = (Failed, w).
Proof.
  intros Hc Hd Hs Hr Hnone.
  pose proof (attributed_no_match (get_players data) stats roster Hnone) as He.
  assert (Hm : get_fpa_by_position year w = (Failed, w)).
  { unfold get_fpa_by_position.
    rewrite Hc, (compute_fpa_empty year w data stats roster Hd Hs Hr He).
    reflexivity. }
  split; [apply aggregate_Failed; exact He|].
  split; [exact Hm|]. split; [rewrite Hm; exact Hc|]. split.
  - unfold get_final_week. rewrite Hm. reflexivity.
  - unfold get_fpa_data. rewrite Hm. reflexivity.
Qed.

(** ** The properties on the samples *)

Lemma chart_table_keys : NoDup (map fpa_key Sample.chart_table).
Proof.
  simpl. repeat constructor; simpl; intuition discriminate.
Qed.

Lemma wr_data_computed : fpa_data_of Sample.chart_table "WR" [] = Ok Sample.wr_data.
Proof. vm_compute. reflexivity. Qed.

Lemma wr_bars_computed :
  barchart_of Sample.wr_data "Standard" "Raw" = Ok Sample.wr_bars.
Proof. vm_compute. reflexivity. Qed.

Lemma wr_bars_teams :
  map Bar.defteam Sample.wr_bars = [Some "BUF"; Some "NE"; Some "MIA"].
Proof. reflexivity. Qed.

Lemma fpa_data_of_selects_witness :
  fpa_data_of Sample.chart_table "WR" [] = Ok Sample.wr_data
  /\ exists max_week,
       final_week_of Sample.chart_table = Ok max_week
       /\ map FpaData.base Sample.wr_data
          = filter (selected "WR" (truthy (@nil string)) max_week)
                   Sample.chart_table
       /\ (forall x, In x Sample.wr_data ->
             FpaData.position x = Some "WR"
             /\ FpaData.posteam x <> None
             /\ (@nil string = [] -> FpaData.week x <> Some max_week))
       /\ (forall r, In r Sample.chart_table -> Fpa.position r = Some "WR" ->
             @nil string <> [] \/ Fpa.week r <> Some max_week ->
             In r (map FpaData.base Sample.wr_data)).
Proof.
  split; [exact wr_data_computed|].
  apply (fpa_data_of_selects Sample.chart_table "WR" [] Sample.wr_data).
  exact wr_data_computed.
Defined.

Lemma opp_avg_is_offense_mean_witness :
  fpa_data_of Sample.chart_table "WR" [] = Ok Sample.wr_data
  /\ forall x, In x Sample.wr_data ->
       let same_offense :=
         filter (fun y => if Cell.ostring_dec (FpaData.posteam y)
                               (FpaData.posteam x)
                          then true else false) Sample.wr_data in
       In x same_offense
       /\ FpaData.opp_avg x
          = Num.mean (map (fun y => Some (FpaData.fantasy_points y)) same_offense)
       /\ FpaData.opp_avg_ppr x
          = Num.mean (map (fun y => Some (FpaData.fantasy_points_ppr y))
                        same_offense)
       /\ FpaData.opp_avg x <> None
       /\ FpaData.opp_avg_ppr x <> None.
Proof.
  split; [exact wr_data_computed|].
  apply (opp_avg_is_offense_mean Sample.chart_table "WR" [] Sample.wr_data).
  exact wr_data_computed.
Defined.

Lemma barchart_of_ascending_witness :
  barchart_of Sample.wr_data "Standard" "Raw" = Ok Sample.wr_bars
  /\ Permutation (barchart_unsorted Sample.wr_data) Sample.wr_bars
  /\ sorted_by Bar.fantasy_points Sample.wr_bars.
Proof.
  split; [exact wr_bars_computed|].
  destruct (barchart_of_ascending Sample.wr_data "Standard" "Raw"
              Sample.wr_bars wr_bars_computed) as [Hperm [Hstd _]].
  split; [exact Hperm|].
  apply (proj1 (Hstd eq_refl)). reflexivity.
Defined.

Lemma get_rank_dict_is_row_index_witness :
  NoDup (map Bar.defteam Sample.wr_bars)
  /\ (forall row, In row Sample.wr_bars -> Bar.defteam row <> None)
  /\ is_scoring_system "PPR"
  /\ exists d_rank,
       get_rank_dict Sample.wr_bars "PPR" = Ok d_rank
       /\ (forall i row, nth_error Sample.wr_bars i = Some row ->
             Dict.get Cell.ostring_dec (Bar.defteam row) d_rank
             = Some (Z.of_nat i))
       /\ (forall t, In t (map fst d_rank) ->
             In t (map Bar.defteam Sample.wr_bars)).
Proof.
  assert (Hnd : NoDup (map Bar.defteam Sample.wr_bars)).
  { rewrite wr_bars_teams. repeat constructor; simpl; intuition discriminate. }
  assert (Hnn : forall row, In row Sample.wr_bars -> Bar.defteam row <> None).
  { intros row Hrow. apply (in_map Bar.defteam) in Hrow.
    rewrite wr_bars_teams in Hrow. simpl in Hrow.
    destruct Hrow as [<-|[<-|[<-|[]]]]; discriminate. }
  assert (Hss : is_scoring_system "PPR") by (right; right; reflexivity).
  split; [exact Hnd|]. split; [exact Hnn|]. split; [exact Hss|].
  apply (proj1 (get_rank_dict_is_row_index Sample.wr_bars "PPR" Hnd Hnn)).
  exact Hss.
Defined.

Lemma barchart_ranks_follow_bars_witness :
  barchart_of Sample.wr_data "Standard" "Raw" = Ok Sample.wr_bars
  /\ is_scoring_system "Standard"
  /\ exists d_rank,
       get_rank_dict Sample.wr_bars "Standard" = Ok d_rank
       /\ (forall i row, nth_error Sample.wr_bars i = Some row ->
             Dict.get Cell.ostring_dec (Bar.defteam row) d_rank
             = Some (Z.of_nat i)).
Proof.
  split; [exact wr_bars_computed|].
  split; [left; reflexivity|].
  apply (barchart_ranks_follow_bars Sample.wr_data "Standard" "Raw"
           Sample.wr_bars wr_bars_computed).
  left. reflexivity.
Defined.

Lemma weekly_of_one_point_per_game_witness :
  NoDup (map fpa_key Sample.chart_table)
  /\ fpa_data_of Sample.chart_table "WR" [] = Ok Sample.wr_data
  /\ Sample.wr_data <> []
  /\ exists wd,
       weekly_of Sample.wr_data "MIA" = Ok wd
       /\ map Weekly.base wd
          = filter (fun r => Cell.eq_str (FpaData.defteam r) "MIA")
                   Sample.wr_data
       /\ (forall x, In x wd -> FpaData.defteam (Weekly.base x) = Some "MIA")
       /\ NoDup (map (fun x => (FpaData.week (Weekly.base x),
                                FpaData.posteam (Weekly.base x))) wd).
Proof.
  split; [exact chart_table_keys|]. split; [exact wr_data_computed|].
  assert (Hne : Sample.wr_data <> []) by discriminate.
  split; [exact Hne|].
  apply (proj2 (weekly_of_one_point_per_game Sample.chart_table "WR" []
                  Sample.wr_data "MIA" chart_table_keys wr_data_computed)).
  exact Hne.
Defined.

Lemma final_week_only_raises_witness :
  fst (get_fpa_by_position 2021 Sample.chart_world) = Ok Sample.chart_table
  /\ final_week_of Sample.chart_table = Ok 3
  /\ (forall r, In r Sample.chart_table -> Fpa.position r = Some "TE" ->
                Fpa.week r = Some 3)
  /\ (fst (get_fpa_data 2021 "TE" [] Sample.chart_world) = Ok []
      /\ fst (get_def_avg_barchart_data 2021 "TE" "Standard" [] "Raw"
                Sample.chart_world) = Failed
      /\ fst (get_weekly_linechart_data 2021 "TE" "Standard" [] "Raw" "NE"
                Sample.chart_world) = Failed).
Proof.
  assert (Hall : forall r, In r Sample.chart_table ->
                   Fpa.position r = Some "TE" -> Fpa.week r = Some 3).
  { intros r Hr Hpos. simpl in Hr.
    destruct Hr as [<-|[<-|[<-|[<-|[<-|[<-|[]]]]]]];
      solve [discriminate | reflexivity]. }
  split; [reflexivity|]. split; [reflexivity|]. split; [exact Hall|].
  apply (final_week_only_raises 2021 Sample.chart_world Sample.chart_table
           "TE" "Standard" "Raw" "NE" 3);
    [reflexivity | reflexivity | exact Hall].
Defined.

Lemma get_fpa_by_position_one_row_per_key_witness :
  fpa_pickle Sample.season_2021 2021 = None
  /\ fst (get_fpa_by_position 2021 Sample.season_2021) = Ok Sample.table_2021
  /\ NoDup (map fpa_key Sample.table_2021).
Proof.
  assert (Ht : fst (get_fpa_by_position 2021 Sample.season_2021)
               = Ok Sample.table_2021) by (vm_compute; reflexivity).
  split; [reflexivity|]. split; [exact Ht|].
  apply (get_fpa_by_position_one_row_per_key 2021 Sample.season_2021
           Sample.table_2021 eq_refl Ht).
Defined.

Lemma aggregate_sums_attributed_rows_witness :
  In "RB" summed_positions
  /\ let tri_data :=
       attributed (get_players Sample.kept_pbp_2021) Sample.stats_2021
         Sample.lookup_2021 in
     let k : FKey := (Some 1, (Some "MIA", (Some "NE", Some "RB"))) in
     let rows_of_key :=
       filter (fun t => if FKey_dec (tri_fkey t) k then true else false)
              tri_data in
     aggregate tri_data = Ok Sample.table_2021
     /\ ((exists row, In row Sample.table_2021 /\ fpa_key row = k)
         <-> rows_of_key <> [])
     /\ (forall row, In row Sample.table_2021 -> fpa_key row = k ->
           Fpa.fantasy_points row
           = Cell.sumQ (map Tri.fantasy_points rows_of_key)
           /\ Fpa.fantasy_points_ppr row
              = Cell.sumQ (map Tri.fantasy_points_ppr rows_of_key)).
Proof.
  assert (Hpos : In "RB" summed_positions) by (right; left; reflexivity).
  assert (Hok : aggregate
                  (attributed (get_players Sample.kept_pbp_2021)
                     Sample.stats_2021 Sample.lookup_2021)
                = Ok Sample.table_2021) by (vm_compute; reflexivity).
  split; [exact Hpos|]. cbv zeta. split; [exact Hok|].
  apply (aggregate_sums_attributed_rows
           (attributed (get_players Sample.kept_pbp_2021) Sample.stats_2021
              Sample.lookup_2021)
           Sample.table_2021
           "RB" (Some 1) (Some "MIA") (Some "NE") Hpos Hok).
Defined.

Lemma get_players_conserves_plays_witness :
  Forall (fun p => Pbp.play_id p <> None) Sample.five_and_three
  /\ Cell.sumZ (map Players.plays (get_players Sample.five_and_three))
     = role_plays Pbp.rusher_player_id Sample.five_and_three
       + role_plays Pbp.passer_player_id Sample.five_and_three
       + role_plays Pbp.receiver_player_id Sample.five_and_three.
Proof.
  assert (H : Forall (fun p => Pbp.play_id p <> None) Sample.five_and_three).
  { repeat constructor; discriminate. }
  split; [exact H|].
  apply (get_players_conserves_plays Sample.five_and_three H).
Defined.

Lemma season_without_attributed_rows_raises_witness :
  fpa_pickle Sample.season_2021_empty_stats 2021 = None
  /\ get_pbp_data 2021 Sample.season_2021_empty_stats = Ok Sample.kept_pbp_2021
  /\ get_player_stats_data 2021 Sample.season_2021_empty_stats = Ok []
  /\ get_two_year_roster_data 2021 Sample.season_2021_empty_stats
     = Ok Sample.lookup_2021
  /\ aggregate (attributed (get_players Sample.kept_pbp_2021) []
                  Sample.lookup_2021) = Failed
  /\ get_fpa_by_position 2021 Sample.season_2021_empty_stats
     = (Failed, Sample.season_2021_empty_stats)
  /\ fpa_pickle (snd (get_fpa_by_position 2021 Sample.season_2021_empty_stats))
       2021 = None
  /\ get_final_week 2021 Sample.season_2021_empty_stats
     = (Failed, Sample.season_2021_empty_stats)
  /\ get_fpa_data 2021 "WR" [] Sample.season_2021_empty_stats
     = (Failed, Sample.season_2021_empty_stats).
Proof.
  assert (Hd : get_pbp_data 2021 Sample.season_2021_empty_stats
               = Ok Sample.kept_pbp_2021) by (vm_compute; reflexivity).
  assert (Hr : get_two_year_roster_data 2021 Sample.season_2021_empty_stats
               = Ok Sample.lookup_2021) by (vm_compute; reflexivity).
  split; [reflexivity|]. split; [exact Hd|]. split; [reflexivity|].
  split; [exact Hr|].
  apply (season_without_attributed_rows_raises 2021
           Sample.season_2021_empty_stats Sample.kept_pbp_2021 []
           Sample.lookup_2021 "WR" [] eq_refl Hd eq_refl Hr).
  intros p s _ [].
Defined.

(** A listing with the images of two teams and a stray file. *)
Example logo_dict_of_listing :
  logo_dict_of "/app" ["DAL.png"; "notes.txt"; "PHI.png"]
  = [ ("DAL", "/app/images/team_logos/DAL.png");
      ("notes", "/app/images/team_logos/notes.txt");
      ("PHI", "/app/images/team_logos/PHI.png") ].
Proof. reflexivity. Qed.

(** ** The plays that are fetched *)

Lemma pbp_keep_spec (p : Pbp.row) :
  pbp_keep p = true <->
  Pbp.special_teams_play p = Some 0
  /\ Pbp.epa p <> None
  /\ Pbp.season_type p = Some "REG"
  /\ (Pbp.play_type p = Some "pass" \/ Pbp.play_type p = Some "run").
Proof.
  unfold pbp_keep. rewrite !andb_true_iff.
  rewrite isna_false_notna, notna_true, eq_str_true, isin_spec.
  assert (Hz : Cell.eqZ (Pbp.special_teams_play p) (Some 0) = true
               <-> Pbp.special_teams_play p = Some 0).
  { destruct (Pbp.special_teams_play p) as [z|]; simpl.
    - rewrite Z.eqb_eq. split; congruence.
    - split; discriminate. }
  rewrite Hz. split.
  - intros [[[H1 H2] H3] [s [Hs Hin]]]. repeat split; try assumption.
    simpl in Hin. destruct Hin as [<-|[<-|[]]]; [left | right]; exact Hs.
  - intros [H1 [H2 [H3 H4]]]. repeat split; try assumption.
    destruct H4 as [H4|H4]; eexists; (split; [exact H4|]); simpl; auto.
Qed.

(** X20. A play-by-play csv in [cache/] is returned as it is, the archive not
    consulted. Without it the archive is fetched, a failure of which fails
    the call, and of its rows exactly the regular-season pass and run
    plays that have an EPA and are no special-teams plays are returned,
    in order. *)
Theorem get_pbp_data_keeps_scrimmage_plays (year : Z) (w : World) :
  (forall cached, pbp_csv w year = Some cached ->
     get_pbp_data year w = Ok cached)
  /\ (pbp_csv w year = None -> pbp_remote w year = None ->
      get_pbp_data year w = Failed)
  /\ (forall archive,
        pbp_csv w year = None -> pbp_remote w year = Some archive ->
        get_pbp_data year w = Ok (filter pbp_keep archive)
        /\ forall p, In p (filter pbp_keep archive) <->
             In p archive
             /\ Pbp.special_teams_play p = Some 0
             /\ Pbp.epa p <> None
             /\ Pbp.season_type p = Some "REG"
             /\ (Pbp.play_type p = Some "pass" \/ Pbp.play_type p = Some "run")).
Proof.
  unfold get_pbp_data. split; [|split].
  - intros cached ->. reflexivity.
  - intros -> ->. reflexivity.
  - intros archive -> ->. split; [reflexivity|].
    intros p. rewrite filter_In, pbp_keep_spec. reflexivity.
Qed.

Lemma final_week_of_greatest_or_fails_witness :
  final_week_of Sample.chart_table = Ok 3
  /\ (forall r wk, In r Sample.chart_table -> Fpa.week r = Some wk -> wk <= 3)
  /\ final_week_of [] = Failed.
Proof.
  destruct (final_week_of_greatest_or_fails Sample.chart_table) as [Hok _].
  destruct (final_week_of_greatest_or_fails []) as [_ Hfail].
  assert (E : final_week_of Sample.chart_table = Ok 3) by reflexivity.
  split; [exact E|]. split.
  - apply (proj1 (Hok 3) E).
  - apply Hfail. left. reflexivity.
Defined.

Lemma fpa_data_of_fails_iff_witness :
  final_week_of Sample.chart_table_null_offense = Ok 3
  /\ fpa_data_of Sample.chart_table_null_offense "WR" [] = Failed
  /\ fpa_data_of Sample.chart_table_null_offense "TE" ["Include Week 3"]
     <> Failed.
Proof.
  split; [reflexivity|]. split.
  - apply (proj2 (fpa_data_of_fails_iff Sample.chart_table_null_offense "WR" [])).
    right. exists 3, (Fpa.mk (Some 2) (Some "NE") None (Some "WR") 7 9).
    split; [reflexivity|]. split; [simpl; tauto|]. split; [reflexivity|].
    split; [right; discriminate | reflexivity].
  - intros H.
    apply (proj1 (fpa_data_of_fails_iff Sample.chart_table_null_offense "TE"
                    ["Include Week 3"])) in H.
    destruct H as [H|[mw [r [_ [Hr [Hpos [_ Hnull]]]]]]]; [discriminate|].
    simpl in Hr.
    destruct Hr as [<-|[<-|[<-|[<-|[<-|[<-|[<-|[]]]]]]]]; discriminate.
Defined.

Lemma barchart_of_one_row_per_defense_witness :
  barchart_of [] "Standard" "Raw" = Failed
  /\ NoDup (map Bar.defteam Sample.wr_bars)
  /\ (forall t, In t (map Bar.defteam Sample.wr_bars) <->
        t <> None /\ exists x, In x Sample.wr_data /\ FpaData.defteam x = t).
Proof.
  destruct (barchart_of_one_row_per_defense [] "Standard" "Raw") as [Hfail _].
  destruct (barchart_of_one_row_per_defense Sample.wr_data "Standard" "Raw")
    as [_ Hok].
  destruct (Hok Sample.wr_bars wr_bars_computed) as [Hnd [Hin _]].
  split; [apply Hfail; reflexivity|]. split; assumption.
Defined.

Lemma logo_dict_finds_stored_logo_witness :
  Dict.get string_dec "DAL"
    (logo_dict_of "/app" ["DAL.png"; "notes.txt"; "PHI.png"])
  = Some "/app/images/team_logos/DAL.png"
  /\ Dict.get string_dec "NYG"
       (logo_dict_of "/app" ["DAL.png"; "notes.txt"; "PHI.png"])
     = None.
Proof.
  destruct (logo_dict_finds_stored_logo "/app"
              ["DAL.png"; "notes.txt"; "PHI.png"] "DAL") as [Hfound _].
  destruct (logo_dict_finds_stored_logo "/app"
              ["DAL.png"; "notes.txt"; "PHI.png"] "NYG") as [_ [Hnone _]].
  split.
  - apply Hfound.
    + simpl. repeat split; discriminate.
    + left. reflexivity.
    + intros i Hi Hs. simpl in Hi.
      destruct Hi as [<-|[<-|[<-|[]]]]; solve [reflexivity | discriminate].
  - apply Hnone. intros i Hi. simpl in Hi.
    destruct Hi as [<-|[<-|[<-|[]]]]; discriminate.
Defined.

Lemma two_year_roster_one_season_per_player_witness :
  two_year_roster Sample.roster_2021 Sample.roster_2020 = Sample.lookup_2021
  /\ (forall r r', In r Sample.lookup_2021 -> In r' Sample.lookup_2021 ->
        Roster.gsis_id r = Roster.gsis_id r' ->
        Roster.season r = Roster.season r')
  /\ exists r', In r' Sample.lookup_2021 /\ Roster.gsis_id r' = Some "00-5".
Proof.
  assert (E : two_year_roster Sample.roster_2021 Sample.roster_2020
              = Sample.lookup_2021) by (vm_compute; reflexivity).
  destruct (two_year_roster_one_season_per_player
              Sample.roster_2021 Sample.roster_2020) as [_ [Hone Hkept]].
  cbv zeta in Hone, Hkept. rewrite E in Hone, Hkept.
  split; [exact E|]. split; [exact Hone|].
  apply (Hkept (Roster.mk (Some "00-5") (Some 2020) (Some "TE")) "00-5" 2020).
  - simpl. tauto.
  - reflexivity.
  - reflexivity.
Defined.

Lemma refresh_pickles_fills_the_cache_witness :
  fst (refresh_pickles Sample.every_season) = Ok tt
  /\ (forall y, refreshed y ->
        fpa_pickle (snd (refresh_pickles Sample.every_season)) y <> None)
  /\ refresh_pickles (snd (refresh_pickles Sample.every_season))
     = (Ok tt, snd (refresh_pickles Sample.every_season)).
Proof.
  assert (E : fst (refresh_pickles Sample.every_season) = Ok tt).
  { vm_compute. reflexivity. }
  destruct (refresh_pickles_fills_the_cache Sample.every_season)
    as [_ [_ H]].
  cbv zeta in H. destruct (H E) as [Hfill Hagain].
  split; [exact E|]. split; assumption.
Defined.

(** The table of every season of [Sample.every_season]: the running back
    A, and the kicker's carry in the non-skill bucket. *)
Example get_fpa_by_position_every_season :
  fst (get_fpa_by_position 2006 Sample.every_season) = Ok Sample.table_2021
  /\ fst (get_fpa_by_position 2021 Sample.every_season) = Ok Sample.table_2021.
Proof. split; vm_compute; reflexivity. Qed.

(** ** The threshold, in binary64 *)


(** ** A refresh that raises *)

(** X22. [refresh_pickles] starts with season 2021 and has no handler: when
    the call for 2021 raises, the refresh raises with it, no later season
    is tried and the world is left as it was. *)
Theorem refresh_pickles_raises_with_the_first_season (w : World) :
  fst (get_fpa_by_position 2021 w) = Failed ->
  refresh_pickles w = (Failed, w).
Proof.
  intros H. unfold refresh_pickles, refresh_years. cbn [refresh_loop].
  rewrite H. rewrite (get_fpa_by_position_Failed 2021 w H). reflexivity.
Qed.

Lemma refresh_pickles_raises_with_the_first_season_witness :
  fst (get_fpa_by_position 2021 Sample.empty_archives) = Failed
  /\ refresh_pickles Sample.empty_archives = (Failed, Sample.empty_archives).
Proof.
  assert (H : fst (get_fpa_by_position 2021 Sample.empty_archives) = Failed).
  { vm_compute. reflexivity. }
  split; [exact H|].
  apply (refresh_pickles_raises_with_the_first_season Sample.empty_archives H).
Defined.
